(** * sap_cloud: metadata store, coordinators, sync and authentication

    A shallow embedding of the metadata/synchronisation core of the
    personal cloud-drive backend:

    - [MetadataStore]  (src/storage/metadata.cpp): the SQLite index.  Every
      SQL statement of the source is written out as a function on the
      tables it reads or writes.
    - [FileService], [NoteService] (services): the coordinators between
      the content store and the index.
    - [SyncService]: the delta view.
    - [AuthManager] (src/auth_manager.cpp): challenge-response login.

    The collaborators that are not part of the repository (the byte-level
    filesystem [sap_fs], the crypto and hashing helpers of [sap_sync], the
    FTS5 engine, the wall clock, the random source and the failures of the
    database connection) are interfaces or oracles: every theorem holds
    for all of them. *)

From Stdlib Require Import ZArith List String Ascii Bool Lia.
From Stdlib Require Import Permutation Sorted.
From Stdlib.Strings Require Import Byte.
Import ListNotations.

Open Scope string_scope.
Open Scope Z_scope.

(* ================================================================== *)
(** ** Results *)

(** [stl::result<T>]: a value or an error message. *)
Inductive result (A : Type) : Type :=
| Ok (a : A)
| Err (msg : string).
Arguments Ok {A} a.
Arguments Err {A} msg.

Definition has_value {A} (r : result A) : bool :=
  match r with Ok _ => true | Err _ => false end.

(* ================================================================== *)
(** ** Fixed-width integers *)

Definition two64 : Z := 2 ^ 64.

(** [static_cast<size_t>(x)] for an [i64] [x]. *)
Definition to_size_t (x : Z) : Z := x mod two64.

(** Addition of two [size_t] values. *)
Definition size_add (a b : Z) : Z := (a + b) mod two64.

(** Addition of two [i64] values, two's complement. *)
Definition i64_add (a b : Z) : Z :=
  (a + b + 2 ^ 63) mod two64 - 2 ^ 63.

(* ================================================================== *)
(** ** Records of sap_sync/sync_types.h, as the code uses them *)

Definition Timestamp := Z.

Module FileMetadata.
Record t := mk {
  path : string;
  hash : string;
  size : Z;
  mtime : Timestamp;
  created_at : Timestamp;
  updated_at : Timestamp;
  is_deleted : bool
}.
End FileMetadata.

Module NoteMetadata.
Record t := mk {
  id : string;
  path : string;
  title : string;
  tags : list string;
  hash : string;
  created_at : Timestamp;
  updated_at : Timestamp;
  is_deleted : bool
}.
End NoteMetadata.

Module TagInfo.
Record t := mk { name : string; count : Z }.
End TagInfo.

Module NoteListItem.
Record t := mk {
  id : string;
  title : string;
  tags : list string;
  updated_at : Timestamp;
  preview : string
}.
End NoteListItem.

Module NoteListResponse.
Record t := mk { notes : list NoteListItem.t; total : Z }.
End NoteListResponse.

Module SyncState.
Record t := mk { server_time : Timestamp; files : list FileMetadata.t }.
End SyncState.

Module AuthToken.
Record t := mk { token : string; expires_at : Z }.
End AuthToken.

Module AuthChallenge.
Record t := mk { challenge : string; public_key : string; expires_at : Z }.
End AuthChallenge.

Module VerifyRequest.
Record t := mk { challenge : string; public_key : string; signature : string }.
End VerifyRequest.

(* ================================================================== *)
(** ** The tables of [init_schema] *)

(** A row of [notes]; the tags live in [note_tags]. *)
Module NoteRow.
Record t := mk {
  id : string;
  path : string;
  title : string;
  hash : string;
  created_at : Z;
  updated_at : Z;
  is_deleted : bool
}.
End NoteRow.

Module TagRow.
Record t := mk { id : Z; name : string }.
End TagRow.

Module NoteTag.
Record t := mk { note_id : string; tag_id : Z }.
End NoteTag.

Module FtsRow.
Record t := mk { note_id : string; title : string; content : string }.
End FtsRow.

Module TokenRow.
Record t := mk {
  token : string;
  created_at : Z;
  expires_at : Z;
  last_used : option Z
}.
End TokenRow.

Module ChallengeRow.
Record t := mk { challenge : string; public_key : string; expires_at : Z }.
End ChallengeRow.

(** The database: one list per table, in rowid order.  [tags_seq] is the
    AUTOINCREMENT counter of [tags] (the largest id ever handed out). *)
Record Tables := mkTables {
  files : list FileMetadata.t;
  notes : list NoteRow.t;
  tags : list TagRow.t;
  tags_seq : Z;
  note_tags : list NoteTag.t;
  notes_fts : list FtsRow.t;
  auth_tokens : list TokenRow.t;
  auth_challenges : list ChallengeRow.t
}.

Definition empty_tables : Tables :=
  mkTables [] [] [] 0 [] [] [] [].

Definition with_files (v : list FileMetadata.t) (t : Tables) : Tables :=
  mkTables v (notes t) (tags t) (tags_seq t) (note_tags t) (notes_fts t)
           (auth_tokens t) (auth_challenges t).
Definition with_notes (v : list NoteRow.t) (t : Tables) : Tables :=
  mkTables (files t) v (tags t) (tags_seq t) (note_tags t) (notes_fts t)
           (auth_tokens t) (auth_challenges t).
Definition with_tags (v : list TagRow.t) (s : Z) (t : Tables) : Tables :=
  mkTables (files t) (notes t) v s (note_tags t) (notes_fts t)
           (auth_tokens t) (auth_challenges t).
Definition with_note_tags (v : list NoteTag.t) (t : Tables) : Tables :=
  mkTables (files t) (notes t) (tags t) (tags_seq t) v (notes_fts t)
           (auth_tokens t) (auth_challenges t).
Definition with_notes_fts (v : list FtsRow.t) (t : Tables) : Tables :=
  mkTables (files t) (notes t) (tags t) (tags_seq t) (note_tags t) v
           (auth_tokens t) (auth_challenges t).
Definition with_auth_tokens (v : list TokenRow.t) (t : Tables) : Tables :=
  mkTables (files t) (notes t) (tags t) (tags_seq t) (note_tags t)
           (notes_fts t) v (auth_challenges t).
Definition with_auth_challenges (v : list ChallengeRow.t) (t : Tables)
  : Tables :=
  mkTables (files t) (notes t) (tags t) (tags_seq t) (note_tags t)
           (notes_fts t) (auth_tokens t) v.

(* ================================================================== *)
(** ** The world an operation runs in *)

(** What an operation leaves behind, newest first: calls that change the
    content store, statements that change the index, and log lines. *)
Inductive FsCall :=
| FsWrite (path : string) (content : list byte)
| FsSetMtime (path : string) (t : Timestamp)
| FsRemove (path : string).

Inductive SqlWrite :=
| UpsertFile (m : FileMetadata.t)
| MarkDeleted (path : string) (now : Z)
| UpsertNote (m : NoteMetadata.t)
| TombstoneNote (id : string) (now : Z)
| ClearNoteTags (note_id : string)
| InsertTag (name : string)
| LinkNoteTag (note_id : string) (tag_id : Z)
| DeleteFts (note_id : string)
| InsertFts (note_id : string)
| InsertToken (token : string)
| TouchToken (token : string) (now : Z)
| SweepTokens (now : Z)
| InsertChallenge (challenge : string)
| DeleteChallenge (challenge : string).

Inductive Level := Debug | Info | Warn.

Inductive LogArg := LStr (s : string) | LNum (n : Z).

Inductive Event :=
| EvFs (c : FsCall) (ok : bool)
| EvSql (s : SqlWrite)
| EvLog (l : Level) (fmt : string) (args : list LogArg).

(** The process state.  [clock] is the reading [sync::now_ms()] gives at
    its n-th call, [fault] the failure (if any) the database connection
    reports at its n-th request, [entropy] the n-th random string. *)
Record World (F : Type) := mkWorld {
  tables : Tables;
  fsys : F;
  clock : nat -> Z;
  ticks : nat;
  fault : nat -> option string;
  ops : nat;
  entropy : nat -> string;
  draws : nat;
  journal : list Event
}.
Arguments mkWorld {F}.
Arguments tables {F}.
Arguments fsys {F}.
Arguments clock {F}.
Arguments ticks {F}.
Arguments fault {F}.
Arguments ops {F}.
Arguments entropy {F}.
Arguments draws {F}.
Arguments journal {F}.

(** The connection never reports a failure. *)
Definition healthy {F} (w : World F) : Prop :=
  forall n, fault w n = None.

(** State passing. *)
Definition M (F A : Type) : Type := World F -> A * World F.

Definition ret {F A} (a : A) : M F A := fun w => (a, w).

Definition bind {F A B} (m : M F A) (k : A -> M F B) : M F B :=
  fun w => let (a, w') := m w in k a w'.

Declare Scope m_scope.
Delimit Scope m_scope with M.
Notation "x <- m ;; k" := (bind m (fun x => k))
  (at level 61, m at next level, right associativity) : m_scope.
Notation "m1 ;;; k" := (bind m1 (fun _ => k))
  (at level 61, right associativity) : m_scope.
(** [if (!r) return stl::make_error<T>("{}", r.error());] *)
Notation "'try' x <- m ;; k" :=
  (bind m (fun r => match r with
                    | Ok x => k
                    | Err e => ret (Err e)
                    end))
  (at level 61, x name, m at next level, right associativity) : m_scope.
Open Scope m_scope.

Section Primitives.
Context {F : Type}.

(** [sync::now_ms()] *)
Definition now_ms : M F Z := fun w =>
  (clock w (ticks w),
   mkWorld (tables w) (fsys w) (clock w) (S (ticks w)) (fault w) (ops w)
           (entropy w) (draws w) (journal w)).

(** One draw of the random source ([generate_token],
    [generate_challenge]). *)
Definition random_string : M F string := fun w =>
  (entropy w (draws w),
   mkWorld (tables w) (fsys w) (clock w) (ticks w) (fault w) (ops w)
           (entropy w) (S (draws w)) (journal w)).

Definition emit (e : Event) : M F unit := fun w =>
  (tt,
   mkWorld (tables w) (fsys w) (clock w) (ticks w) (fault w) (ops w)
           (entropy w) (draws w) (e :: journal w)).

Definition log (l : Level) (fmt : string) (args : list LogArg) : M F unit :=
  emit (EvLog l fmt args).

(** One request to the connection: the failure it reports, if any. *)
Definition request : M F (option string) := fun w =>
  (fault w (ops w),
   mkWorld (tables w) (fsys w) (clock w) (ticks w) (fault w) (S (ops w))
           (entropy w) (draws w) (journal w)).

Definition read_tables : M F Tables := fun w => (tables w, w).

Definition write_tables (t : Tables) : M F unit := fun w =>
  (tt,
   mkWorld t (fsys w) (clock w) (ticks w) (fault w) (ops w)
           (entropy w) (draws w) (journal w)).

(** [m_Db.prepare(sql)] *)
Definition prepare : M F (result unit) :=
  f <- request ;;
  match f with
  | Some e => ret (Err e)
  | None => ret (Ok tt)
  end.

(** [stmt->fetch_one()], [stmt->fetch_all()]: the rows [q] selects. *)
Definition fetch {A} (q : Tables -> A) : M F (result A) :=
  f <- request ;;
  match f with
  | Some e => ret (Err e)
  | None => t <- read_tables ;; ret (Ok (q t))
  end.

(** The same for a statement the engine may refuse while it runs. *)
Definition fetch_checked {A} (q : Tables -> result A) : M F (result A) :=
  f <- request ;;
  match f with
  | Some e => ret (Err e)
  | None => t <- read_tables ;; ret (q t)
  end.

(** [m_Db.query(sql)]: prepare and fetch in one call. *)
Definition query {A} (q : Tables -> A) : M F (result A) := fetch q.

(** [stmt->execute()]: [u] is the statement; it answers [Err] on a
    constraint violation, and then changes nothing. *)
Definition execute (tag : SqlWrite) (u : Tables -> result Tables)
  : M F (result unit) :=
  f <- request ;;
  match f with
  | Some e => ret (Err e)
  | None =>
      t <- read_tables ;;
      match u t with
      | Err e => ret (Err e)
      | Ok t' => write_tables t' ;;; emit (EvSql tag) ;;; ret (Ok tt)
      end
  end.
End Primitives.

(* ================================================================== *)
(** ** The content store (sap_fs), a collaborator *)

(** [fs::Filesystem]: every call answers a result and leaves a (possibly
    changed) store behind.  Nothing is assumed about what the calls do. *)
Class Filesystem (F : Type) := {
  fs_read : string -> F -> result (list byte) * F;
  fs_read_string : string -> F -> result string * F;
  fs_write : string -> list byte -> F -> result unit * F;
  fs_set_mtime : string -> Timestamp -> F -> result unit * F;
  fs_mtime : string -> F -> result Timestamp * F;
  fs_remove : string -> F -> result unit * F
}.

Module Fs.
Section Calls.
Context {F : Type} `{Filesystem F}.

Definition lift {A} (f : F -> result A * F) : M F (result A) := fun w =>
  let (r, s) := f (fsys w) in
  (r, mkWorld (tables w) s (clock w) (ticks w) (fault w) (ops w)
              (entropy w) (draws w) (journal w)).

Definition read (p : string) : M F (result (list byte)) :=
  lift (fs_read p).

Definition read_string (p : string) : M F (result string) :=
  lift (fs_read_string p).

Definition mtime (p : string) : M F (result Timestamp) :=
  lift (fs_mtime p).

Definition write (p : string) (c : list byte) : M F (result unit) :=
  r <- lift (fs_write p c) ;;
  emit (EvFs (FsWrite p c) (has_value r)) ;;;
  ret r.

Definition set_mtime (p : string) (t : Timestamp) : M F (result unit) :=
  r <- lift (fs_set_mtime p t) ;;
  emit (EvFs (FsSetMtime p t) (has_value r)) ;;;
  ret r.

Definition remove (p : string) : M F (result unit) :=
  r <- lift (fs_remove p) ;;
  emit (EvFs (FsRemove p) (has_value r)) ;;;
  ret r.
End Calls.
End Fs.

(* ================================================================== *)
(** ** The FTS5 engine of SQLite, a collaborator *)

(** [notes_fts MATCH ?]: the rows of the index the query matches, in the
    order in which [ORDER BY rank] lists their notes (best rank first),
    or the engine's error for a query it cannot parse. *)
Class Fts5 := {
  fts5_match : string -> list FtsRow.t -> result (list FtsRow.t)
}.

(* ================================================================== *)
(** ** The SQL statements of metadata.cpp *)

Module Sql.

(** *** Relational operators, as SQLite evaluates them *)

(** [l LEFT JOIN r ON on]: a row of [l] without a partner keeps NULLs. *)
Definition left_join {A B} (on : A -> B -> bool) (l : list A) (r : list B)
  : list (A * option B) :=
  flat_map (fun a =>
              match filter (on a) r with
              | [] => [(a, None)]
              | bs => map (fun b => (a, Some b)) bs
              end) l.

(** [l JOIN r ON on] *)
Definition inner_join {A B} (on : A -> B -> bool) (l : list A) (r : list B)
  : list (A * B) :=
  flat_map (fun a => map (fun b => (a, b)) (filter (on a) r)) l.

Fixpoint distinct_from {K} (eqb : K -> K -> bool) (seen ks : list K)
  : list K :=
  match ks with
  | [] => []
  | k :: rest =>
      if existsb (eqb k) seen
      then distinct_from eqb seen rest
      else k :: distinct_from eqb (k :: seen) rest
  end.

(** [GROUP BY key]: the groups, each with its rows in join order. *)
Definition group_by {K R} (eqb : K -> K -> bool) (key : R -> K)
           (rows : list R) : list (K * list R) :=
  map (fun k => (k, filter (fun r => eqb (key r) k) rows))
      (distinct_from eqb [] (map key rows)).

Fixpoint insert_sorted {A} (leb : A -> A -> bool) (x : A) (l : list A)
  : list A :=
  match l with
  | [] => [x]
  | y :: rest => if leb x y then x :: l else y :: insert_sorted leb x rest
  end.

(** [ORDER BY]: rows that compare equal keep their order. *)
Definition order_by {A} (leb : A -> A -> bool) (l : list A) : list A :=
  fold_right (insert_sorted leb) [] l.

Fixpoint join_commas (l : list string) : string :=
  match l with
  | [] => EmptyString
  | [s] => s
  | s :: rest => s ++ "," ++ join_commas rest
  end.

(** [GROUP_CONCAT(col)]: NULLs are skipped; NULL when nothing is left. *)
Definition group_concat (col : list (option string)) : option string :=
  match flat_map (fun o => match o with Some s => [s] | None => [] end) col
  with
  | [] => None
  | l => Some (join_commas l)
  end.

(** [SELECT ... FROM files WHERE path = ?] *)
Definition select_file (path : string) (t : Tables)
  : option FileMetadata.t :=
  find (fun r => String.eqb (FileMetadata.path r) path) (files t).

Definition by_updated (a b : FileMetadata.t) : bool :=
  FileMetadata.updated_at a <=? FileMetadata.updated_at b.

(** [SELECT ... FROM files], with [WHERE updated_at > ?] when [since]
    is given.  Without the condition the table is scanned in rowid
    order; with it SQLite walks [idx_files_updated], so the rows come by
    [updated_at], rows of equal [updated_at] in rowid order. *)
Definition select_files (since : option Timestamp) (t : Tables)
  : list FileMetadata.t :=
  match since with
  | None => files t
  | Some s =>
      order_by by_updated
               (filter (fun r => s <? FileMetadata.updated_at r) (files t))
  end.

(** The [DO UPDATE SET] clause of [upsert_file]: hash, size, mtime,
    updated_at and is_deleted come from the new record. *)
Definition file_conflict_update (excluded old : FileMetadata.t)
  : FileMetadata.t :=
  FileMetadata.mk (FileMetadata.path old)
                  (FileMetadata.hash excluded)
                  (FileMetadata.size excluded)
                  (FileMetadata.mtime excluded)
                  (FileMetadata.created_at old)
                  (FileMetadata.updated_at excluded)
                  (FileMetadata.is_deleted excluded).

(** [INSERT INTO files ... ON CONFLICT(path) DO UPDATE SET ...] *)
Definition insert_or_update_file (meta : FileMetadata.t) (t : Tables)
  : Tables :=
  let same r := String.eqb (FileMetadata.path r) (FileMetadata.path meta) in
  if existsb same (files t)
  then with_files
         (map (fun r => if same r then file_conflict_update meta r else r)
              (files t)) t
  else with_files (files t ++ [meta]) t.

(** [UPDATE files SET is_deleted = 1, updated_at = ? WHERE path = ?] *)
Definition update_file_deleted (now : Z) (path : string) (t : Tables)
  : Tables :=
  with_files
    (map (fun r =>
            if String.eqb (FileMetadata.path r) path
            then FileMetadata.mk (FileMetadata.path r) (FileMetadata.hash r)
                                 (FileMetadata.size r) (FileMetadata.mtime r)
                                 (FileMetadata.created_at r) now true
            else r)
         (files t)) t.

(** [SELECT 1 FROM auth_tokens WHERE token = ? AND expires_at > ?] *)
Definition select_live_token (token : string) (now : Z) (t : Tables)
  : option TokenRow.t :=
  find (fun r => String.eqb (TokenRow.token r) token
                 && (now <? TokenRow.expires_at r))
       (auth_tokens t).

(** [INSERT INTO auth_tokens (token, created_at, expires_at)]; [token]
    is the primary key. *)
Definition insert_token (token : string) (now expires_at : Z) (t : Tables)
  : result Tables :=
  if existsb (fun r => String.eqb (TokenRow.token r) token) (auth_tokens t)
  then Err "UNIQUE constraint failed: auth_tokens.token"
  else Ok (with_auth_tokens
             (auth_tokens t ++ [TokenRow.mk token now expires_at None]) t).

(** [UPDATE auth_tokens SET last_used = ? WHERE token = ?] *)
Definition update_last_used (now : Z) (token : string) (t : Tables)
  : Tables :=
  with_auth_tokens
    (map (fun r =>
            if String.eqb (TokenRow.token r) token
            then TokenRow.mk (TokenRow.token r) (TokenRow.created_at r)
                             (TokenRow.expires_at r) (Some now)
            else r)
         (auth_tokens t)) t.

(** [DELETE FROM auth_tokens WHERE expires_at < ?] *)
Definition delete_expired_tokens (now : Z) (t : Tables) : Tables :=
  with_auth_tokens
    (filter (fun r => negb (TokenRow.expires_at r <? now)) (auth_tokens t)) t.

(** [SELECT 1 FROM auth_challenges
     WHERE challenge = ? AND public_key = ? AND expires_at > ?] *)
Definition select_live_challenge (challenge public_key : string) (now : Z)
           (t : Tables) : option ChallengeRow.t :=
  find (fun r => String.eqb (ChallengeRow.challenge r) challenge
                 && String.eqb (ChallengeRow.public_key r) public_key
                 && (now <? ChallengeRow.expires_at r))
       (auth_challenges t).

(** [INSERT INTO auth_challenges ...]; [challenge] is the primary key. *)
Definition insert_challenge (challenge public_key : string) (expires_at : Z)
           (t : Tables) : result Tables :=
  if existsb (fun r => String.eqb (ChallengeRow.challenge r) challenge)
             (auth_challenges t)
  then Err "UNIQUE constraint failed: auth_challenges.challenge"
  else Ok (with_auth_challenges
             (auth_challenges t
              ++ [ChallengeRow.mk challenge public_key expires_at]) t).

(** [DELETE FROM auth_challenges WHERE challenge = ?] *)
Definition delete_challenge (challenge : string) (t : Tables) : Tables :=
  with_auth_challenges
    (filter (fun r => negb (String.eqb (ChallengeRow.challenge r) challenge))
            (auth_challenges t)) t.

(** *** Notes, tags and the search index *)

(** A row of [notes n LEFT JOIN note_tags nt LEFT JOIN tags t]. *)
Definition NoteJoin : Type := NoteRow.t * option NoteTag.t * option TagRow.t.

Definition on_note_link (n : NoteRow.t) (nt : NoteTag.t) : bool :=
  String.eqb (NoteRow.id n) (NoteTag.note_id nt).

Definition on_link_tag {A} (row : A * option NoteTag.t) (t : TagRow.t)
  : bool :=
  match snd row with
  | Some nt => NoteTag.tag_id nt =? TagRow.id t
  | None => false
  end.

(** The order of the primary key of [note_tags], [(note_id, tag_id)]. *)
Definition by_link_key (a b : NoteTag.t) : bool :=
  if String.eqb (NoteTag.note_id a) (NoteTag.note_id b)
  then NoteTag.tag_id a <=? NoteTag.tag_id b
  else String.leb (NoteTag.note_id a) (NoteTag.note_id b).

(** [... LEFT JOIN note_tags nt ON n.id = nt.note_id
         LEFT JOIN tags t ON nt.tag_id = t.id] over the rows [ns].  The
    links of a note are looked up through the index of the primary key
    of [note_tags], so they come by [tag_id]. *)
Definition with_tag_names (ns : list NoteRow.t) (t : Tables)
  : list NoteJoin :=
  left_join on_link_tag
            (left_join on_note_link ns (order_by by_link_key (note_tags t)))
            (tags t).

Definition join_note (j : NoteJoin) : NoteRow.t := fst (fst j).

Definition join_tag_name (j : NoteJoin) : option string :=
  option_map TagRow.name (snd j).

(** One output row per group: the note's columns and
    [GROUP_CONCAT(t.name) as tags]. *)
Definition NoteResult : Type := NoteRow.t * option string.

Definition grouped_notes (rows : list NoteJoin) : list NoteResult :=
  flat_map (fun g =>
              match snd g with
              | [] => []
              | j :: _ => [(join_note j, group_concat (map join_tag_name (snd g)))]
              end)
           (group_by String.eqb (fun j => NoteRow.id (join_note j)) rows).

Definition by_updated_desc (a b : NoteResult) : bool :=
  NoteRow.updated_at (fst b) <=? NoteRow.updated_at (fst a).

(** The order in which [GROUP BY n.id] hands the groups to [ORDER BY]:
    by id when the notes are scanned through their primary key
    ([get_all_notes]); by id, largest first, when the groups are made by
    a sort that takes its direction from [ORDER BY ... DESC]
    ([get_notes_by_tag]). *)
Definition by_id (a b : NoteResult) : bool :=
  String.leb (NoteRow.id (fst a)) (NoteRow.id (fst b)).

Definition by_id_desc (a b : NoteResult) : bool :=
  String.leb (NoteRow.id (fst b)) (NoteRow.id (fst a)).

(** The statement of [get_note]: [WHERE n.id = ? GROUP BY n.id]. *)
Definition select_note (id : string) (t : Tables) : option NoteResult :=
  hd_error
    (grouped_notes
       (filter (fun j => String.eqb (NoteRow.id (join_note j)) id)
               (with_tag_names (notes t) t))).

(** [SELECT id FROM notes WHERE path = ?] *)
Definition select_note_id_by_path (path : string) (t : Tables)
  : option string :=
  option_map NoteRow.id
    (find (fun n => String.eqb (NoteRow.path n) path) (notes t)).

(** The statement of [get_all_notes]:
    [WHERE n.is_deleted = 0 GROUP BY n.id ORDER BY n.updated_at DESC];
    notes of equal [updated_at] come by id. *)
Definition select_all_notes (t : Tables) : list NoteResult :=
  order_by by_updated_desc
    (order_by by_id
       (grouped_notes
          (filter (fun j => negb (NoteRow.is_deleted (join_note j)))
                  (with_tag_names (notes t) t)))).

(** The statement of [get_notes_by_tag]: the inner joins pick the notes
    linked to a tag called [tag], the left joins collect all their tags;
    notes of equal [updated_at] come by id, largest first. *)
Definition select_notes_by_tag (tag : string) (t : Tables)
  : list NoteResult :=
  let linked :=
    inner_join (fun row tg => NoteTag.tag_id (snd row) =? TagRow.id tg)
               (inner_join on_note_link (notes t) (note_tags t)) (tags t) in
  let hits :=
    filter (fun row => String.eqb (TagRow.name (snd row)) tag
                       && negb (NoteRow.is_deleted (fst (fst row))))
           linked in
  order_by by_updated_desc
    (order_by by_id_desc
       (grouped_notes
          (with_tag_names (map (fun row => fst (fst row)) hits) t))).

(** [INSERT INTO notes ... ON CONFLICT(id) DO UPDATE SET path, title,
    hash, updated_at, is_deleted]; [path] is UNIQUE as well, and a clash
    with another note's path fails the statement. *)
Definition insert_or_update_note (m : NoteMetadata.t) (t : Tables)
  : result Tables :=
  let same r := String.eqb (NoteRow.id r) (NoteMetadata.id m) in
  let clash r :=
    negb (same r) && String.eqb (NoteRow.path r) (NoteMetadata.path m) in
  if existsb clash (notes t)
  then Err "UNIQUE constraint failed: notes.path"
  else if existsb same (notes t)
  then Ok (with_notes
             (map (fun r =>
                     if same r
                     then NoteRow.mk (NoteRow.id r) (NoteMetadata.path m)
                                     (NoteMetadata.title m)
                                     (NoteMetadata.hash m)
                                     (NoteRow.created_at r)
                                     (NoteMetadata.updated_at m)
                                     (NoteMetadata.is_deleted m)
                     else r)
                  (notes t)) t)
  else Ok (with_notes
             (notes t
              ++ [NoteRow.mk (NoteMetadata.id m) (NoteMetadata.path m)
                             (NoteMetadata.title m) (NoteMetadata.hash m)
                             (NoteMetadata.created_at m)
                             (NoteMetadata.updated_at m)
                             (NoteMetadata.is_deleted m)]) t).

(** [UPDATE notes SET is_deleted = 1, updated_at = ? WHERE id = ?] *)
Definition update_note_deleted (now : Z) (id : string) (t : Tables)
  : Tables :=
  with_notes
    (map (fun r =>
            if String.eqb (NoteRow.id r) id
            then NoteRow.mk (NoteRow.id r) (NoteRow.path r) (NoteRow.title r)
                            (NoteRow.hash r) (NoteRow.created_at r) now true
            else r)
         (notes t)) t.

(** [DELETE FROM note_tags WHERE note_id = ?] *)
Definition delete_note_tags (note_id : string) (t : Tables) : Tables :=
  with_note_tags
    (filter (fun nt => negb (String.eqb (NoteTag.note_id nt) note_id))
            (note_tags t)) t.

(** [INSERT OR IGNORE INTO tags (name) VALUES (?)]; the id is the next
    AUTOINCREMENT value. *)
Definition insert_tag_or_ignore (name : string) (t : Tables) : Tables :=
  if existsb (fun r => String.eqb (TagRow.name r) name) (tags t)
  then t
  else
    let next :=
      fold_right Z.max (tags_seq t) (map TagRow.id (tags t)) + 1 in
    with_tags (tags t ++ [TagRow.mk next name]) next t.

(** [SELECT id FROM tags WHERE name = ?] *)
Definition select_tag_id (name : string) (t : Tables) : option Z :=
  option_map TagRow.id
    (find (fun r => String.eqb (TagRow.name r) name) (tags t)).

(** [INSERT OR IGNORE INTO note_tags (note_id, tag_id) VALUES (?, ?)] *)
Definition insert_link_or_ignore (note_id : string) (tag_id : Z) (t : Tables)
  : Tables :=
  if existsb (fun nt => String.eqb (NoteTag.note_id nt) note_id
                        && (NoteTag.tag_id nt =? tag_id))
             (note_tags t)
  then t
  else with_note_tags (note_tags t ++ [NoteTag.mk note_id tag_id]) t.

(** [DELETE FROM notes_fts WHERE note_id = ?] *)
Definition delete_fts (note_id : string) (t : Tables) : Tables :=
  with_notes_fts
    (filter (fun r => negb (String.eqb (FtsRow.note_id r) note_id))
            (notes_fts t)) t.

(** [INSERT INTO notes_fts (note_id, title, content) VALUES (?, ?, ?)] *)
Definition insert_fts (note_id title content : string) (t : Tables)
  : Tables :=
  with_notes_fts (notes_fts t ++ [FtsRow.mk note_id title content]) t.

(** A row of
    [tags t LEFT JOIN note_tags nt ON t.id = nt.tag_id
            LEFT JOIN notes n ON nt.note_id = n.id AND n.is_deleted = 0]. *)
Definition TagJoin : Type := TagRow.t * option NoteTag.t * option NoteRow.t.

Definition tag_join (t : Tables) : list TagJoin :=
  left_join
    (fun (row : TagRow.t * option NoteTag.t) (n : NoteRow.t) =>
       match snd row with
       | Some nt => String.eqb (NoteTag.note_id nt) (NoteRow.id n)
                    && negb (NoteRow.is_deleted n)
       | None => false
       end)
    (left_join (fun tg nt => TagRow.id tg =? NoteTag.tag_id nt)
               (tags t) (note_tags t))
    (notes t).

(** [COUNT(nt.note_id)]: the rows of the group whose [nt.note_id] is not
    NULL. *)
Definition count_note_id (rows : list TagJoin) : Z :=
  Z.of_nat
    (List.length
       (filter (fun row => match snd (fst row) with
                           | Some _ => true
                           | None => false
                           end) rows)).

(** [ORDER BY count DESC, t.name] *)
Definition by_count_desc_name (a b : TagInfo.t) : bool :=
  (TagInfo.count b <? TagInfo.count a)
  || ((TagInfo.count a =? TagInfo.count b)
      && String.leb (TagInfo.name a) (TagInfo.name b)).

(** The statement of [get_all_tags]:
    [SELECT t.name, COUNT(nt.note_id) as count ... GROUP BY t.id
     HAVING count > 0 ORDER BY count DESC, t.name]. *)
Definition select_all_tags (t : Tables) : list TagInfo.t :=
  order_by by_count_desc_name
    (filter (fun i => 0 <? TagInfo.count i)
       (flat_map (fun g =>
                    match snd g with
                    | [] => []
                    | row :: _ =>
                        [TagInfo.mk (TagRow.name (fst (fst row)))
                                    (count_note_id (snd g))]
                    end)
                 (group_by Z.eqb (fun row : TagJoin => TagRow.id (fst (fst row)))
                           (tag_join t)))).

(** The statement of [search_notes]:
    [FROM notes n JOIN notes_fts fts ON n.id = fts.note_id ...
     WHERE notes_fts MATCH ? AND n.is_deleted = 0
     GROUP BY n.id ORDER BY rank]. *)
Definition select_search `{Fts5} (query : string) (t : Tables)
  : result (list NoteResult) :=
  match fts5_match query (notes_fts t) with
  | Err e => Err e
  | Ok hits =>
      let joined :=
        flat_map (fun f =>
                    filter (fun n =>
                              String.eqb (NoteRow.id n) (FtsRow.note_id f)
                              && negb (NoteRow.is_deleted n))
                           (notes t))
                 hits in
      Ok (grouped_notes (with_tag_names joined t))
  end.

End Sql.

(* ================================================================== *)
(** ** MetadataStore *)

Module MetadataStore.
Section Ops.
Context {F : Type}.

Definition get_file (path : string)
  : M F (result (option FileMetadata.t)) :=
  try stmt <- prepare ;;
  try row <- fetch (Sql.select_file path) ;;
  ret (Ok row).

Definition get_all_files (since : option Timestamp)
  : M F (result (list FileMetadata.t)) :=
  try stmt <- prepare ;;
  try rows <- fetch (Sql.select_files since) ;;
  ret (Ok rows).

Definition upsert_file (meta : FileMetadata.t) : M F (result unit) :=
  try stmt <- prepare ;;
  try r <- execute (UpsertFile meta)
                   (fun t => Ok (Sql.insert_or_update_file meta t)) ;;
  ret (Ok tt).

Definition mark_deleted (path : string) : M F (result unit) :=
  now <- now_ms ;;
  try stmt <- prepare ;;
  try r <- execute (MarkDeleted path now)
                   (fun t => Ok (Sql.update_file_deleted now path t)) ;;
  ret (Ok tt).

Definition store_token (token : string) (expires_at : Z)
  : M F (result unit) :=
  ms <- now_ms ;;
  let now := Z.quot ms 1000 in
  try stmt <- prepare ;;
  try r <- execute (InsertToken token)
                   (Sql.insert_token token now expires_at) ;;
  ret (Ok tt).

Definition validate_token (token : string) : M F (result bool) :=
  ms <- now_ms ;;
  let now := Z.quot ms 1000 in
  try stmt <- prepare ;;
  try row <- fetch (Sql.select_live_token token now) ;;
  match row with
  | None => ret (Ok false)
  | Some _ =>
      (* Update last_used *)
      update <- prepare ;;
      match update with
      | Ok _ =>
          execute (TouchToken token now)
                  (fun t => Ok (Sql.update_last_used now token t)) ;;;
          ret (Ok true)
      | Err _ => ret (Ok true)
      end
  end.

Definition cleanup_expired_tokens : M F (result unit) :=
  ms <- now_ms ;;
  let now := Z.quot ms 1000 in
  try stmt <- prepare ;;
  execute (SweepTokens now)
          (fun t => Ok (Sql.delete_expired_tokens now t)) ;;;
  ret (Ok tt).

Definition store_challenge (challenge public_key : string) (expires_at : Z)
  : M F (result unit) :=
  try stmt <- prepare ;;
  try r <- execute (InsertChallenge challenge)
                   (Sql.insert_challenge challenge public_key expires_at) ;;
  ret (Ok tt).

Definition validate_challenge (challenge public_key : string)
  : M F (result bool) :=
  ms <- now_ms ;;
  let now := Z.quot ms 1000 in
  try stmt <- prepare ;;
  try row <- fetch (Sql.select_live_challenge challenge public_key now) ;;
  match row with
  | None => ret (Ok false)
  | Some _ =>
      (* Consume the challenge (one-time use) *)
      del <- prepare ;;
      match del with
      | Ok _ =>
          execute (DeleteChallenge challenge)
                  (fun t => Ok (Sql.delete_challenge challenge t)) ;;;
          ret (Ok true)
      | Err _ => ret (Ok true)
      end
  end.

(** [std::getline(iss, tag, ',')] until the stream fails: a piece ends
    at each comma; what follows the last comma is a piece only when it
    is not empty. *)
Fixpoint getline_pieces (s : string) (piece : string) : list string :=
  match s with
  | EmptyString =>
      match piece with
      | EmptyString => []
      | _ => [piece]
      end
  | String c rest =>
      if Ascii.eqb c ","%char
      then piece :: getline_pieces rest EmptyString
      else getline_pieces rest (piece ++ String c EmptyString)
  end.

(** Parse tags *)
Definition parse_tags (tags_opt : option string) : list string :=
  match tags_opt with
  | Some s =>
      match s with
      | EmptyString => []
      | _ => getline_pieces s EmptyString
      end
  | None => []
  end.

(** The row-to-record loop of [get_note] and [get_all_notes]. *)
Definition note_of_row (row : Sql.NoteResult) : NoteMetadata.t :=
  let n := fst row in
  NoteMetadata.mk (NoteRow.id n) (NoteRow.path n) (NoteRow.title n)
                  (parse_tags (snd row)) (NoteRow.hash n)
                  (NoteRow.created_at n) (NoteRow.updated_at n)
                  (NoteRow.is_deleted n).

(** The same loop in [get_notes_by_tag] and [search_notes], which set
    [is_deleted = false]. *)
Definition live_note_of_row (row : Sql.NoteResult) : NoteMetadata.t :=
  let n := fst row in
  NoteMetadata.mk (NoteRow.id n) (NoteRow.path n) (NoteRow.title n)
                  (parse_tags (snd row)) (NoteRow.hash n)
                  (NoteRow.created_at n) (NoteRow.updated_at n)
                  false.

Definition get_note (id : string) : M F (result (option NoteMetadata.t)) :=
  try stmt <- prepare ;;
  try row <- fetch (Sql.select_note id) ;;
  ret (Ok (option_map note_of_row row)).

Definition get_note_by_path (path : string)
  : M F (result (option NoteMetadata.t)) :=
  try stmt <- prepare ;;
  try row <- fetch (Sql.select_note_id_by_path path) ;;
  match row with
  | None => ret (Ok None)
  | Some id => get_note id
  end.

Definition get_all_notes : M F (result (list NoteMetadata.t)) :=
  try rows <- query Sql.select_all_notes ;;
  ret (Ok (map note_of_row rows)).

Definition get_notes_by_tag (tag : string)
  : M F (result (list NoteMetadata.t)) :=
  try stmt <- prepare ;;
  try rows <- fetch (Sql.select_notes_by_tag tag) ;;
  ret (Ok (map live_note_of_row rows)).

Definition search_notes `{Fts5} (q : string)
  : M F (result (list NoteMetadata.t)) :=
  try stmt <- prepare ;;
  try rows <- fetch_checked (Sql.select_search q) ;;
  ret (Ok (map live_note_of_row rows)).

(** The loop body of [set_note_tags], for one tag. *)
Definition link_tag (note_id tag : string) : M F unit :=
  (* Ensure tag exists *)
  insert_tag <- prepare ;;
  match insert_tag with
  | Ok _ =>
      execute (InsertTag tag)
              (fun t => Ok (Sql.insert_tag_or_ignore tag t)) ;;;
      ret tt
  | Err _ => ret tt
  end ;;;
  (* Get tag ID *)
  get_tag <- prepare ;;
  match get_tag with
  | Err _ => ret tt
  | Ok _ =>
      tag_row <- fetch (Sql.select_tag_id tag) ;;
      match tag_row with
      | Ok (Some tag_id) =>
          (* Link note to tag *)
          link <- prepare ;;
          match link with
          | Ok _ =>
              execute (LinkNoteTag note_id tag_id)
                      (fun t =>
                         Ok (Sql.insert_link_or_ignore note_id tag_id t)) ;;;
              ret tt
          | Err _ => ret tt
          end
      | _ => ret tt
      end
  end.

Fixpoint link_tags (note_id : string) (tags : list string) : M F unit :=
  match tags with
  | [] => ret tt
  | tag :: rest => link_tag note_id tag ;;; link_tags note_id rest
  end.

Definition set_note_tags (note_id : string) (tags : list string)
  : M F (result unit) :=
  (* Remove existing tags *)
  try del_stmt <- prepare ;;
  execute (ClearNoteTags note_id)
          (fun t => Ok (Sql.delete_note_tags note_id t)) ;;;
  (* Add new tags *)
  link_tags note_id tags ;;;
  ret (Ok tt).

Definition upsert_note (meta : NoteMetadata.t) : M F (result unit) :=
  try stmt <- prepare ;;
  try r <- execute (UpsertNote meta) (Sql.insert_or_update_note meta) ;;
  (* Update tags *)
  try tag_result <- set_note_tags (NoteMetadata.id meta)
                                  (NoteMetadata.tags meta) ;;
  ret (Ok tt).

Definition remove_fts (note_id : string) : M F (result unit) :=
  try stmt <- prepare ;;
  execute (DeleteFts note_id) (fun t => Ok (Sql.delete_fts note_id t)) ;;;
  ret (Ok tt).

Definition update_fts (note_id title content : string)
  : M F (result unit) :=
  (* Remove existing entry *)
  try res <- remove_fts note_id ;;
  (* Insert new entry *)
  try stmt <- prepare ;;
  try r <- execute (InsertFts note_id)
                   (fun t => Ok (Sql.insert_fts note_id title content t)) ;;
  ret (Ok tt).

Definition delete_note (id : string) : M F (result unit) :=
  now <- now_ms ;;
  try stmt <- prepare ;;
  try r <- execute (TombstoneNote id now)
                   (fun t => Ok (Sql.update_note_deleted now id t)) ;;
  (* Remove from FTS *)
  try res <- remove_fts id ;;
  ret (Ok tt).

Definition get_all_tags : M F (result (list TagInfo.t)) :=
  try rows <- query Sql.select_all_tags ;;
  ret (Ok rows).
End Ops.
End MetadataStore.

(* ================================================================== *)
(** ** Helpers of sap_sync, a collaborator *)

Class SyncLib := {
  PublicKey : Type;
  hash_bytes : list byte -> string;
  parse_public_key : string -> result PublicKey;
  verify_signature : PublicKey -> string -> string -> result bool;
  is_key_authorized : list string -> string -> bool;
  generate_preview : string -> string
}.

(** [fs::Filesystem::list_recursive()], the call the repair scan adds to
    the content store's interface. *)
Class FilesystemWalk (F : Type) := {
  fs_list_recursive : F -> result (list string) * F
}.

(* ================================================================== *)
(** ** FileService *)

Module FileService.
Section Ops.
Context {F : Type} `{Filesystem F} `{SyncLib}.

Definition get_file (path : string) : M F (result (list byte)) :=
  try meta <- MetadataStore.get_file path ;;
  match meta with
  | None => ret (Err "File not found")
  | Some m =>
      if FileMetadata.is_deleted m
      then ret (Err "File not found")
      else Fs.read path
  end.

Definition get_metadata (path : string)
  : M F (result (option FileMetadata.t)) :=
  MetadataStore.get_file path.

(** Build metadata from filesystem *)
Definition build_metadata (path : string) (content : list byte)
  : M F (result FileMetadata.t) :=
  mtime_result <- Fs.mtime path ;;
  mtime <- match mtime_result with
           | Ok v => ret v
           | Err _ => now_ms
           end ;;
  created_at <- now_ms ;;
  updated_at <- now_ms ;;
  ret (Ok (FileMetadata.mk path (hash_bytes content)
                           (Z.of_nat (List.length content))
                           mtime created_at updated_at false)).

Definition put_file (path : string) (content : list byte)
           (client_mtime : option Timestamp)
  : M F (result FileMetadata.t) :=
  (* Check if file exists (for created_at) *)
  existing_result <- MetadataStore.get_file path ;;
  now <- now_ms ;;
  let created_at :=
    match existing_result with
    | Ok (Some e) => FileMetadata.created_at e
    | _ => now
    end in
  (* Write to filesystem *)
  try written <- Fs.write path content ;;
  (* Set mtime if provided *)
  try res <- match client_mtime with
             | Some t => Fs.set_mtime path t
             | None => ret (Ok tt)
             end ;;
  (* Build and store metadata *)
  try built <- build_metadata path content ;;
  let meta :=
    FileMetadata.mk (FileMetadata.path built) (FileMetadata.hash built)
                    (FileMetadata.size built)
                    match client_mtime with
                    | Some t => t
                    | None => FileMetadata.mtime built
                    end
                    created_at
                    (FileMetadata.updated_at built)
                    (FileMetadata.is_deleted built) in
  try stored <- MetadataStore.upsert_file meta ;;
  log Debug "Stored file: {} ({} bytes)"
      [LStr path; LNum (Z.of_nat (List.length content))] ;;;
  ret (Ok meta).

Definition delete_file (path : string) : M F (result unit) :=
  (* Remove from filesystem *)
  remove_result <- Fs.remove path ;;
  match remove_result with
  | Err e => log Warn "Failed to remove file from filesystem: {}" [LStr e]
  | Ok _ => ret tt
  end ;;;
  (* Mark as deleted in metadata (for sync) *)
  try marked <- MetadataStore.mark_deleted path ;;
  log Debug "Deleted file: {}" [LStr path] ;;;
  ret (Ok tt).

Definition list_files : M F (result (list FileMetadata.t)) :=
  MetadataStore.get_all_files None.

Definition get_changed_since (since : Timestamp)
  : M F (result (list FileMetadata.t)) :=
  MetadataStore.get_all_files (Some since).
End Ops.

Section Scan.
Context {F : Type} `{Filesystem F} `{FilesystemWalk F} `{SyncLib}.

(** The loop of [scan_and_index]; [indexed] is the [size_t] counter. *)
Fixpoint index_paths (paths : list string) (indexed : Z) : M F Z :=
  match paths with
  | [] => ret indexed
  | path :: rest =>
      content_result <- Fs.read path ;;
      match content_result with
      | Err _ =>
          log Warn "Failed to read file for indexing: {}" [LStr path] ;;;
          index_paths rest indexed
      | Ok content =>
          meta_result <- build_metadata path content ;;
          match meta_result with
          | Err _ =>
              log Warn "Failed to build metadata for: {}" [LStr path] ;;;
              index_paths rest indexed
          | Ok meta =>
              store_result <- MetadataStore.upsert_file meta ;;
              match store_result with
              | Err _ =>
                  log Warn "Failed to store metadata for: {}" [LStr path] ;;;
                  index_paths rest indexed
              | Ok _ => index_paths rest (size_add indexed 1)
              end
          end
      end
  end.

Definition scan_and_index : M F (result Z) :=
  try files <- Fs.lift fs_list_recursive ;;
  indexed <- index_paths files 0 ;;
  log Info "Indexed {} files" [LNum indexed] ;;;
  ret (Ok indexed).
End Scan.
End FileService.

(* ================================================================== *)
(** ** NoteService *)

Module ListOptions.
Record t := mk {
  tag : option string;
  search : option string;
  limit : Z;
  offset : Z
}.
(** The member initialisers: [limit = 50], [offset = 0]. *)
Definition default : t := mk None None 50 0.
End ListOptions.

(** The note documents of sap_sync that the service passes on. *)
Module NoteResponse.
Record t := mk {
  id : string;
  title : string;
  content : string;
  tags : list string;
  created_at : Timestamp;
  updated_at : Timestamp
}.
End NoteResponse.

Module NoteCreateRequest.
Record t := mk { title : string; content : string; tags : list string }.
End NoteCreateRequest.

Module NoteUpdateRequest.
Record t := mk {
  title : option string;
  content : option string;
  tags : option (list string)
}.
End NoteUpdateRequest.

(** The note format of sap_sync, a collaborator: [sync::ParsedNote] with
    the three members the service reads and writes, the parser, the
    serialiser and the content hash.  Nothing is assumed about them. *)
Class NoteFormat := {
  ParsedNote : Type;
  blank_note : ParsedNote;
  parsed_title : ParsedNote -> string;
  parsed_tags : ParsedNote -> list string;
  parsed_content : ParsedNote -> string;
  set_title : string -> ParsedNote -> ParsedNote;
  set_tags : list string -> ParsedNote -> ParsedNote;
  set_content : string -> ParsedNote -> ParsedNote;
  parse_note : string -> result ParsedNote;
  serialize_note : ParsedNote -> string;
  hash_string : string -> string
}.

Module NoteService.
Section Ops.
Context {F : Type} `{Filesystem F} `{SyncLib} `{Fts5}.

Definition note_path (id : string) : string := id ++ ".md".

Definition to_list_item (meta : NoteMetadata.t) (content : string)
  : NoteListItem.t :=
  NoteListItem.mk (NoteMetadata.id meta) (NoteMetadata.title meta)
                  (NoteMetadata.tags meta) (NoteMetadata.updated_at meta)
                  (generate_preview content).

Definition delete_note (id : string) : M F (result unit) :=
  try meta <- MetadataStore.get_note id ;;
  match meta with
  | None => ret (Err "Note not found")
  | Some m =>
      (* Remove from filesystem *)
      try removed <- Fs.remove (NoteMetadata.path m) ;;
      (* Mark as deleted *)
      try deleted <- MetadataStore.delete_note id ;;
      log Debug "Deleted note: {}" [LStr id] ;;;
      ret (Ok tt)
  end.

(** [notes[start .. end)], the elements the pagination loop visits. *)
Definition slice {A} (start stop : Z) (l : list A) : list A :=
  if start <? stop
  then firstn (Z.to_nat (stop - start)) (skipn (Z.to_nat start) l)
  else [].

(** The loop body: load content for preview. *)
Fixpoint load_items (page : list NoteMetadata.t)
  : M F (list NoteListItem.t) :=
  match page with
  | [] => ret []
  | meta :: rest =>
      content_result <- Fs.read_string (NoteMetadata.path meta) ;;
      let content :=
        match content_result with
        | Ok s => s
        | Err _ => EmptyString
        end in
      items <- load_items rest ;;
      ret (to_list_item meta content :: items)
  end.

Definition list_notes (options : ListOptions.t)
  : M F (result NoteListResponse.t) :=
  try notes <- match ListOptions.search options with
               | Some q => MetadataStore.search_notes q
               | None =>
                   match ListOptions.tag options with
                   | Some tag => MetadataStore.get_notes_by_tag tag
                   | None => MetadataStore.get_all_notes
                   end
               end ;;
  let total := Z.of_nat (List.length notes) in
  (* Apply pagination *)
  let start := to_size_t (ListOptions.offset options) in
  let stop :=
    Z.min (size_add start (to_size_t (ListOptions.limit options)))
          (Z.of_nat (List.length notes)) in
  items <- load_items (slice start stop notes) ;;
  ret (Ok (NoteListResponse.mk items total)).

Definition get_tags : M F (result (list TagInfo.t)) :=
  try tags <- MetadataStore.get_all_tags ;;
  ret (Ok tags).

Definition get_notes_by_tag (tag : string)
  : M F (result NoteListResponse.t) :=
  list_notes (ListOptions.mk (Some tag) None 50 0).

Definition search_notes (q : string) : M F (result NoteListResponse.t) :=
  list_notes (ListOptions.mk None (Some q) 50 0).
End Ops.

Section Documents.
Context {F : Type} `{Filesystem F} `{FilesystemWalk F} `{SyncLib} `{Fts5}
        `{NoteFormat}.

(** [sync::generate_uuid()]: one draw of the random source. *)
Definition generate_uuid : M F string := random_string.

(** [std::optional::value_or] *)
Definition value_or {A} (o : option A) (d : A) : A :=
  match o with
  | Some v => v
  | None => d
  end.

Definition newline : string := String "010"%char EmptyString.

Definition load_note_response (meta : NoteMetadata.t)
  : M F (result NoteResponse.t) :=
  try content <- Fs.read_string (NoteMetadata.path meta) ;;
  match parse_note content with
  | Err e => ret (Err e)
  | Ok parsed =>
      ret (Ok (NoteResponse.mk (NoteMetadata.id meta)
                               (NoteMetadata.title meta)
                               (parsed_content parsed)
                               (NoteMetadata.tags meta)
                               (NoteMetadata.created_at meta)
                               (NoteMetadata.updated_at meta)))
  end.

Definition get_note (id : string) : M F (result (option NoteResponse.t)) :=
  try meta <- MetadataStore.get_note id ;;
  match meta with
  | None => ret (Ok None)
  | Some m =>
      if NoteMetadata.is_deleted m
      then ret (Ok None)
      else
        try resp <- load_note_response m ;;
        ret (Ok (Some resp))
  end.

Definition create_note (req : NoteCreateRequest.t)
  : M F (result NoteResponse.t) :=
  (* Generate new ID *)
  id <- generate_uuid ;;
  let path := note_path id in
  (* Build content with frontmatter *)
  let parsed :=
    set_content ("# " ++ NoteCreateRequest.title req ++ newline ++ newline
                       ++ NoteCreateRequest.content req)
                 (set_tags (NoteCreateRequest.tags req)
                            (set_title (NoteCreateRequest.title req)
                                        blank_note)) in
  let content := serialize_note parsed in
  (* Write to filesystem *)
  try written <- Fs.write path (list_byte_of_string content) ;;
  (* Create metadata *)
  now <- now_ms ;;
  let meta :=
    NoteMetadata.mk id path (NoteCreateRequest.title req)
                    (NoteCreateRequest.tags req) (hash_string content)
                    now now false in
  (* Store metadata *)
  try stored <- MetadataStore.upsert_note meta ;;
  (* Update FTS index *)
  try updated <- MetadataStore.update_fts id (NoteCreateRequest.title req)
                                          (NoteCreateRequest.content req) ;;
  log Debug "Created note: {} ({})"
      [LStr id; LStr (NoteCreateRequest.title req)] ;;;
  (* Build response *)
  ret (Ok (NoteResponse.mk id (NoteCreateRequest.title req)
                           (NoteCreateRequest.content req)
                           (NoteCreateRequest.tags req) now now)).

Definition update_note (id : string) (req : NoteUpdateRequest.t)
  : M F (result NoteResponse.t) :=
  (* Get existing note *)
  try existing_opt <- MetadataStore.get_note id ;;
  match existing_opt with
  | None => ret (Err "Note not found")
  | Some existing =>
      if NoteMetadata.is_deleted existing
      then ret (Err "Note not found")
      else
        (* Load current content *)
        try content <- Fs.read_string (NoteMetadata.path existing) ;;
        (* Parse existing content *)
        match parse_note content with
        | Err e => ret (Err e)
        | Ok parsed =>
            (* Apply updates *)
            let new_title :=
              value_or (NoteUpdateRequest.title req)
                       (NoteMetadata.title existing) in
            let new_tags :=
              value_or (NoteUpdateRequest.tags req)
                       (NoteMetadata.tags existing) in
            let new_content :=
              value_or (NoteUpdateRequest.content req)
                       (parsed_content parsed) in
            (* Rebuild content *)
            let serialized :=
              serialize_note
                (set_content new_content
                              (set_tags new_tags
                                         (set_title new_title parsed))) in
            (* Write to filesystem *)
            try written <- Fs.write (NoteMetadata.path existing)
                                    (list_byte_of_string serialized) ;;
            (* Update metadata *)
            now <- now_ms ;;
            let meta :=
              NoteMetadata.mk id (NoteMetadata.path existing) new_title
                              new_tags (hash_string serialized)
                              (NoteMetadata.created_at existing) now false in
            try stored <- MetadataStore.upsert_note meta ;;
            (* Update FTS *)
            try updated <- MetadataStore.update_fts id new_title
                                                    new_content ;;
            log Debug "Updated note: {} ({})" [LStr id; LStr new_title] ;;;
            (* Build response *)
            ret (Ok (NoteResponse.mk id new_title new_content new_tags
                                     (NoteMetadata.created_at existing)
                                     now))
        end
  end.

Definition get_metadata (id : string)
  : M F (result (option NoteMetadata.t)) :=
  MetadataStore.get_note id.

Definition get_all_metadata : M F (result (list NoteMetadata.t)) :=
  MetadataStore.get_all_notes.

(** The loop of [scan_and_index]; a failure of [update_fts] ends the
    scan with that error. *)
Fixpoint index_notes (paths : list string) (indexed : Z) : M F (result Z) :=
  match paths with
  | [] => ret (Ok indexed)
  | path :: rest =>
      (* Only process .md files *)
      if (String.length path <? 3)%nat
         || negb (String.eqb (substring (String.length path - 3) 3 path)
                             ".md")
      then index_notes rest indexed
      else
        content_result <- Fs.read_string path ;;
        match content_result with
        | Err _ =>
            log Warn "Failed to read note: {}" [LStr path] ;;;
            index_notes rest indexed
        | Ok content =>
            match parse_note content with
            | Err _ =>
                log Warn "Failed to parse note: {}" [LStr path] ;;;
                index_notes rest indexed
            | Ok parsed =>
                (* Extract ID from path (remove .md extension) *)
                let id := substring 0 (String.length path - 3) path in
                (* Check if already exists *)
                existing_result <- MetadataStore.get_note id ;;
                fresh <- now_ms ;;
                let created_at :=
                  match existing_result with
                  | Ok (Some e) => NoteMetadata.created_at e
                  | _ => fresh
                  end in
                (* Build metadata *)
                updated_at <- now_ms ;;
                let meta :=
                  NoteMetadata.mk id path (parsed_title parsed)
                                  (parsed_tags parsed) (hash_string content)
                                  created_at updated_at false in
                store_result <- MetadataStore.upsert_note meta ;;
                match store_result with
                | Err _ =>
                    log Warn "Failed to store note metadata: {}"
                        [LStr path] ;;;
                    index_notes rest indexed
                | Ok _ =>
                    (* Update FTS *)
                    update_result <-
                      MetadataStore.update_fts id (parsed_title parsed)
                                               (parsed_content parsed) ;;
                    match update_result with
                    | Err e => ret (Err e)
                    | Ok _ => index_notes rest (size_add indexed 1)
                    end
                end
            end
        end
  end.

Definition scan_and_index : M F (result Z) :=
  try files <- Fs.lift fs_list_recursive ;;
  try indexed <- index_notes files 0 ;;
  log Info "Indexed {} notes" [LNum indexed] ;;;
  ret (Ok indexed).
End Documents.
End NoteService.

(* ================================================================== *)
(** ** SyncService *)

Module SyncService.
Section Ops.
Context {F : Type} `{Filesystem F} `{SyncLib}.

Definition get_sync_state (since : option Timestamp)
  : M F (result SyncState.t) :=
  server_time <- now_ms ;;
  try files <- match since with
               | Some s => FileService.get_changed_since s
               | None => FileService.list_files
               end ;;
  ret (Ok (SyncState.mk server_time files)).
End Ops.
End SyncService.

(* ================================================================== *)
(** ** AuthManager *)

Module AuthConfig.
Record t := mk { challenge_expiry : Z; token_expiry : Z }.
End AuthConfig.

Module AuthManager.
(** The members the protocol reads: the configuration and the loaded
    key list. *)
Record t := mk {
  m_Config : AuthConfig.t;
  m_AuthorizedKeys : list string
}.

Section Ops.
Context {F : Type} `{SyncLib}.

Definition is_authorized (self : t) (public_key : string) : bool :=
  is_key_authorized (m_AuthorizedKeys self) public_key.

Definition create_challenge (self : t) (public_key : string)
  : M F (result AuthChallenge.t) :=
  (* Verify key is authorized *)
  if negb (is_authorized self public_key)
  then ret (Err "Key not authorized")
  else
    (* Parse key to verify format *)
    match parse_public_key public_key with
    | Err e => ret (Err ("Invalid public key format: " ++ e))
    | Ok _ =>
        challenge <- random_string ;;
        ms <- now_ms ;;
        let expires_at :=
          i64_add (Z.quot ms 1000)
                  (AuthConfig.challenge_expiry (m_Config self)) in
        try stored <- MetadataStore.store_challenge challenge public_key
                                                    expires_at ;;
        log Debug "Created challenge for key: {}..."
            [LStr (substring 0 30 public_key)] ;;;
        ret (Ok (AuthChallenge.mk challenge public_key expires_at))
    end.

Definition verify_challenge (self : t) (req : VerifyRequest.t)
  : M F (result AuthToken.t) :=
  (* Validate challenge exists and matches public key *)
  try valid <- MetadataStore.validate_challenge
                 (VerifyRequest.challenge req)
                 (VerifyRequest.public_key req) ;;
  if negb valid
  then ret (Err "Invalid or expired challenge")
  else
    (* Parse public key *)
    match parse_public_key (VerifyRequest.public_key req) with
    | Err _ => ret (Err "Invalid public key")
    | Ok key =>
        (* Verify signature *)
        match verify_signature key (VerifyRequest.challenge req)
                               (VerifyRequest.signature req) with
        | Err e => ret (Err e)
        | Ok false =>
            log Warn "Signature verification failed for key: {}..."
                [LStr (substring 0 30 (VerifyRequest.public_key req))] ;;;
            ret (Err "Signature verification failed")
        | Ok true =>
            (* Generate token *)
            token <- random_string ;;
            ms <- now_ms ;;
            let expires_at :=
              i64_add (Z.quot ms 1000)
                      (AuthConfig.token_expiry (m_Config self)) in
            (* Store token *)
            try stored <- MetadataStore.store_token token expires_at ;;
            log Info "Authenticated key: {}..."
                [LStr (substring 0 30 (VerifyRequest.public_key req))] ;;;
            ret (Ok (AuthToken.mk token expires_at))
        end
    end.

Definition validate_token (token : string) : M F (result bool) :=
  MetadataStore.validate_token token.

Definition cleanup_expired : M F (result unit) :=
  try r <- MetadataStore.cleanup_expired_tokens ;;
  ret (Ok tt).
End Ops.
End AuthManager.

(* ================================================================== *)
(** ** Server: what the route layer does before it calls a service *)

Module Server.

(** [s.substr(n)]: what follows the first [n] characters. *)
Definition substr_from (n : nat) (s : string) : string :=
  substring n (String.length s - n) s.

(** [extract_path_param(req, prefix)], on [req.url.path]. *)
Definition extract_path_param (path prefix : string) : string :=
  if (String.length prefix <? String.length path)%nat
     && String.eqb (substring 0 (String.length prefix) path) prefix
  then substr_from (String.length prefix) path
  else EmptyString.

Section Ops.
Context {F : Type}.

(** [authenticate(req)], on the value of the [Authorization] header
    (empty when the request has none). *)
Definition authenticate (auth_header : string) : M F (result unit) :=
  match auth_header with
  | EmptyString => ret (Err "Missing Authorization header")
  | _ =>
      (* Extract Bearer token *)
      let prefix := "Bearer " in
      if (String.length auth_header <=? String.length prefix)%nat
         || negb (String.eqb (substring 0 (String.length prefix) auth_header)
                             prefix)
      then ret (Err "Invalid Authorization header format")
      else
        let token := substr_from (String.length prefix) auth_header in
        try valid <- AuthManager.validate_token token ;;
        if negb valid
        then ret (Err "Invalid or expired token")
        else ret (Ok tt)
  end.
End Ops.
End Server.

(* ================================================================== *)
(** ** Call sequences *)

(** A client that calls [upsert_file] once per record, in order, and
    ignores the results (as the loop of [scan_and_index] does). *)
Fixpoint upsert_each {F} (metas : list FileMetadata.t) : M F unit :=
  match metas with
  | [] => ret tt
  | meta :: rest => MetadataStore.upsert_file meta ;;; upsert_each rest
  end.

(** What the store answers for [options]: the statement of
    [search_notes] when a search is given, else the one of
    [get_notes_by_tag] when a tag is given, else the one of
    [get_all_notes]. *)
Definition matching `{Fts5} (options : ListOptions.t) (t : Tables)
  : result (list NoteMetadata.t) :=
  match ListOptions.search options with
  | Some q =>
      match Sql.select_search q t with
      | Ok rows => Ok (map MetadataStore.live_note_of_row rows)
      | Err e => Err e
      end
  | None =>
      match ListOptions.tag options with
      | Some tag =>
          Ok (map MetadataStore.live_note_of_row
                  (Sql.select_notes_by_tag tag t))
      | None => Ok (map MetadataStore.note_of_row (Sql.select_all_notes t))
      end
  end.

(** [item] is the list entry of the note [meta], with some preview. *)
Definition item_of `{SyncLib} (meta : NoteMetadata.t) (item : NoteListItem.t)
  : Prop :=
  exists content, item = NoteListItem.mk (NoteMetadata.id meta)
                                         (NoteMetadata.title meta)
                                         (NoteMetadata.tags meta)
                                         (NoteMetadata.updated_at meta)
                                         (generate_preview content).





(* ================================================================== *)
(** ** A reference environment

    An in-memory content store and plain stand-ins for the helpers of
    sap_sync and for the search engine, to run the operations on concrete
    inputs. *)

Module Fixture.

(** Files by path with their modification time; the paths in [locked]
    refuse every change. *)
Record MemFs := mkMemFs {
  entries : list (string * (list byte * Timestamp));
  locked : list string
}.

Definition lookup (p : string) (s : MemFs)
  : option (list byte * Timestamp) :=
  option_map snd (find (fun e => String.eqb (fst e) p) (entries s)).

Definition is_locked (p : string) (s : MemFs) : bool :=
  existsb (String.eqb p) (locked s).

Definition drop (p : string) (s : MemFs)
  : list (string * (list byte * Timestamp)) :=
  filter (fun e => negb (String.eqb (fst e) p)) (entries s).

#[global] Instance mem_fs : Filesystem MemFs := {
  fs_read p s :=
    match lookup p s with
    | Some (c, _) => (Ok c, s)
    | None => (Err "File not found", s)
    end;
  fs_read_string p s :=
    match lookup p s with
    | Some (c, _) => (Ok (string_of_list_byte c), s)
    | None => (Err "File not found", s)
    end;
  fs_write p c s :=
    if is_locked p s
    then (Err "Permission denied", s)
    else (Ok tt, mkMemFs ((p, (c, 0)) :: drop p s) (locked s));
  fs_set_mtime p t s :=
    match lookup p s with
    | Some (c, _) =>
        if is_locked p s
        then (Err "Permission denied", s)
        else (Ok tt, mkMemFs ((p, (c, t)) :: drop p s) (locked s))
    | None => (Err "File not found", s)
    end;
  fs_mtime p s :=
    match lookup p s with
    | Some (_, t) => (Ok t, s)
    | None => (Err "File not found", s)
    end;
  fs_remove p s :=
    match lookup p s with
    | Some _ =>
        if is_locked p s
        then (Err "Permission denied", s)
        else (Ok tt, mkMemFs (drop p s) (locked s))
    | None => (Err "File not found", s)
    end
}.

#[global] Instance mem_walk : FilesystemWalk MemFs := {
  fs_list_recursive s := (Ok (map fst (entries s)), s)
}.

(** Keys are kept as text; a signature is the key followed by the
    challenge. *)
#[global] Instance toy_sync : SyncLib := {
  PublicKey := string;
  hash_bytes c := string_of_list_byte c;
  parse_public_key k :=
    if String.prefix "ssh-" k then Ok k else Err "unknown key type";
  verify_signature key challenge signature :=
    Ok (String.eqb signature (key ++ "/" ++ challenge));
  is_key_authorized keys k := existsb (String.eqb k) keys;
  generate_preview content := substring 0 100 content
}.

(** A row matches when the query occurs in its title or content. *)
#[global] Instance toy_fts : Fts5 := {
  fts5_match q rows :=
    Ok (filter (fun r =>
                  match index 0 q (FtsRow.title r),
                        index 0 q (FtsRow.content r) with
                  | None, None => false
                  | _, _ => true
                  end) rows)
}.

(** Notes kept as plain text: the file is the content. *)
#[global] Instance plain_notes : NoteFormat := {
  ParsedNote := string * list string * string;
  blank_note := (EmptyString, [], EmptyString);
  parsed_title p := fst (fst p);
  parsed_tags p := snd (fst p);
  parsed_content p := snd p;
  set_title v p := (v, snd (fst p), snd p);
  set_tags v p := (fst (fst p), v, snd p);
  set_content v p := (fst (fst p), snd (fst p), v);
  parse_note s := Ok (EmptyString, [], s);
  serialize_note p := snd p;
  hash_string s := s
}.

(** A world that starts at [start] ms, advances one second per clock
    reading, and whose connection never fails. *)
Definition world (tb : Tables) (fs : MemFs) (start : Z) : World MemFs :=
  mkWorld tb fs (fun n => start + 1000 * Z.of_nat n) 0
          (fun _ => None) 0
          (fun n => "nonce-" ++ String (ascii_of_nat (48 + n)) EmptyString)
          0
          [].

Definition empty_fs : MemFs := mkMemFs [] [].

Definition fresh : World MemFs := world empty_tables empty_fs 1000000.

(** The same with the connection failing at its [k]-th request. *)
Definition failing_at (k : nat) (w : World MemFs) : World MemFs :=
  mkWorld (tables w) (fsys w) (clock w) (ticks w)
          (fun n => if Nat.eqb n k then Some "disk I/O error" else None)
          (ops w) (entropy w) (draws w) (journal w).

(** Two indexed files, the second one a tombstone. *)
Definition two_files : Tables :=
  with_files
    [FileMetadata.mk "a.txt" "h1" 1 100 100 100 false;
     FileMetadata.mk "b.txt" "h2" 2 200 200 200 true]
    empty_tables.

(** A rewrite of ["a.txt"] that claims another creation time, and a later
    one that tombstones it. *)
Definition rewrite_a : FileMetadata.t :=
  FileMetadata.mk "a.txt" "h3" 7 300 999 300 false.

Definition rewrite_a_again : FileMetadata.t :=
  FileMetadata.mk "a.txt" "h4" 0 400 12345 400 true.

(** The bytes of ["hi"]. *)
Definition hi : list byte := [x68; x69].

(** A content store that refuses every change of ["ro.txt"]. *)
Definition locked_fs : MemFs := mkMemFs [] ["ro.txt"].

(** One live note tagged ["x"], as [upsert_note] leaves it, in a content
    store that has lost the note's file. *)
Definition note1 : NoteMetadata.t :=
  NoteMetadata.mk "n1" "n1.md" "T" ["x"] "h" 10 10 false.

Definition one_note : Tables :=
  mkTables [] [NoteRow.mk "n1" "n1.md" "T" "h" 10 10 false]
           [TagRow.mk 1 "x"] 1 [NoteTag.mk "n1" 1] [] [] [].

Definition note_world : World MemFs := world one_note empty_fs 5000.

(** A server with one authorised key, right after it issued a challenge
    for that key, and two answers to it: one with a wrong signature and
    one with the right one. *)
Definition key : string := "ssh-ed25519 AAAA".

Definition manager : AuthManager.t :=
  AuthManager.mk (AuthConfig.mk 300 3600) [key].

Definition issued : World MemFs :=
  snd (AuthManager.create_challenge manager key fresh).


Definition right_answer : VerifyRequest.t :=
  VerifyRequest.mk "nonce-0" key "ssh-ed25519 AAAA/nonce-0".

(** Four notes, the third one a tombstone; ["a"] and ["c"] carry the tag
    ["x"]. *)
Definition four_notes : Tables :=
  mkTables []
           [NoteRow.mk "a" "a.md" "A" "ha" 10 10 false;
            NoteRow.mk "b" "b.md" "B" "hb" 20 20 false;
            NoteRow.mk "gone" "gone.md" "G" "hg" 30 30 true;
            NoteRow.mk "c" "c.md" "C" "hc" 40 40 false]
           [TagRow.mk 1 "x"] 1
           [NoteTag.mk "a" 1; NoteTag.mk "c" 1; NoteTag.mk "gone" 1]
           [] [] [].

Definition second_page : ListOptions.t := ListOptions.mk None None 2 1.

(** A content store that still has the bytes of ["b.txt"] and holds a
    file the index has never seen. *)
Definition scan_fs : MemFs :=
  mkMemFs [("b.txt", (hi, 0)); ("new.txt", ([x31], 0))] [].

End Fixture.

(* ================================================================== *)
(** * Properties *)

(** ** Running statements on a healthy connection *)

Ltac unfold_primitives :=
  unfold query, prepare, fetch, fetch_checked, execute, request,
         read_tables, write_tables, now_ms, random_string, log, emit,
         bind, ret in *.

(** Run the requests of an operation when none of them fails. *)
Ltac run_healthy Hh :=
  unfold_primitives; repeat (progress (simpl; rewrite ?Hh)).

(** ** Sorting, joining and grouping *)

Section Relational.

Lemma insert_sorted_perm {A} (leb : A -> A -> bool) (x : A) (l : list A) :
  Permutation (Sql.insert_sorted leb x l) (x :: l).
Proof.
  induction l as [|y rest IH]; simpl; [apply Permutation_refl|].
  destruct (leb x y); [apply Permutation_refl|].
  apply perm_trans with (y :: x :: rest);
    [apply perm_skip; exact IH | apply perm_swap].
Qed.

(** [ORDER BY] only reorders. *)
Lemma order_by_perm {A} (leb : A -> A -> bool) (l : list A) :
  Permutation (Sql.order_by leb l) l.
Proof.
  unfold Sql.order_by. induction l as [|x rest IH]; simpl; [constructor|].
  eapply perm_trans; [apply insert_sorted_perm|].
  apply perm_skip. exact IH.
Qed.

Lemma In_order_by {A} (leb : A -> A -> bool) (l : list A) (x : A) :
  In x (Sql.order_by leb l) <-> In x l.
Proof.
  split; intros Hx.
  - exact (Permutation_in _ (order_by_perm _ _) Hx).
  - exact (Permutation_in _ (Permutation_sym (order_by_perm _ _)) Hx).
Qed.

Lemma insert_sorted_hd {A} (leb : A -> A -> bool) (y x : A) (l : list A) :
  leb y x = true ->
  HdRel (fun a b => leb a b = true) y l ->
  HdRel (fun a b => leb a b = true) y (Sql.insert_sorted leb x l).
Proof.
  intros Hyx Hhd. destruct l as [|z rest]; simpl.
  - constructor. exact Hyx.
  - inversion Hhd; subst. destruct (leb x z); constructor; assumption.
Qed.

Lemma insert_sorted_sorted {A} (leb : A -> A -> bool) (x : A) (l : list A) :
  (forall a b, leb a b = false -> leb b a = true) ->
  Sorted (fun a b => leb a b = true) l ->
  Sorted (fun a b => leb a b = true) (Sql.insert_sorted leb x l).
Proof.
  intros Htotal. induction l as [|y rest IH]; simpl; intros Hs.
  - constructor; constructor.
  - destruct (leb x y) eqn:E.
    + constructor; [exact Hs | constructor; exact E].
    + inversion Hs; subst. constructor; [apply IH; assumption|].
      apply insert_sorted_hd; [apply Htotal; exact E | assumption].
Qed.

(** [ORDER BY] with a total comparison leaves the rows in order. *)
Lemma order_by_sorted {A} (leb : A -> A -> bool) (l : list A) :
  (forall a b, leb a b = false -> leb b a = true) ->
  Sorted (fun a b => leb a b = true) (Sql.order_by leb l).
Proof.
  intros Htotal. unfold Sql.order_by.
  induction l as [|x rest IH]; simpl; [constructor|].
  apply insert_sorted_sorted; assumption.
Qed.

Lemma Sorted_map {A B} (f : A -> B) (R : A -> A -> Prop)
      (R' : B -> B -> Prop) (l : list A) :
  (forall a b, R a b -> R' (f a) (f b)) ->
  Sorted R l -> Sorted R' (map f l).
Proof.
  intros Hf. induction 1 as [|a l Hs IH Hhd]; simpl; constructor.
  - exact IH.
  - destruct Hhd; simpl; constructor. apply Hf. assumption.
Qed.

Lemma Sorted_middle {A} (R : A -> A -> Prop) (a s b : list A) :
  Sorted R (a ++ s ++ b) -> Sorted R s.
Proof.
  induction a as [|x a IH]; simpl.
  - induction s as [|y s IHs]; simpl; intros Hs; [constructor|].
    inversion Hs as [|? ? Hrest Hhd]; subst.
    constructor; [apply IHs; exact Hrest|].
    destruct s; simpl in *; [constructor|].
    inversion Hhd; subst. constructor. assumption.
  - intros Hs. inversion Hs; subst. apply IH. assumption.
Qed.

Lemma NoDup_middle {A} (a s b : list A) :
  NoDup (a ++ s ++ b) -> NoDup s.
Proof.
  intros Hnd. apply NoDup_app_remove_l in Hnd.
  apply NoDup_app_remove_r in Hnd. exact Hnd.
Qed.

(** The keys [GROUP BY] makes groups for are distinct keys of the rows. *)
Lemma distinct_from_spec (seen ks : list string) :
  NoDup (Sql.distinct_from String.eqb seen ks)
  /\ forall k, In k (Sql.distinct_from String.eqb seen ks) ->
               In k ks /\ ~ In k seen.
Proof.
  revert seen. induction ks as [|k rest IH]; intros seen; simpl.
  - split; [constructor | intros k []].
  - destruct (existsb (String.eqb k) seen) eqn:E.
    + destruct (IH seen) as [Hnd Hin]. split; [exact Hnd|].
      intros k' Hk'. destruct (Hin k' Hk'). auto.
    + destruct (IH (k :: seen)) as [Hnd Hin].
      assert (Hk : ~ In k seen).
      { intros Hk. apply not_true_iff_false in E. apply E.
        apply existsb_exists. exists k.
        split; [exact Hk | apply String.eqb_refl]. }
      split.
      * constructor; [|exact Hnd]. intros Hk'.
        destruct (Hin k Hk') as [_ Hn]. apply Hn. left. reflexivity.
      * intros k' [<-|Hk']; [split; [left; reflexivity | exact Hk]|].
        destruct (Hin k' Hk') as [H1 H2].
        split; [right; exact H1 | intros H3; apply H2; right; exact H3].
Qed.

Lemma left_join_In_fst {A B} (on : A -> B -> bool) (l : list A)
      (r : list B) (row : A * option B) :
  In row (Sql.left_join on l r) -> In (fst row) l.
Proof.
  unfold Sql.left_join. intros Hin. apply in_flat_map in Hin.
  destruct Hin as (a & Ha & Hrow).
  destruct (filter (on a) r) as [|b bs].
  - destruct Hrow as [<-|[]]. exact Ha.
  - apply in_map_iff in Hrow. destruct Hrow as (b' & <- & _). exact Ha.
Qed.

Lemma inner_join_In {A B} (on : A -> B -> bool) (l : list A)
      (r : list B) (row : A * B) :
  In row (Sql.inner_join on l r) ->
  In (fst row) l /\ In (snd row) r /\ on (fst row) (snd row) = true.
Proof.
  unfold Sql.inner_join. intros Hin. apply in_flat_map in Hin.
  destruct Hin as (a & Ha & Hrow).
  apply in_map_iff in Hrow. destruct Hrow as (b & <- & Hb).
  apply filter_In in Hb. destruct Hb as [Hb Hon]. simpl. auto.
Qed.

Lemma with_tag_names_note (ns : list NoteRow.t) (t : Tables)
      (j : Sql.NoteJoin) :
  In j (Sql.with_tag_names ns t) -> In (Sql.join_note j) ns.
Proof.
  unfold Sql.with_tag_names, Sql.join_note. intros Hin.
  apply left_join_In_fst in Hin. apply left_join_In_fst in Hin. exact Hin.
Qed.

(** Every output row of the grouping is headed by a joined row. *)
Lemma grouped_notes_from_rows (rows : list Sql.NoteJoin)
      (res : Sql.NoteResult) :
  In res (Sql.grouped_notes rows) ->
  exists j, In j rows /\ fst res = Sql.join_note j.
Proof.
  unfold Sql.grouped_notes, Sql.group_by. intros Hin.
  apply in_flat_map in Hin. destruct Hin as (g & Hg & Hres).
  apply in_map_iff in Hg. destruct Hg as (k & <- & _). simpl in Hres.
  destruct (filter (fun r => String.eqb (NoteRow.id (Sql.join_note r)) k)
                   rows) as [|j js] eqn:E; [destruct Hres|].
  destruct Hres as [<-|[]]. exists j. split; [|reflexivity].
  assert (Hj : In j (j :: js)) by (left; reflexivity).
  rewrite <- E in Hj. apply filter_In in Hj. tauto.
Qed.

(** [GROUP BY n.id]: one output row for each id. *)
Lemma grouped_notes_ids (rows : list Sql.NoteJoin) :
  NoDup (map (fun r : Sql.NoteResult => NoteRow.id (fst r))
             (Sql.grouped_notes rows)).
Proof.
  unfold Sql.grouped_notes, Sql.group_by.
  destruct (distinct_from_spec
              [] (map (fun j => NoteRow.id (Sql.join_note j)) rows))
    as [Hnd _].
  induction Hnd as [|k ks Hk Hnd IH]; simpl; [constructor|].
  rewrite map_app. 
  destruct (filter (fun r => String.eqb (NoteRow.id (Sql.join_note r)) k)
                   rows) as [|j js] eqn:E; simpl; [exact IH|].
  constructor; [|exact IH].
  assert (Hj : In j (j :: js)) by (left; reflexivity).
  rewrite <- E in Hj. apply filter_In in Hj. destruct Hj as [_ Hj].
  apply String.eqb_eq in Hj. rewrite Hj. clear E Hj j js IH.
  intros Hin. apply in_map_iff in Hin. destruct Hin as (res & Hid & Hres).
  apply in_flat_map in Hres. destruct Hres as (g & Hg & Hres).
  apply in_map_iff in Hg. destruct Hg as (k' & <- & Hk'). simpl in Hres.
  destruct (filter (fun r => String.eqb (NoteRow.id (Sql.join_note r)) k')
                   rows) as [|j js] eqn:E; [destruct Hres|].
  destruct Hres as [<-|[]]. simpl in Hid.
  assert (Hj : In j (j :: js)) by (left; reflexivity).
  rewrite <- E in Hj. apply filter_In in Hj. destruct Hj as [_ Hj].
  apply String.eqb_eq in Hj. apply Hk. congruence.
Qed.
End Relational.

(** ** Files *)

Section Files.
Context {F : Type} {FS : Filesystem F} {SL : SyncLib}.

Lemma get_all_files_healthy (w : World F) (since : option Timestamp) :
  healthy w ->
  MetadataStore.get_all_files since w
  = (Ok (Sql.select_files since (tables w)),
     mkWorld (tables w) (fsys w) (clock w) (ticks w) (fault w)
             (S (S (ops w))) (entropy w) (draws w) (journal w)).
Proof.
  intros Hh. unfold MetadataStore.get_all_files. run_healthy Hh.
  reflexivity.
Qed.

Lemma get_file_healthy (w : World F) (p : string) :
  healthy w ->
  MetadataStore.get_file p w
  = (Ok (Sql.select_file p (tables w)),
     mkWorld (tables w) (fsys w) (clock w) (ticks w) (fault w)
             (S (S (ops w))) (entropy w) (draws w) (journal w)).
Proof.
  intros Hh. unfold MetadataStore.get_file. run_healthy Hh.
  reflexivity.
Qed.

(** *** Delta sync *)

(** C3.  For every cursor [T] and every state of the index,
    [get_sync_state(T)] answers, and its [files] are exactly the rows of
    [files] whose [updated_at] is strictly greater than [T]: the same
    rows, each as often as the table has it, in the order the index on
    [updated_at] gives them, whatever their [is_deleted] flag, so a
    tombstone newer than [T] is always part of the delta.  The index itself is
    left as it was, and [server_time] is the clock reading taken at the
    call. *)
Theorem get_sync_state_since_exact (w : World F) (T : Timestamp) :
  healthy w ->
  exists st w',
    SyncService.get_sync_state (Some T) w = (Ok st, w')
    /\ tables w' = tables w
    /\ SyncState.server_time st = clock w (ticks w)
    /\ Permutation (SyncState.files st)
                   (filter (fun r => T <? FileMetadata.updated_at r)
                           (files (tables w)))
    /\ (forall r, In r (SyncState.files st)
                  <-> In r (files (tables w))
                      /\ T < FileMetadata.updated_at r)
    /\ (forall r, In r (files (tables w)) ->
                  FileMetadata.is_deleted r = true ->
                  T < FileMetadata.updated_at r ->
                  In r (SyncState.files st)).
Proof.
  intros Hh.
  unfold SyncService.get_sync_state, FileService.get_changed_since,
    MetadataStore.get_all_files.
  run_healthy Hh.
  eexists. eexists. split; [reflexivity|]. simpl.
  assert (Hin : forall r,
             In r (Sql.order_by
                     Sql.by_updated
                     (filter (fun r => T <? FileMetadata.updated_at r)
                             (files (tables w))))
             <-> In r (files (tables w))
                 /\ T < FileMetadata.updated_at r).
  { intros r. split; intros Hr.
    - apply (Permutation_in _ (order_by_perm _ _)) in Hr.
      apply filter_In in Hr. rewrite Z.ltb_lt in Hr. exact Hr.
    - apply (Permutation_in _ (Permutation_sym (order_by_perm _ _))).
      apply filter_In. rewrite Z.ltb_lt. exact Hr. }
  split; [reflexivity|]. split; [reflexivity|].
  split; [apply order_by_perm|].
  split; [exact Hin|].
  intros r Hr _ Hlt. apply Hin. split; assumption.
Qed.
End Files.

(** The witness for C3: of the two rows only the tombstone is newer
    than the cursor, and it is the delta. *)

Lemma get_sync_state_since_exact_witness :
  healthy (Fixture.world Fixture.two_files Fixture.empty_fs 5000)
  /\ exists st w',
      SyncService.get_sync_state (Some 150)
        (Fixture.world Fixture.two_files Fixture.empty_fs 5000)
      = (Ok st, w')
      /\ Permutation (SyncState.files st)
                     [FileMetadata.mk "b.txt" "h2" 2 200 200 200 true].
Proof.
  assert (Hh : healthy (Fixture.world Fixture.two_files Fixture.empty_fs 5000))
    by (intro n; reflexivity).
  split; [exact Hh|].
  destruct (get_sync_state_since_exact
              (Fixture.world Fixture.two_files Fixture.empty_fs 5000) 150 Hh)
    as (st & w' & Hrun & _ & _ & Hfiles & _).
  exists st, w'. split; [exact Hrun | exact Hfiles].
Defined.

(** ** Upserts keep the creation time *)

Section Upsert.
Context {F : Type}.

Lemma select_file_after_upsert_same (meta old : FileMetadata.t) (t : Tables) :
  Sql.select_file (FileMetadata.path meta) t = Some old ->
  Sql.select_file (FileMetadata.path meta) (Sql.insert_or_update_file meta t)
  = Some (Sql.file_conflict_update meta old).
Proof.
  unfold Sql.select_file, Sql.insert_or_update_file.
  intros Hfind.
  assert (Hex : existsb (fun r => String.eqb (FileMetadata.path r)
                                             (FileMetadata.path meta))
                        (files t) = true).
  { apply existsb_exists. exists old. apply find_some in Hfind. exact Hfind. }
  rewrite Hex. simpl.
  induction (files t) as [|r rs IH]; simpl in *; [discriminate|].
  destruct (String.eqb (FileMetadata.path r) (FileMetadata.path meta)) eqn:E.
  - inversion Hfind; subst. simpl. rewrite E. reflexivity.
  - simpl. rewrite E. simpl in Hex. apply IH; assumption.
Qed.

(** A record that agrees with the row on [created_at] replaces it. *)
Lemma select_file_after_upsert_existing (meta old : FileMetadata.t)
      (t : Tables) :
  Sql.select_file (FileMetadata.path meta) t = Some old ->
  FileMetadata.created_at meta = FileMetadata.created_at old ->
  Sql.select_file (FileMetadata.path meta) (Sql.insert_or_update_file meta t)
  = Some meta.
Proof.
  intros Hold Hc. rewrite (select_file_after_upsert_same meta old t Hold).
  unfold Sql.file_conflict_update. rewrite <- Hc.
  unfold Sql.select_file in Hold. apply find_some in Hold.
  destruct Hold as [_ Hp]. apply String.eqb_eq in Hp. rewrite Hp.
  destruct meta; reflexivity.
Qed.

Lemma select_file_after_upsert_other (meta : FileMetadata.t) (p : string)
      (t : Tables) :
  String.eqb (FileMetadata.path meta) p = false ->
  Sql.select_file p (Sql.insert_or_update_file meta t) = Sql.select_file p t.
Proof.
  unfold Sql.select_file, Sql.insert_or_update_file. intros Hne.
  destruct (existsb _ (files t)); simpl.
  - induction (files t) as [|r rs IH]; simpl; [reflexivity|].
    destruct (String.eqb (FileMetadata.path r) (FileMetadata.path meta))
      eqn:E; simpl.
    + apply String.eqb_eq in E. rewrite E, Hne. exact IH.
    + destruct (String.eqb (FileMetadata.path r) p); [reflexivity|exact IH].
  - induction (files t) as [|r rs IH]; simpl.
    + rewrite Hne. reflexivity.
    + destruct (String.eqb (FileMetadata.path r) p); [reflexivity|exact IH].
Qed.

(** What a call of [upsert_file] leaves in the index: the statement's
    effect when it ran, nothing otherwise. *)
Lemma upsert_file_tables (meta : FileMetadata.t) (w : World F) :
  let (r, w') := MetadataStore.upsert_file meta w in
  (r = Ok tt /\ tables w' = Sql.insert_or_update_file meta (tables w))
  \/ (exists e, r = Err e /\ tables w' = tables w).
Proof.
  unfold MetadataStore.upsert_file. unfold_primitives. simpl.
  destruct (fault w (ops w)); simpl.
  - right. eexists. split; reflexivity.
  - destruct (fault w (S (ops w))); simpl.
    + right. eexists. split; reflexivity.
    + left. split; reflexivity.
Qed.
Lemma upsert_file_preserves_created_at (meta : FileMetadata.t) (p : string)
      (old : FileMetadata.t) (w : World F) :
  Sql.select_file p (tables w) = Some old ->
  exists r,
    Sql.select_file p (tables (snd (MetadataStore.upsert_file meta w)))
    = Some r
    /\ FileMetadata.created_at r = FileMetadata.created_at old.
Proof.
  intros Hold.
  pose proof (upsert_file_tables meta w) as Hrun.
  destruct (MetadataStore.upsert_file meta w) as [res w']. simpl.
  destruct Hrun as [[_ Ht] | (e & _ & Ht)]; rewrite Ht.
  - destruct (String.eqb (FileMetadata.path meta) p) eqn:E.
    + apply String.eqb_eq in E. subst p.
      rewrite (select_file_after_upsert_same meta old _ Hold).
      eexists. split; reflexivity.
    + rewrite (select_file_after_upsert_other meta p _ E).
      exists old. split; [assumption | reflexivity].
  - exists old. split; [assumption | reflexivity].
Qed.

Lemma upsert_each_preserves_created_at (metas : list FileMetadata.t)
      (p : string) :
  forall (old : FileMetadata.t) (w : World F),
    Sql.select_file p (tables w) = Some old ->
    exists r,
      Sql.select_file p (tables (snd (upsert_each metas w))) = Some r
      /\ FileMetadata.created_at r = FileMetadata.created_at old.
Proof.
  induction metas as [|meta rest IH]; intros old w Hold; simpl.
  - exists old. split; [assumption | reflexivity].
  - unfold bind.
    destruct (upsert_file_preserves_created_at meta p old w Hold)
      as (r1 & Hr1 & Hc1).
    destruct (MetadataStore.upsert_file meta w) as [res w1]. simpl in Hr1.
    destruct (IH r1 w1 Hr1) as (r & Hr & Hc).
    exists r. split; [exact Hr | congruence].
Qed.

(** C9.  When [files] already has a row [old] for the path of [meta],
    [upsert_file(meta)] leaves a row for that path whose [created_at] is
    that of [old], whatever [created_at] the record [meta] carries and
    whether or not the statement could run.  When the call succeeds the
    row has the hash, size, mtime, updated_at and is_deleted of [meta]
    and nothing else changed in it; when it fails the row is [old].  The
    same [created_at] is still there after any further sequence of
    upserts, of this path or of others. *)
Theorem upsert_file_keeps_created_at
        (w : World F) (meta old : FileMetadata.t)
        (later : list FileMetadata.t) :
  Sql.select_file (FileMetadata.path meta) (tables w) = Some old ->
  let res := fst (MetadataStore.upsert_file meta w) in
  let w1 := snd (MetadataStore.upsert_file meta w) in
  (exists r,
      Sql.select_file (FileMetadata.path meta) (tables w1) = Some r
      /\ FileMetadata.created_at r = FileMetadata.created_at old
      /\ (res = Ok tt ->
          r = FileMetadata.mk (FileMetadata.path old)
                              (FileMetadata.hash meta)
                              (FileMetadata.size meta)
                              (FileMetadata.mtime meta)
                              (FileMetadata.created_at old)
                              (FileMetadata.updated_at meta)
                              (FileMetadata.is_deleted meta))
      /\ (has_value res = false -> r = old))
  /\ (exists r,
        Sql.select_file (FileMetadata.path meta)
                        (tables (snd (upsert_each later w1))) = Some r
        /\ FileMetadata.created_at r = FileMetadata.created_at old).
Proof.
  intros Hold res w1. subst res w1.
  pose proof (upsert_file_tables meta w) as Hrun.
  destruct (upsert_file_preserves_created_at meta _ old w Hold)
    as (r1 & Hr1 & Hc1).
  destruct (MetadataStore.upsert_file meta w) as [res w1]. simpl in *.
  split.
  - exists r1. split; [exact Hr1|]. split; [exact Hc1|].
    destruct Hrun as [[Hres Ht] | (e & Hres & Ht)]; subst res;
      rewrite Ht in Hr1.
    + rewrite (select_file_after_upsert_same meta old _ Hold) in Hr1.
      inversion Hr1; subst r1. split; [reflexivity | discriminate].
    + split; [discriminate | congruence].
  - destruct (upsert_each_preserves_created_at later _ r1 w1 Hr1)
      as (r & Hr & Hc).
    exists r. split; [exact Hr | congruence].
Qed.
End Upsert.

(** The witness for C9: ["a.txt"] was created at 100; two upserts that
    carry 999 and 12345 leave 100 in place. *)
Lemma upsert_file_keeps_created_at_witness :
  Sql.select_file "a.txt" (tables (Fixture.world Fixture.two_files
                                                 Fixture.empty_fs 5000))
  = Some (FileMetadata.mk "a.txt" "h1" 1 100 100 100 false)
  /\ exists r,
      Sql.select_file "a.txt"
        (tables
           (snd (upsert_each [Fixture.rewrite_a_again]
                   (snd (MetadataStore.upsert_file Fixture.rewrite_a
                           (Fixture.world Fixture.two_files
                                          Fixture.empty_fs 5000))))))
      = Some r
      /\ FileMetadata.created_at r = 100.
Proof.
  split; [reflexivity|].
  exact (proj2 (upsert_file_keeps_created_at
                  (Fixture.world Fixture.two_files Fixture.empty_fs 5000)
                  Fixture.rewrite_a
                  (FileMetadata.mk "a.txt" "h1" 1 100 100 100 false)
                  [Fixture.rewrite_a_again] eq_refl)).
Defined.

(** ** Deleting files *)

Section Delete.
Context {F : Type} {FS : Filesystem F} {SL : SyncLib}.

Lemma select_file_after_tombstone (now : Z) (p : string)
      (old : FileMetadata.t) (t : Tables) :
  Sql.select_file p t = Some old ->
  Sql.select_file p (Sql.update_file_deleted now p t)
  = Some (FileMetadata.mk (FileMetadata.path old) (FileMetadata.hash old)
                          (FileMetadata.size old) (FileMetadata.mtime old)
                          (FileMetadata.created_at old) now true).
Proof.
  unfold Sql.select_file, Sql.update_file_deleted. simpl.
  induction (files t) as [|r rs IH]; simpl; [discriminate|].
  destruct (String.eqb (FileMetadata.path r) p) eqn:E; simpl.
  - intros Hr. inversion Hr; subst. rewrite E. reflexivity.
  - rewrite E. exact IH.
Qed.

Lemma select_file_path (p : string) (r : FileMetadata.t) (t : Tables) :
  Sql.select_file p t = Some r ->
  In r (files t) /\ FileMetadata.path r = p.
Proof.
  unfold Sql.select_file. intros Hr. apply find_some in Hr.
  destruct Hr as [Hin Heq]. apply String.eqb_eq in Heq. tauto.
Qed.

Lemma select_file_none (p : string) (t : Tables) :
  Sql.select_file p t = None ->
  forall r, In r (files t) -> FileMetadata.path r <> p.
Proof.
  unfold Sql.select_file. intros Hnone r Hin Heq.
  apply (find_none _ _ Hnone) in Hin. apply String.eqb_neq in Hin. tauto.
Qed.

(** [mark_deleted] on a healthy connection runs its statement. *)
Lemma mark_deleted_healthy (w : World F) (p : string) :
  healthy w ->
  MetadataStore.mark_deleted p w
  = (Ok tt,
     mkWorld (Sql.update_file_deleted (clock w (ticks w)) p (tables w))
             (fsys w) (clock w) (S (ticks w)) (fault w)
             (S (S (ops w))) (entropy w) (draws w)
             (EvSql (MarkDeleted p (clock w (ticks w))) :: journal w)).
Proof.
  intros Hh. unfold MetadataStore.mark_deleted. run_healthy Hh.
  reflexivity.
Qed.

(** The world [delete_file] reaches before it touches the index: the
    removal has been tried and, when it failed, the warning is logged. *)
Definition after_removal (p : string) (w : World F) : World F :=
  let (rr, s1) := fs_remove p (fsys w) in
  mkWorld (tables w) s1 (clock w) (ticks w) (fault w) (ops w)
          (entropy w) (draws w)
          (match rr with
           | Ok _ => []
           | Err e =>
               [EvLog Warn "Failed to remove file from filesystem: {}"
                      [LStr e]]
           end ++ EvFs (FsRemove p) (has_value rr) :: journal w).

Lemma delete_file_steps (p : string) (w : World F) :
  FileService.delete_file p w
  = (try marked <- MetadataStore.mark_deleted p ;;
     log Debug "Deleted file: {}" [LStr p] ;;;
     ret (Ok tt)) (after_removal p w).
Proof.
  unfold FileService.delete_file, after_removal, Fs.remove, Fs.lift.
  unfold bind at 1 2. simpl.
  destruct (fs_remove p (fsys w)) as [[u|e] s1]; reflexivity.
Qed.

Lemma after_removal_healthy (p : string) (w : World F) :
  healthy w -> healthy (after_removal p w).
Proof.
  unfold healthy, after_removal. intros Hh n.
  destruct (fs_remove p (fsys w)) as [rr s1]. simpl. apply Hh.
Qed.

Lemma after_removal_tables (p : string) (w : World F) :
  tables (after_removal p w) = tables w.
Proof.
  unfold after_removal. destruct (fs_remove p (fsys w)); reflexivity.
Qed.

Lemma after_removal_clock (p : string) (w : World F) :
  clock (after_removal p w) (ticks (after_removal p w))
  = clock w (ticks w).
Proof.
  unfold after_removal. destruct (fs_remove p (fsys w)); reflexivity.
Qed.

(** On a healthy connection [delete_file] succeeds and its effect on the
    index is the tombstone statement. *)
Lemma delete_file_healthy (p : string) (w : World F) :
  healthy w ->
  exists w1,
    FileService.delete_file p w = (Ok tt, w1)
    /\ healthy w1
    /\ tables w1
       = Sql.update_file_deleted (clock w (ticks w)) p (tables w)
    /\ journal w1
       = EvLog Debug "Deleted file: {}" [LStr p]
         :: EvSql (MarkDeleted p (clock w (ticks w)))
         :: journal (after_removal p w).
Proof.
  intros Hh. rewrite delete_file_steps. unfold bind at 1.
  rewrite mark_deleted_healthy by (apply after_removal_healthy; exact Hh).
  rewrite after_removal_tables, after_removal_clock.
  unfold_primitives. simpl. eexists. split; [reflexivity|]. simpl.
  split; [|split; reflexivity].
  intro n. simpl. apply after_removal_healthy. exact Hh.
Qed.

(** After the tombstone statement the row the index answers for [p], if
    any, is a tombstone. *)
Lemma select_file_tombstoned (now : Z) (p : string) (t : Tables)
      (r : FileMetadata.t) :
  Sql.select_file p (Sql.update_file_deleted now p t) = Some r ->
  FileMetadata.is_deleted r = true.
Proof.
  unfold Sql.select_file, Sql.update_file_deleted. simpl.
  induction (files t) as [|r0 rs IH]; simpl; [discriminate|].
  destruct (String.eqb (FileMetadata.path r0) p) eqn:E; simpl.
  - rewrite E. intros Hr. injection Hr as <-. reflexivity.
  - rewrite E. exact IH.
Qed.

(** C4, amended.  For every path [p]: on a healthy connection
    [delete(p)] succeeds and after it [get(p)] fails with "File not
    found", whether [p] had a row in [files] or not; and when [p] had
    one, [list_files()] still has a row for [p], with
    [is_deleted = true] (the old row with a new [updated_at]). *)
Theorem delete_file_then_get_and_list (w : World F) (p : string) :
  healthy w ->
  exists w1,
    FileService.delete_file p w = (Ok tt, w1)
    /\ (exists w2, FileService.get_file p w1 = (Err "File not found", w2))
    /\ (forall old,
          Sql.select_file p (tables w) = Some old ->
          exists listed w3 r,
            FileService.list_files w1 = (Ok listed, w3)
            /\ In r listed
            /\ FileMetadata.path r = p
            /\ FileMetadata.is_deleted r = true
            /\ FileMetadata.hash r = FileMetadata.hash old
            /\ FileMetadata.size r = FileMetadata.size old
            /\ FileMetadata.created_at r = FileMetadata.created_at old).
Proof.
  intros Hh.
  destruct (delete_file_healthy p w Hh) as (w1 & Hdel & Hh1 & Ht1 & _).
  exists w1. split; [exact Hdel|]. split.
  - unfold FileService.get_file. unfold bind at 1.
    rewrite get_file_healthy by exact Hh1. rewrite Ht1.
    destruct (Sql.select_file p (Sql.update_file_deleted _ p (tables w)))
      as [r|] eqn:Hsel; simpl.
    + rewrite (select_file_tombstoned _ _ _ _ Hsel). eexists. reflexivity.
    + eexists. reflexivity.
  - intros old Hold.
    pose proof (select_file_after_tombstone (clock w (ticks w)) p old _ Hold)
      as Hsel.
    rewrite <- Ht1 in Hsel.
    unfold FileService.list_files.
    rewrite get_all_files_healthy by exact Hh1. simpl.
    destruct (select_file_path _ _ _ Hsel) as [Hin Hp].
    do 3 eexists. split; [reflexivity|].
    split; [exact Hin|]. simpl in Hp.
    repeat split; try reflexivity. exact Hp.
Qed.
End Delete.

(** The witness for C4: ["a.txt"] is indexed and gets deleted. *)
Lemma delete_file_then_get_and_list_witness :
  healthy (Fixture.world Fixture.two_files Fixture.empty_fs 5000)
  /\ Sql.select_file "a.txt" Fixture.two_files
     = Some (FileMetadata.mk "a.txt" "h1" 1 100 100 100 false)
  /\ exists w1,
      FileService.delete_file "a.txt"
        (Fixture.world Fixture.two_files Fixture.empty_fs 5000)
      = (Ok tt, w1)
      /\ (exists w2,
            FileService.get_file "a.txt" w1 = (Err "File not found", w2))
      /\ (exists listed w3 r,
            FileService.list_files w1 = (Ok listed, w3)
            /\ In r listed
            /\ FileMetadata.path r = "a.txt"
            /\ FileMetadata.is_deleted r = true).
Proof.
  assert (Hh : healthy (Fixture.world Fixture.two_files Fixture.empty_fs 5000))
    by (intro n; reflexivity).
  split; [exact Hh|]. split; [reflexivity|].
  destruct (delete_file_then_get_and_list
              (FS := Fixture.mem_fs)
              (Fixture.world Fixture.two_files Fixture.empty_fs 5000)
              "a.txt" Hh)
    as (w1 & Hdel & Hget & Hlist).
  exists w1. split; [exact Hdel|]. split; [exact Hget|].
  destruct (Hlist (FileMetadata.mk "a.txt" "h1" 1 100 100 100 false) eq_refl)
    as (listed & w3 & r & Hl & Hin & Hp & Hd & _).
  exists listed, w3, r. auto.
Defined.

(** The counterexample for C4 as stated (all paths): ["ghost.txt"] was
    never indexed.  Its delete succeeds, since the UPDATE of
    [mark_deleted] matches no row and the failed removal is only logged;
    and afterwards [list_files()] has no row for it at all. *)
Lemma delete_unindexed_path_not_listed :
  healthy Fixture.fresh
  /\ fst (FileService.delete_file "ghost.txt" Fixture.fresh) = Ok tt
  /\ fst (FileService.list_files
            (snd (FileService.delete_file "ghost.txt" Fixture.fresh)))
     = Ok []
  /\ ~ (exists listed r,
           fst (FileService.list_files
                  (snd (FileService.delete_file "ghost.txt" Fixture.fresh)))
           = Ok listed
           /\ In r listed
           /\ FileMetadata.path r = "ghost.txt"
           /\ FileMetadata.is_deleted r = true).
Proof.
  split; [intro n; reflexivity|].
  split; [vm_compute; reflexivity|].
  split; [vm_compute; reflexivity|].
  intros (listed & r & Hl & Hin & _).
  vm_compute in Hl. inversion Hl; subst listed. destruct Hin.
Qed.

(** ** Writing files *)

Section Put.
Context {F : Type} {FS : Filesystem F} {SL : SyncLib}.

(** C7.  When the content store refuses the write of [put(path, bytes)],
    the call returns that error and the index is exactly what it was: the
    only thing the call leaves behind is the failed write, and no
    statement that changes the index was run.  This holds whatever the
    connection does and with or without a client mtime. *)
Theorem put_file_failed_write_leaves_index
        (w : World F) (p : string) (c : list byte)
        (mt : option Timestamp) (e : string) (s1 : F) :
  fs_write p c (fsys w) = (Err e, s1) ->
  exists w',
    FileService.put_file p c mt w = (Err e, w')
    /\ tables w' = tables w
    /\ journal w' = EvFs (FsWrite p c) false :: journal w.
Proof.
  intros Hw.
  unfold FileService.put_file, MetadataStore.get_file, Fs.write, Fs.lift.
  unfold_primitives. simpl.
  destruct (fault w (ops w)); simpl;
    [|destruct (fault w (S (ops w))); simpl];
    rewrite Hw; simpl; eexists; repeat split.
Qed.

(** C6.  Let [p] have a row [old] in [files], tombstoned or not, and let
    the content store accept the write and, when a client mtime is
    given, the mtime.  Then [put(p, bytes, client_mtime?)] succeeds on a
    healthy connection and
    - the record it returns and the row it leaves for [p] are the same;
    - its [created_at] is the one of [old];
    - its hash and size are computed from [bytes], it is not deleted;
    - its mtime is the client's when one is given;
    - the bytes were written first, then the mtime was applied, and only
      then the upsert statement ran: that is the order of the journal. *)
Theorem put_file_existing_record
        (w : World F) (p : string) (c : list byte)
        (mt : option Timestamp) (old : FileMetadata.t) (s1 s2 : F) :
  healthy w ->
  Sql.select_file p (tables w) = Some old ->
  fs_write p c (fsys w) = (Ok tt, s1) ->
  match mt with
  | Some t => fs_set_mtime p t s1 = (Ok tt, s2)
  | None => s2 = s1
  end ->
  exists meta w',
    FileService.put_file p c mt w = (Ok meta, w')
    /\ Sql.select_file p (tables w') = Some meta
    /\ FileMetadata.path meta = p
    /\ FileMetadata.created_at meta = FileMetadata.created_at old
    /\ FileMetadata.hash meta = hash_bytes c
    /\ FileMetadata.size meta = Z.of_nat (List.length c)
    /\ FileMetadata.is_deleted meta = false
    /\ (forall t, mt = Some t -> FileMetadata.mtime meta = t)
    /\ fsys w' = snd (fs_mtime p s2)
    /\ journal w'
       = EvLog Debug "Stored file: {} ({} bytes)"
               [LStr p; LNum (Z.of_nat (List.length c))]
         :: EvSql (UpsertFile meta)
         :: match mt with
            | Some t => [EvFs (FsSetMtime p t) true]
            | None => []
            end
         ++ EvFs (FsWrite p c) true :: journal w.
Proof.
  intros Hh Hold Hw Hm.
  unfold FileService.put_file, FileService.build_metadata,
    MetadataStore.get_file, MetadataStore.upsert_file,
    Fs.write, Fs.set_mtime, Fs.mtime, Fs.lift.
  run_healthy Hh. rewrite Hold, Hw. simpl.
  destruct mt as [t|]; simpl; [rewrite Hm | subst s2]; run_healthy Hh;
    destruct (fs_mtime p _) as [[v|e] s3]; run_healthy Hh;
    (eexists; eexists; split; [reflexivity|]; simpl;
     split;
     [ match goal with
       | |- Sql.select_file _ (Sql.insert_or_update_file ?m _) = _ =>
           apply (select_file_after_upsert_existing m old);
           [exact Hold | reflexivity]
       end
     | repeat split; try reflexivity;
       intros t' Ht'; inversion Ht'; reflexivity || discriminate ]).
Qed.
End Put.

(** The witness for C7: the store refuses ["ro.txt"]. *)
Lemma put_file_failed_write_leaves_index_witness :
  fs_write "ro.txt" Fixture.hi Fixture.locked_fs
  = (Err "Permission denied", Fixture.locked_fs)
  /\ exists w',
      FileService.put_file "ro.txt" Fixture.hi (Some 777)
        (Fixture.world Fixture.two_files Fixture.locked_fs 5000)
      = (Err "Permission denied", w')
      /\ tables w' = Fixture.two_files.
Proof.
  split; [reflexivity|].
  destruct (put_file_failed_write_leaves_index
              (FS := Fixture.mem_fs)
              (Fixture.world Fixture.two_files Fixture.locked_fs 5000)
              "ro.txt" Fixture.hi (Some 777)
              "Permission denied" Fixture.locked_fs eq_refl)
    as (w' & Hrun & Ht & _).
  exists w'. split; [exact Hrun | exact Ht].
Defined.

(** The witness for C6: ["b.txt"] is a tombstone created at 200; it is
    written again with a client mtime. *)
Lemma put_file_existing_record_witness :
  healthy (Fixture.world Fixture.two_files Fixture.empty_fs 5000)
  /\ Sql.select_file "b.txt" Fixture.two_files
     = Some (FileMetadata.mk "b.txt" "h2" 2 200 200 200 true)
  /\ exists meta w',
      FileService.put_file "b.txt" Fixture.hi (Some 777)
        (Fixture.world Fixture.two_files Fixture.empty_fs 5000)
      = (Ok meta, w')
      /\ Sql.select_file "b.txt" (tables w') = Some meta
      /\ FileMetadata.created_at meta = 200
      /\ FileMetadata.size meta = 2
      /\ FileMetadata.mtime meta = 777
      /\ FileMetadata.is_deleted meta = false.
Proof.
  assert (Hh : healthy (Fixture.world Fixture.two_files Fixture.empty_fs 5000))
    by (intro n; reflexivity).
  split; [exact Hh|]. split; [reflexivity|].
  destruct (put_file_existing_record
              (FS := Fixture.mem_fs)
              (Fixture.world Fixture.two_files Fixture.empty_fs 5000)
              "b.txt" Fixture.hi (Some 777)
              (FileMetadata.mk "b.txt" "h2" 2 200 200 200 true)
              _ _ Hh eq_refl eq_refl eq_refl)
    as (meta & w' & Hrun & Hsel & _ & Hc & _ & Hs & Hd & Hm & _).
  exists meta, w'. split; [exact Hrun|]. split; [exact Hsel|].
  split; [exact Hc|]. split; [exact Hs|].
  split; [exact (Hm 777 eq_refl) | exact Hd].
Defined.

(** ** Deleting: which failures are fatal *)

Section DeleteFailures.
Context {F : Type} {FS : Filesystem F} {SL : SyncLib} {FT : Fts5}.

(** Whatever the connection does, [mark_deleted] either ran its UPDATE
    and reports success, or reports an error and changed nothing. *)
Lemma mark_deleted_cases (p : string) (w : World F) :
  (fst (MetadataStore.mark_deleted p w) = Ok tt
   /\ tables (snd (MetadataStore.mark_deleted p w))
      = Sql.update_file_deleted (clock w (ticks w)) p (tables w)
   /\ journal (snd (MetadataStore.mark_deleted p w))
      = EvSql (MarkDeleted p (clock w (ticks w))) :: journal w)
  \/ (exists e,
        fst (MetadataStore.mark_deleted p w) = Err e
        /\ tables (snd (MetadataStore.mark_deleted p w)) = tables w
        /\ journal (snd (MetadataStore.mark_deleted p w)) = journal w).
Proof.
  unfold MetadataStore.mark_deleted. unfold_primitives. simpl.
  destruct (fault w (ops w)); simpl.
  - right. eexists. repeat split.
  - destruct (fault w (S (ops w))); simpl.
    + right. eexists. repeat split.
    + left. repeat split.
Qed.

(** [get_note] only reads. *)
Lemma get_note_frame (id : string) (w : World F) :
  tables (snd (MetadataStore.get_note id w)) = tables w
  /\ fsys (snd (MetadataStore.get_note id w)) = fsys w
  /\ journal (snd (MetadataStore.get_note id w)) = journal w.
Proof.
  unfold MetadataStore.get_note. unfold_primitives. simpl.
  destruct (fault w (ops w)); simpl; [repeat split|].
  destruct (fault w (S (ops w))); simpl; repeat split.
Qed.

(** The result of [delete_file] is the result of its tombstone write. *)
Lemma delete_file_result (p : string) (w : World F) :
  fst (FileService.delete_file p w)
  = fst (MetadataStore.mark_deleted p (after_removal p w)).
Proof.
  rewrite delete_file_steps. unfold bind at 1.
  destruct (MetadataStore.mark_deleted p (after_removal p w)) as [[u|e] w1];
    simpl; [destruct u|]; reflexivity.
Qed.

Lemma delete_file_index (p : string) (w : World F) :
  tables (snd (FileService.delete_file p w))
  = tables (snd (MetadataStore.mark_deleted p (after_removal p w)))
  /\ exists l,
      journal (snd (FileService.delete_file p w))
      = (l ++ journal (snd (MetadataStore.mark_deleted
                                  p (after_removal p w))))%list.
Proof.
  rewrite delete_file_steps. unfold bind, log, emit, ret.
  destruct (MetadataStore.mark_deleted p (after_removal p w)) as [[u|e] w1];
    simpl.
  - split; [reflexivity|]. eexists [_]. reflexivity.
  - split; [reflexivity|]. exists []. reflexivity.
Qed.

(** C5, amended.  Files: when [p] has a row and the content store fails
    to remove [p], [delete_file(p)] logs the failure as a warning and
    goes on to the tombstone write; its result is the result of that
    write, so it fails exactly when the tombstone write fails; when it
    succeeds the row of [p] is a tombstone, and on a healthy connection
    it does succeed.  Notes: when the note [id] has a record [m] and the
    content store fails to remove its file, [delete_note(id)] returns
    that error; it logs nothing, writes no tombstone and leaves the
    index as it was. *)
Theorem delete_removal_failure
        (w : World F) (p : string) (old : FileMetadata.t)
        (e : string) (s1 : F)
        (wn : World F) (id : string) (m : NoteMetadata.t)
        (en : string) (sn : F) :
  Sql.select_file p (tables w) = Some old ->
  fs_remove p (fsys w) = (Err e, s1) ->
  fst (MetadataStore.get_note id wn) = Ok (Some m) ->
  fs_remove (NoteMetadata.path m) (fsys wn) = (Err en, sn) ->
  (* files *)
  (In (EvLog Warn "Failed to remove file from filesystem: {}" [LStr e])
      (journal (snd (FileService.delete_file p w)))
   /\ fst (FileService.delete_file p w)
      = fst (MetadataStore.mark_deleted p (after_removal p w))
   /\ (fst (FileService.delete_file p w) = Ok tt ->
       In (EvSql (MarkDeleted p (clock w (ticks w))))
          (journal (snd (FileService.delete_file p w)))
       /\ exists r,
           Sql.select_file p (tables (snd (FileService.delete_file p w)))
           = Some r
           /\ FileMetadata.is_deleted r = true)
   /\ (healthy w -> fst (FileService.delete_file p w) = Ok tt))
  (* notes *)
  /\ (fst (NoteService.delete_note id wn) = Err en
      /\ tables (snd (NoteService.delete_note id wn)) = tables wn
      /\ journal (snd (NoteService.delete_note id wn))
         = EvFs (FsRemove (NoteMetadata.path m)) false :: journal wn).
Proof.
  intros Hold Hrm Hget Hrmn. split.
  - destruct (delete_file_index p w) as [Ht [l Hj]].
    assert (Hj0 : journal (after_removal p w)
                  = EvLog Warn "Failed to remove file from filesystem: {}"
                          [LStr e]
                    :: EvFs (FsRemove p) false :: journal w).
    { unfold after_removal. rewrite Hrm. reflexivity. }
    pose proof (after_removal_tables p w) as Ht0.
    pose proof (after_removal_clock p w) as Hc0.
    split; [|split; [apply delete_file_result|split]].
    + rewrite Hj. apply in_or_app. right.
      destruct (mark_deleted_cases p (after_removal p w))
        as [(_ & _ & Hm) | (e' & _ & _ & Hm)]; rewrite Hm, Hj0.
      * right. left. reflexivity.
      * left. reflexivity.
    + rewrite delete_file_result. intros Hok.
      destruct (mark_deleted_cases p (after_removal p w))
        as [(_ & Hmt & Hm) | (e' & Herr & _)]; [|congruence].
      split.
      * rewrite Hj, Hm, Hc0. apply in_or_app. right. left. reflexivity.
      * rewrite Ht, Hmt, Ht0, Hc0.
        rewrite (select_file_after_tombstone _ p old _ Hold).
        eexists. split; reflexivity.
    + intros Hh. destruct (delete_file_healthy p w Hh) as (w1 & Hrun & _).
      rewrite Hrun. reflexivity.
  - assert (Hrun : exists w',
               NoteService.delete_note id wn = (Err en, w')
               /\ tables w' = tables wn
               /\ journal w'
                  = EvFs (FsRemove (NoteMetadata.path m)) false
                    :: journal wn).
    { destruct (get_note_frame id wn) as (Ht & Hf & Hj).
      unfold NoteService.delete_note. unfold bind at 1.
      destruct (MetadataStore.get_note id wn) as [r w1]. simpl in *.
      subst r. unfold Fs.remove, Fs.lift. unfold_primitives. simpl.
      rewrite Hf, Hrmn. simpl. rewrite Ht, Hj.
      eexists. repeat split. }
    destruct Hrun as (w' & Hrun & Ht & Hj). rewrite Hrun. simpl.
    repeat split; assumption.
Qed.
End DeleteFailures.

(** The witness for C5: the files of ["a.txt"] and of the note ["n1"]
    are gone from the content store, so both removals fail. *)
Lemma delete_removal_failure_witness :
  Sql.select_file "a.txt" Fixture.two_files
  = Some (FileMetadata.mk "a.txt" "h1" 1 100 100 100 false)
  /\ fs_remove "a.txt" Fixture.empty_fs
     = (Err "File not found", Fixture.empty_fs)
  /\ fst (MetadataStore.get_note "n1" Fixture.note_world)
     = Ok (Some Fixture.note1)
  /\ fs_remove "n1.md" Fixture.empty_fs
     = (Err "File not found", Fixture.empty_fs)
  /\ fst (FileService.delete_file "a.txt"
            (Fixture.world Fixture.two_files Fixture.empty_fs 5000))
     = Ok tt
  /\ fst (NoteService.delete_note "n1" Fixture.note_world)
     = Err "File not found".
Proof.
  split; [reflexivity|]. split; [reflexivity|].
  split; [reflexivity|]. split; [reflexivity|].
  destruct (delete_removal_failure
              (FS := Fixture.mem_fs)
              (Fixture.world Fixture.two_files Fixture.empty_fs 5000)
              "a.txt" (FileMetadata.mk "a.txt" "h1" 1 100 100 100 false)
              "File not found" Fixture.empty_fs
              Fixture.note_world "n1" Fixture.note1
              "File not found" Fixture.empty_fs
              eq_refl eq_refl eq_refl eq_refl)
    as [(_ & _ & _ & Hfile) (Hnote & _)].
  split; [apply Hfile; intro n; reflexivity | exact Hnote].
Defined.

(** The counterexample for C5 as stated (files and notes alike): the
    note ["n1"] has a record, the removal of its file fails, and
    [delete_note] reports that failure instead of success; the note is
    not tombstoned and nothing is logged. *)
Lemma delete_note_removal_failure_aborts :
  healthy Fixture.note_world
  /\ fst (MetadataStore.get_note "n1" Fixture.note_world)
     = Ok (Some Fixture.note1)
  /\ fst (fs_remove "n1.md" (fsys Fixture.note_world))
     = Err "File not found"
  /\ fst (NoteService.delete_note "n1" Fixture.note_world)
     = Err "File not found"
  /\ fst (NoteService.delete_note "n1" Fixture.note_world) <> Ok tt
  /\ notes (tables (snd (NoteService.delete_note "n1" Fixture.note_world)))
     = [NoteRow.mk "n1" "n1.md" "T" "h" 10 10 false]
  /\ journal (snd (NoteService.delete_note "n1" Fixture.note_world))
     = [EvFs (FsRemove "n1.md") false].
Proof.
  split; [intro n; reflexivity|].
  repeat split; try (vm_compute; reflexivity).
  vm_compute. discriminate.
Qed.

(** ** Tokens *)

Section Tokens.
Context {F : Type}.

(** The rows of [token] after [update_last_used]. *)
Lemma update_last_used_rows (now : Z) (token : string) (t : Tables)
      (r : TokenRow.t) :
  In r (auth_tokens (Sql.update_last_used now token t)) ->
  (TokenRow.token r = token /\ TokenRow.last_used r = Some now
   /\ exists r0, In r0 (auth_tokens t)
                 /\ TokenRow.token r0 = token
                 /\ TokenRow.created_at r = TokenRow.created_at r0
                 /\ TokenRow.expires_at r = TokenRow.expires_at r0)
  \/ (TokenRow.token r <> token /\ In r (auth_tokens t)).
Proof.
  unfold Sql.update_last_used. simpl. rewrite in_map_iff.
  intros (r0 & Hr & Hin).
  destruct (String.eqb (TokenRow.token r0) token) eqn:E.
  - apply String.eqb_eq in E. subst r. simpl. left.
    split; [exact E|]. split; [reflexivity|].
    exists r0. repeat split; assumption.
  - apply String.eqb_neq in E. subst r. right. split; assumption.
Qed.

Lemma update_last_used_touches (now : Z) (token : string) (t : Tables)
      (r0 : TokenRow.t) :
  In r0 (auth_tokens t) ->
  TokenRow.token r0 = token ->
  In (TokenRow.mk token (TokenRow.created_at r0) (TokenRow.expires_at r0)
                  (Some now))
     (auth_tokens (Sql.update_last_used now token t)).
Proof.
  intros Hin Htok. unfold Sql.update_last_used. simpl.
  apply in_map_iff. exists r0. split; [|exact Hin].
  rewrite <- Htok, String.eqb_refl. reflexivity.
Qed.

(** No live row: the SELECT finds nothing. *)
Lemma select_live_token_none (token : string) (now : Z) (t : Tables) :
  (forall r, In r (auth_tokens t) -> TokenRow.token r = token ->
             TokenRow.expires_at r <= now) ->
  Sql.select_live_token token now t = None.
Proof.
  intros Hall. unfold Sql.select_live_token.
  destruct (find _ (auth_tokens t)) as [r|] eqn:E; [|reflexivity].
  apply find_some in E. destruct E as [Hin Hc].
  apply andb_true_iff in Hc. destruct Hc as [Ht Hlt].
  apply String.eqb_eq in Ht. apply Z.ltb_lt in Hlt.
  specialize (Hall r Hin Ht). lia.
Qed.

(** A live row: the SELECT finds one. *)
Lemma select_live_token_some (token : string) (now : Z) (t : Tables)
      (r : TokenRow.t) :
  In r (auth_tokens t) -> TokenRow.token r = token ->
  now < TokenRow.expires_at r ->
  exists r', Sql.select_live_token token now t = Some r'.
Proof.
  intros Hin Ht Hlt. unfold Sql.select_live_token.
  destruct (find _ (auth_tokens t)) as [r'|] eqn:E; [eexists; reflexivity|].
  apply (find_none _ _ E) in Hin. simpl in Hin.
  rewrite <- Ht, String.eqb_refl in Hin.
  apply Z.ltb_lt in Hlt. rewrite Hlt in Hin. discriminate.
Qed.

(** A successful [store_token] leaves exactly one row for the token,
    with the expiry it was given. *)
Lemma store_token_rows (token : string) (expires_at : Z) (w : World F) :
  fst (MetadataStore.store_token token expires_at w) = Ok tt ->
  forall r,
    In r (auth_tokens
            (tables (snd (MetadataStore.store_token token expires_at w)))) ->
    TokenRow.token r = token ->
    TokenRow.expires_at r = expires_at.
Proof.
  unfold MetadataStore.store_token. unfold_primitives. simpl.
  destruct (fault w (ops w)); simpl; [discriminate|].
  destruct (fault w (S (ops w))); simpl; [discriminate|].
  unfold Sql.insert_token.
  destruct (existsb _ (auth_tokens (tables w))) eqn:E; simpl;
    [discriminate|].
  intros _ r Hin Ht. apply in_app_or in Hin. destruct Hin as [Hin|Hin].
  - assert (Hex : existsb (fun r0 => String.eqb (TokenRow.token r0) token)
                          (auth_tokens (tables w)) = true).
    { apply existsb_exists. exists r. split; [exact Hin|].
      rewrite Ht. apply String.eqb_refl. }
    congruence.
  - destruct Hin as [Hr|[]]. subst r. reflexivity.
Qed.

Lemma validate_token_healthy (w : World F) (token : string) :
  healthy w ->
  let now := Z.quot (clock w (ticks w)) 1000 in
  match Sql.select_live_token token now (tables w) with
  | None =>
      fst (MetadataStore.validate_token token w) = Ok false
      /\ tables (snd (MetadataStore.validate_token token w)) = tables w
  | Some _ =>
      fst (MetadataStore.validate_token token w) = Ok true
      /\ tables (snd (MetadataStore.validate_token token w))
         = Sql.update_last_used now token (tables w)
  end.
Proof.
  intros Hh now. subst now.
  unfold MetadataStore.validate_token. run_healthy Hh.
  destruct (Sql.select_live_token token _ (tables w));
    run_healthy Hh; split; reflexivity.
Qed.

(** The two requests of a lookup ([prepare], [fetch]) are answered. *)
Definition lookup_answers (w : World F) : Prop :=
  fault w (ops w) = None /\ fault w (S (ops w)) = None.

(** The two requests of the write that follows a lookup ([prepare],
    [execute]) are answered. *)
Definition write_answers (w : World F) : Prop :=
  fault w (S (S (ops w))) = None /\ fault w (S (S (S (ops w)))) = None.

(** [validate_token] when its SELECT is answered: [false] and no change
    without a live row; [true] with one, and then the UPDATE of
    [last_used] when it is answered as well, and no change when it is
    not. *)
Lemma validate_token_cases (w : World F) (token : string) :
  lookup_answers w ->
  let now := Z.quot (clock w (ticks w)) 1000 in
  match Sql.select_live_token token now (tables w) with
  | None =>
      fst (MetadataStore.validate_token token w) = Ok false
      /\ tables (snd (MetadataStore.validate_token token w)) = tables w
  | Some _ =>
      fst (MetadataStore.validate_token token w) = Ok true
      /\ (write_answers w ->
          tables (snd (MetadataStore.validate_token token w))
          = Sql.update_last_used now token (tables w))
      /\ (~ write_answers w ->
          tables (snd (MetadataStore.validate_token token w)) = tables w)
  end.
Proof.
  intros [Hp Hf] now. subst now.
  unfold MetadataStore.validate_token, write_answers. unfold_primitives.
  simpl. rewrite Hp. simpl. rewrite Hf. simpl.
  destruct (Sql.select_live_token token _ (tables w)); simpl;
    [|split; reflexivity].
  destruct (fault w (S (S (ops w)))) as [e|]; simpl.
  - split; [reflexivity|]. split; [intros [He _]; discriminate|].
    reflexivity.
  - destruct (fault w (S (S (S (ops w))))) as [e|]; simpl.
    + split; [reflexivity|]. split; [intros [_ He]; discriminate|].
      reflexivity.
    + split; [reflexivity|]. split; [reflexivity|].
      intros Hno. elim Hno. split; reflexivity.
Qed.

(** C8, amended.  [now] is the clock reading of the call in whole
    seconds.  When the SELECT of [validate_token(t)] is answered, the
    call
    - returns the value [false], not an error, and changes nothing when
      every row stored for [t] has [expires_at <= now]: in particular
      when [t] was never stored, and when [t] has just been stored by
      [store_token] with an [expires_at] in the past;
    - returns [true] when [t] has a row with [expires_at > now]; then,
      when the UPDATE is answered as well, every row of [t] has
      [last_used = now], its other columns and all other rows being
      what they were; and when the UPDATE is not answered, the tables
      are what they were. *)
Theorem validate_token_outcomes (w : World F) (token : string) :
  lookup_answers w ->
  let now := Z.quot (clock w (ticks w)) 1000 in
  let res := fst (AuthManager.validate_token token w) in
  let w' := snd (AuthManager.validate_token token w) in
  ((forall r, In r (auth_tokens (tables w)) -> TokenRow.token r = token ->
              TokenRow.expires_at r <= now) ->
   res = Ok false /\ tables w' = tables w)
  /\ ((forall r, In r (auth_tokens (tables w)) -> TokenRow.token r <> token) ->
      res = Ok false /\ tables w' = tables w)
  /\ (forall (w0 : World F) (expires_at : Z),
        MetadataStore.store_token token expires_at w0 = (Ok tt, w) ->
        expires_at <= now ->
        res = Ok false /\ tables w' = tables w)
  /\ (forall r, In r (auth_tokens (tables w)) -> TokenRow.token r = token ->
                now < TokenRow.expires_at r ->
        res = Ok true
        /\ (write_answers w ->
            In (TokenRow.mk token (TokenRow.created_at r)
                            (TokenRow.expires_at r) (Some now))
               (auth_tokens (tables w'))
            /\ (forall r', In r' (auth_tokens (tables w')) ->
                           TokenRow.token r' = token ->
                           TokenRow.last_used r' = Some now)
            /\ (forall r', In r' (auth_tokens (tables w')) ->
                           TokenRow.token r' <> token ->
                           In r' (auth_tokens (tables w))))
        /\ (~ write_answers w -> tables w' = tables w)).
Proof.
  intros Hl now res w'. subst res w'. unfold AuthManager.validate_token.
  pose proof (validate_token_cases w token Hl) as Hrun. simpl in Hrun.
  fold now in Hrun.
  assert (Hdead :
    (forall r, In r (auth_tokens (tables w)) -> TokenRow.token r = token ->
               TokenRow.expires_at r <= now) ->
    fst (MetadataStore.validate_token token w) = Ok false
    /\ tables (snd (MetadataStore.validate_token token w)) = tables w).
  { intros Hall.
    rewrite (select_live_token_none token now _ Hall) in Hrun. exact Hrun. }
  split; [exact Hdead|]. split; [|split].
  - intros Hnone. apply Hdead. intros r Hin Ht.
    exfalso. exact (Hnone r Hin Ht).
  - intros w0 e Hstore Hle. apply Hdead. intros r Hin Ht.
    pose proof (store_token_rows token e w0) as Hrows.
    rewrite Hstore in Hrows. simpl in Hrows.
    rewrite (Hrows eq_refl r Hin Ht). exact Hle.
  - intros r Hin Ht Hlive.
    destruct (select_live_token_some token now _ r Hin Ht Hlive) as [r1 Hs].
    rewrite Hs in Hrun. destruct Hrun as (Hres & Hdone & Hskipped).
    split; [exact Hres|]. split; [|exact Hskipped].
    intros Hw. rewrite (Hdone Hw).
    split; [apply update_last_used_touches; assumption|].
    split.
    + intros r' Hin' Ht'.
      destruct (update_last_used_rows _ _ _ _ Hin')
        as [(_ & Hl' & _) | (Hne & _)]; [exact Hl' | contradiction].
    + intros r' Hin' Hne'.
      destruct (update_last_used_rows _ _ _ _ Hin')
        as [(Heq & _) | (_ & Hin0)]; [contradiction | exact Hin0].
Qed.
End Tokens.

(** The witness for C8: a token stored with an expiry 100 s in the past,
    as in the test [AuthTokenExpiry]. *)
Lemma validate_token_outcomes_witness :
  lookup_answers (snd (MetadataStore.store_token "expired-token" 900
                         Fixture.fresh))
  /\ MetadataStore.store_token "expired-token" 900 Fixture.fresh
     = (Ok tt,
        snd (MetadataStore.store_token "expired-token" 900 Fixture.fresh))
  /\ fst (AuthManager.validate_token "expired-token"
            (snd (MetadataStore.store_token "expired-token" 900
                    Fixture.fresh)))
     = Ok false
  /\ fst (AuthManager.validate_token "wrong-token"
            (snd (MetadataStore.store_token "expired-token" 900
                    Fixture.fresh)))
     = Ok false.
Proof.
  assert (Hl : lookup_answers
                 (snd (MetadataStore.store_token "expired-token" 900
                         Fixture.fresh)))
    by (split; reflexivity).
  split; [exact Hl|]. split; [reflexivity|].
  split.
  - destruct (validate_token_outcomes _ "expired-token" Hl)
      as (_ & _ & Hstored & _).
    apply (Hstored Fixture.fresh 900 eq_refl). vm_compute. discriminate.
  - destruct (validate_token_outcomes _ "wrong-token" Hl)
      as (_ & Hunknown & _).
    apply Hunknown. intros r [Hr|[]] Ht. subst r. discriminate.
Defined.

(** The counterexample for C8 as stated: a token that is valid for
    another hour is validated while the connection fails once, at the
    prepare of the UPDATE (its fifth request).  The call answers [true]
    and [last_used] is not set. *)
Lemma validate_token_update_failure_ignored :
  auth_tokens
    (tables (snd (MetadataStore.store_token "t1" 4600 Fixture.fresh)))
  = [TokenRow.mk "t1" 1000 4600 None]
  /\ fst (AuthManager.validate_token
            "t1"
            (Fixture.failing_at
               4 (snd (MetadataStore.store_token "t1" 4600 Fixture.fresh))))
     = Ok true
  /\ auth_tokens
       (tables
          (snd (AuthManager.validate_token
                  "t1"
                  (Fixture.failing_at
                     4 (snd (MetadataStore.store_token "t1" 4600
                                                       Fixture.fresh))))))
     = [TokenRow.mk "t1" 1000 4600 None]
  /\ ~ (forall r,
          In r (auth_tokens
                  (tables
                     (snd (AuthManager.validate_token
                             "t1"
                             (Fixture.failing_at
                                4 (snd (MetadataStore.store_token
                                          "t1" 4600 Fixture.fresh))))))) ->
          TokenRow.token r = "t1" ->
          TokenRow.last_used r <> None).
Proof.
  split; [vm_compute; reflexivity|].
  split; [vm_compute; reflexivity|].
  split; [vm_compute; reflexivity|].
  intros Hall. apply (Hall (TokenRow.mk "t1" 1000 4600 None)).
  - vm_compute. left. reflexivity.
  - reflexivity.
  - reflexivity.
Qed.

(** ** Challenges are consumed on lookup *)

Section Challenges.
Context {F : Type} {SL : SyncLib}.

(** [validate_challenge] on a healthy connection: nothing happens when no
    live row matches; otherwise the rows of the challenge are deleted. *)
Lemma validate_challenge_healthy (w : World F) (challenge public_key : string) :
  healthy w ->
  MetadataStore.validate_challenge challenge public_key w
  = match Sql.select_live_challenge challenge public_key
                                    (Z.quot (clock w (ticks w)) 1000)
                                    (tables w) with
    | None =>
        (Ok false,
         mkWorld (tables w) (fsys w) (clock w) (S (ticks w)) (fault w)
                 (S (S (ops w))) (entropy w) (draws w) (journal w))
    | Some _ =>
        (Ok true,
         mkWorld (Sql.delete_challenge challenge (tables w))
                 (fsys w) (clock w) (S (ticks w)) (fault w)
                 (S (S (S (S (ops w))))) (entropy w) (draws w)
                 (EvSql (DeleteChallenge challenge) :: journal w))
    end.
Proof.
  intros Hh. unfold MetadataStore.validate_challenge. run_healthy Hh.
  destruct (Sql.select_live_challenge _ _ _ (tables w));
    run_healthy Hh; reflexivity.
Qed.










End Challenges.




(** ** Tag counts *)

(** C1, on the code.  One note ["n1"] tagged ["x"] is stored with
    [upsert_note] and then deleted with [delete_note].  The note is a
    tombstone and its link to ["x"] is still in [note_tags]; no other
    note carries ["x"].  [get_all_tags()] nevertheless lists ["x"] with
    count 1, while [get_notes_by_tag("x")] finds no note: the statement
    counts [nt.note_id], which is not NULL for the link of a tombstoned
    note, although its join condition asks for [n.is_deleted = 0]. *)
Theorem get_all_tags_counts_tombstoned_note :
  fst (MetadataStore.upsert_note Fixture.note1 Fixture.fresh) = Ok tt
  /\ fst (MetadataStore.delete_note "n1"
            (snd (MetadataStore.upsert_note Fixture.note1 Fixture.fresh)))
     = Ok tt
  /\ notes (tables
              (snd (MetadataStore.delete_note "n1"
                      (snd (MetadataStore.upsert_note Fixture.note1
                                                      Fixture.fresh)))))
     = [NoteRow.mk "n1" "n1.md" "T" "h" 10 1000000 true]
  /\ note_tags (tables
                  (snd (MetadataStore.delete_note "n1"
                          (snd (MetadataStore.upsert_note Fixture.note1
                                                          Fixture.fresh)))))
     = [NoteTag.mk "n1" 1]
  /\ fst (MetadataStore.get_all_tags
            (snd (MetadataStore.delete_note "n1"
                    (snd (MetadataStore.upsert_note Fixture.note1
                                                    Fixture.fresh)))))
     = Ok [TagInfo.mk "x" 1]
  /\ fst (MetadataStore.get_notes_by_tag "x"
            (snd (MetadataStore.delete_note "n1"
                    (snd (MetadataStore.upsert_note Fixture.note1
                                                    Fixture.fresh)))))
     = Ok [].
Proof.
  repeat split; vm_compute; reflexivity.
Qed.

(** ** Listing notes *)

Section Listing.
Context {F : Type} {FS : Filesystem F} {SL : SyncLib} {FT : Fts5}.

(** The loop of [list_notes] makes one entry per note of the page, in
    order, and only reads the content store. *)
Lemma load_items_page (page : list NoteMetadata.t) :
  forall w : World F,
  exists items w',
    NoteService.load_items page w = (items, w')
    /\ Forall2 item_of page items
    /\ tables w' = tables w.
Proof.
  induction page as [|meta rest IH]; intros w; simpl.
  - exists [], w. split; [reflexivity|]. split; [constructor | reflexivity].
  - unfold bind at 1. unfold Fs.read_string, Fs.lift.
    destruct (fs_read_string (NoteMetadata.path meta) (fsys w)) as [cr s1].
    unfold bind at 1.
    match goal with
    | |- context [NoteService.load_items rest ?w1] =>
        destruct (IH w1) as (items & w2 & Hrun & Hitems & Ht);
        rewrite Hrun
    end.
    simpl in *. eexists. eexists. split; [reflexivity|].
    split; [|exact Ht].
    constructor; [|exact Hitems].
    unfold item_of, NoteService.to_list_item. eexists. reflexivity.
Qed.



End Listing.

(** *** What [get_all_tags] counts, in general

    With note ids unique (the primary key of [notes]), the answer of the
    statement does not depend on the [notes] table at all: each link of
    [note_tags] is one row of its group and is counted, whether the
    LEFT JOIN found a live note for it or not. *)

Section TagCounts.

Lemma live_note_unique (x : string) (ns : list NoteRow.t) :
  NoDup (map NoteRow.id ns) ->
  (List.length
     (filter (fun n => String.eqb x (NoteRow.id n)
                       && negb (NoteRow.is_deleted n)) ns) <= 1)%nat.
Proof.
  induction ns as [|n rest IH]; simpl; intros Hnd; [lia|].
  inversion Hnd as [|? ? Hnotin Hrest]; subst.
  destruct (String.eqb x (NoteRow.id n)) eqn:E; simpl.
  - apply String.eqb_eq in E. subst x.
    assert (Hnone : filter (fun n0 => String.eqb (NoteRow.id n) (NoteRow.id n0)
                                      && negb (NoteRow.is_deleted n0)) rest
                    = []).
    { clear IH Hnd Hrest. induction rest as [|m rest' IH']; simpl;
        [reflexivity|].
      destruct (String.eqb (NoteRow.id n) (NoteRow.id m)) eqn:E'.
      - apply String.eqb_eq in E'. elim Hnotin. left. symmetry. exact E'.
      - simpl. apply IH'. intros Hin. apply Hnotin. right. exact Hin. }
    rewrite Hnone. destruct (negb (NoteRow.is_deleted n)); simpl; lia.
  - apply IH. exact Hrest.
Qed.

Lemma left_join_keeps_left {A B} (on : A -> B -> bool) (l : list A)
      (r : list B) :
  (forall a, (List.length (filter (on a) r) <= 1)%nat) ->
  map fst (Sql.left_join on l r) = l.
Proof.
  intros Huniq. unfold Sql.left_join.
  induction l as [|a rest IH]; [reflexivity|].
  cbn [flat_map]. rewrite map_app, IH. specialize (Huniq a).
  destruct (filter (on a) r) as [|b [|b' bs]]; simpl in *;
    [reflexivity | reflexivity | lia].
Qed.

Lemma tag_join_links (t : Tables) :
  NoDup (map NoteRow.id (notes t)) ->
  map fst (Sql.tag_join t)
  = Sql.left_join (fun tg nt => TagRow.id tg =? NoteTag.tag_id nt)
                  (tags t) (note_tags t).
Proof.
  intros Hnd. unfold Sql.tag_join. apply left_join_keeps_left.
  intros [tg [nt|]]; simpl.
  - apply live_note_unique. exact Hnd.
  - clear Hnd. induction (notes t); simpl; [lia | assumption].
Qed.

Lemma filter_map_fst {A B} (p : A -> bool) (rows : list (A * B)) :
  map fst (filter (fun r => p (fst r)) rows) = filter p (map fst rows).
Proof.
  induction rows as [|r rest IH]; simpl; [reflexivity|].
  destruct (p (fst r)); simpl; rewrite IH; reflexivity.
Qed.

(** The statement of [get_all_tags], read off the links alone. *)
Definition tags_of_links (links : list (TagRow.t * option NoteTag.t))
  : list TagInfo.t :=
  Sql.order_by Sql.by_count_desc_name
    (filter (fun i => 0 <? TagInfo.count i)
       (flat_map
          (fun k =>
             let group := filter (fun a => TagRow.id (fst a) =? k) links in
             match group with
             | [] => []
             | a :: _ =>
                 [TagInfo.mk
                    (TagRow.name (fst a))
                    (Z.of_nat
                       (List.length
                          (filter (fun a' => match snd a' with
                                             | Some _ => true
                                             | None => false
                                             end) group)))]
             end)
          (Sql.distinct_from Z.eqb []
                             (map (fun a => TagRow.id (fst a)) links)))).

Lemma select_all_tags_of_links (t : Tables) :
  Sql.select_all_tags t = tags_of_links (map fst (Sql.tag_join t)).
Proof.
  unfold Sql.select_all_tags, tags_of_links, Sql.group_by.
  f_equal. f_equal. rewrite !flat_map_concat_map, !map_map.
  f_equal. apply map_ext. intros k. cbv zeta. cbn [snd].
  unfold Sql.TagJoin.
  rewrite <- (filter_map_fst (fun a => TagRow.id (fst a) =? k)).
  set (group := filter (fun r => TagRow.id (fst (fst r)) =? k)
                       (Sql.tag_join t)).
  rewrite <- (filter_map_fst (fun a' => match snd a' with
                                        | Some _ => true
                                        | None => false
                                        end) group).
  rewrite length_map. unfold Sql.count_note_id.
  destruct group as [|row rest]; reflexivity.
Qed.

(** The answer of [get_all_tags] is the same for any two [notes] tables
    with unique ids: the tombstones in them play no part. *)
Lemma select_all_tags_ignores_notes (ns : list NoteRow.t) (t : Tables) :
  NoDup (map NoteRow.id (notes t)) ->
  NoDup (map NoteRow.id ns) ->
  Sql.select_all_tags (with_notes ns t) = Sql.select_all_tags t.
Proof.
  intros Ht Hns.
  rewrite !select_all_tags_of_links, !tag_join_links by assumption.
  reflexivity.
Qed.

(** So the tombstone of [delete_note] never changes what [get_all_tags]
    reports: a tag keeps the count it had while the note was live. *)
Lemma select_all_tags_after_tombstone (now : Z) (id : string) (t : Tables) :
  NoDup (map NoteRow.id (notes t)) ->
  Sql.select_all_tags (Sql.update_note_deleted now id t)
  = Sql.select_all_tags t.
Proof.
  intros Hnd. unfold Sql.update_note_deleted.
  apply select_all_tags_ignores_notes; [exact Hnd|].
  rewrite map_map.
  erewrite map_ext; [exact Hnd|].
  intros n. simpl. destruct (String.eqb (NoteRow.id n) id); reflexivity.
Qed.

(** At the level of the store: with unique note ids and a healthy
    connection, [get_all_tags()] answers after [delete_note(id)] what it
    answered before it. *)
Lemma get_all_tags_unchanged_by_delete_note {F} (w : World F) (id : string) :
  healthy w ->
  NoDup (map NoteRow.id (notes (tables w))) ->
  fst (MetadataStore.delete_note id w) = Ok tt
  /\ fst (MetadataStore.get_all_tags (snd (MetadataStore.delete_note id w)))
     = fst (MetadataStore.get_all_tags w).
Proof.
  intros Hh Hnd.
  unfold MetadataStore.delete_note, MetadataStore.remove_fts,
    MetadataStore.get_all_tags.
  run_healthy Hh. split; [reflexivity|].
  f_equal.
  change (Sql.select_all_tags
            (Sql.delete_fts id
               (Sql.update_note_deleted (clock w (ticks w)) id (tables w))))
    with (Sql.select_all_tags
            (Sql.update_note_deleted (clock w (ticks w)) id (tables w))).
  apply select_all_tags_after_tombstone. exact Hnd.
Qed.
End TagCounts.

(** ** The repository's tests, replayed on the model *)

(** [MetadataStoreTest.Tags]: shared (count 2), unique1 and unique2
    (count 1 each). *)
Example test_Tags :
  fst (MetadataStore.get_all_tags
         (snd (MetadataStore.upsert_note
                 (NoteMetadata.mk "note2" "notes/note2.md" "Note 2"
                                  ["shared"; "unique2"] "h2" 7 7 false)
                 (snd (MetadataStore.upsert_note
                         (NoteMetadata.mk "note1" "notes/note1.md" "Note 1"
                                          ["shared"; "unique1"] "h1" 5 5 false)
                         Fixture.fresh)))))
  = Ok [TagInfo.mk "shared" 2; TagInfo.mk "unique1" 1;
        TagInfo.mk "unique2" 1].
Proof. vm_compute. reflexivity. Qed.

(** [MetadataStoreTest.NotesCRUD]: the note comes back with its title
    and both tags. *)
Example test_NotesCRUD :
  fst (MetadataStore.get_note "test-uuid"
         (snd (MetadataStore.upsert_note
                 (NoteMetadata.mk "test-uuid" "notes/test-uuid.md"
                                  "Test Note" ["tag1"; "tag2"] "notehash"
                                  9 9 false)
                 Fixture.fresh)))
  = Ok (Some (NoteMetadata.mk "test-uuid" "notes/test-uuid.md" "Test Note"
                              ["tag1"; "tag2"] "notehash" 9 9 false)).
Proof. vm_compute. reflexivity. Qed.

(** [MetadataStoreTest.GetFilesSince]: only ["new.txt"] is newer than
    2000. *)
Example test_GetFilesSince :
  fst (MetadataStore.get_all_files (Some 2000)
         (snd (upsert_each
                 [FileMetadata.mk "old.txt" "hash1" 10 1000 1000 1000 false;
                  FileMetadata.mk "new.txt" "hash2" 20 3000 3000 3000 false]
                 Fixture.fresh)))
  = Ok [FileMetadata.mk "new.txt" "hash2" 20 3000 3000 3000 false].
Proof. vm_compute. reflexivity. Qed.

(** [MetadataStoreTest.MarkDeleted]: the row is still there, deleted. *)
Example test_MarkDeleted :
  fst (MetadataStore.get_file "to_delete.txt"
         (snd (MetadataStore.mark_deleted "to_delete.txt"
                 (snd (MetadataStore.upsert_file
                         (FileMetadata.mk "to_delete.txt" "hash" 10
                                          1000 1000 1000 false)
                         Fixture.fresh)))))
  = Ok (Some (FileMetadata.mk "to_delete.txt" "hash" 10
                              1000 1000 1000000 true)).
Proof. vm_compute. reflexivity. Qed.

(** [MetadataStoreTest.AuthTokens]: a token good for an hour validates,
    another one does not. *)
Example test_AuthTokens :
  fst (MetadataStore.validate_token "test-token"
         (snd (MetadataStore.store_token "test-token" (1000 + 3600)
                 Fixture.fresh)))
  = Ok true
  /\ fst (MetadataStore.validate_token "wrong-token"
            (snd (MetadataStore.store_token "test-token" (1000 + 3600)
                    Fixture.fresh)))
     = Ok false.
Proof. split; vm_compute; reflexivity. Qed.

(** [FileServiceTest.PutAndGetFile] and [DeleteFile]: the bytes come
    back after the put and are not found after the delete. *)
Example test_PutGetDelete :
  fst (FileService.get_file "test.txt"
         (snd (FileService.put_file "test.txt" Fixture.hi None
                                    Fixture.fresh)))
  = Ok Fixture.hi
  /\ fst (FileService.get_file "test.txt"
            (snd (FileService.delete_file "test.txt"
                    (snd (FileService.put_file "test.txt" Fixture.hi None
                                               Fixture.fresh)))))
     = Err "File not found".
Proof. split; vm_compute; reflexivity. Qed.

(* ================================================================== *)
(** * Further properties of the code *)

(** ** The route layer *)

Section Strings.

Lemma length_append (a b : string) :
  String.length (a ++ b) = (String.length a + String.length b)%nat.
Proof. induction a as [|c a IH]; simpl; [reflexivity | now rewrite IH]. Qed.

Lemma substring_all (s : string) : substring 0 (String.length s) s = s.
Proof. induction s as [|c s IH]; simpl; [reflexivity | now rewrite IH]. Qed.

Lemma substring_prefix (a b : string) :
  substring 0 (String.length a) (a ++ b) = a.
Proof.
  induction a as [|c a IH]; simpl.
  - destruct b; reflexivity.
  - now rewrite IH.
Qed.

Lemma substring_suffix (a b : string) :
  substring (String.length a) (String.length b) (a ++ b) = b.
Proof.
  induction a as [|c a IH]; simpl; [apply substring_all | exact IH].
Qed.

Lemma substr_from_append (a b : string) :
  Server.substr_from (String.length a) (a ++ b) = b.
Proof.
  unfold Server.substr_from. rewrite length_append.
  replace (String.length a + String.length b - String.length a)%nat
    with (String.length b) by lia.
  apply substring_suffix.
Qed.

Lemma substring_split (s : string) :
  forall n, (n <= String.length s)%nat ->
            s = substring 0 n s ++ Server.substr_from n s.
Proof.
  unfold Server.substr_from.
  induction s as [|c s IH]; intros n Hn; simpl in *.
  - destruct n; reflexivity.
  - destruct n as [|n]; simpl.
    + now rewrite substring_all.
    + f_equal. apply IH. lia.
Qed.

Lemma substring_length_le (s : string) :
  forall n, (n <= String.length s)%nat ->
            String.length (substring 0 n s) = n.
Proof.
  induction s as [|c s IH]; intros n Hn; simpl in *.
  - destruct n; [reflexivity | lia].
  - destruct n as [|n]; simpl; [reflexivity|]. f_equal. apply IH. lia.
Qed.

Lemma has_prefix_split (path prefix : string) :
  (String.length prefix <= String.length path)%nat ->
  String.eqb (substring 0 (String.length prefix) path) prefix = true ->
  path = prefix ++ Server.substr_from (String.length prefix) path.
Proof.
  intros Hlen Heq. apply String.eqb_eq in Heq.
  rewrite <- Heq at 1. apply substring_split. exact Hlen.
Qed.

(** X1.  [extract_path_param] takes a prefix off a path: the path
    [prefix ++ s] gives [s], for every [s] (the bare prefix gives the
    empty string); and whenever the answer is not empty, the path is the
    prefix followed by the answer. *)
Theorem extract_path_param_inverts_append (path prefix s : string) :
  Server.extract_path_param (prefix ++ s) prefix = s
  /\ (Server.extract_path_param path prefix = EmptyString
      \/ path = prefix ++ Server.extract_path_param path prefix).
Proof.
  unfold Server.extract_path_param. split.
  - rewrite length_append, substring_prefix, String.eqb_refl.
    destruct (Nat.ltb_spec (String.length prefix)
                           (String.length prefix + String.length s))
      as [Hlt|Hge]; simpl andb; cbv iota.
    + apply substr_from_append.
    + destruct s as [|c s]; [reflexivity | simpl in Hge; lia].
  - destruct (String.length prefix <? String.length path)%nat eqn:Hlt;
      [|left; reflexivity].
    destruct (String.eqb _ prefix) eqn:Heq; [|left; reflexivity].
    right. simpl. apply Nat.ltb_lt in Hlt.
    apply has_prefix_split; [lia | exact Heq].
Qed.
End Strings.

Section Authenticate.
Context {F : Type}.

Lemma authenticate_bearer (token : string) (w : World F) :
  token <> EmptyString ->
  Server.authenticate ("Bearer " ++ token) w
  = (try valid <- AuthManager.validate_token token ;;
     if negb valid
     then ret (Err "Invalid or expired token")
     else ret (Ok tt)) w.
Proof.
  intros Hne. unfold Server.authenticate.
  change ("Bearer " ++ token) with (String "B" ("earer " ++ token)) at 1.
  cbv iota.
  rewrite length_append, substring_prefix, String.eqb_refl.
  rewrite substr_from_append.
  replace (String.length "Bearer " + String.length token
           <=? String.length "Bearer ")%nat with false; [reflexivity|].
  symmetry. apply Nat.leb_gt.
  destruct token; [congruence | simpl; lia].
Qed.

Lemma authenticate_other (header : string) (w : World F) :
  (forall token, header = "Bearer " ++ token -> token = EmptyString) ->
  Server.authenticate header w
  = (Err (match header with
          | EmptyString => "Missing Authorization header"
          | _ => "Invalid Authorization header format"
          end), w).
Proof.
  intros Hform. unfold Server.authenticate.
  destruct header as [|c h]; [reflexivity|].
  destruct (Nat.leb_spec (String.length (String c h))
                         (String.length "Bearer ")) as [Hle|Hgt];
    [reflexivity|].
  destruct (String.eqb (substring 0 (String.length "Bearer ") (String c h))
                       "Bearer ") eqn:Heq; [|reflexivity].
  exfalso.
  pose proof (has_prefix_split (String c h) "Bearer "
                               (Nat.lt_le_incl _ _ Hgt) Heq) as Hsplit.
  specialize (Hform _ Hsplit).
  rewrite Hsplit, length_append, Hform in Hgt. simpl in Hgt. lia.
Qed.

(** X2.  [authenticate] accepts a request exactly when its
    Authorization header is ["Bearer "] followed by a non-empty token
    that [validate_token] accepts.  For any other header (none, another
    scheme, another case, no token) it answers an error without asking
    the store anything: the world is left as it was. *)
Theorem authenticate_accepts_bearer_tokens (header : string) (w : World F) :
  (fst (Server.authenticate header w) = Ok tt
   <-> exists token,
         header = "Bearer " ++ token
         /\ token <> EmptyString
         /\ fst (AuthManager.validate_token token w) = Ok true)
  /\ ((forall token, header = "Bearer " ++ token -> token = EmptyString) ->
      snd (Server.authenticate header w) = w
      /\ has_value (fst (Server.authenticate header w)) = false).
Proof.
  split.
  - split.
    + intros Hok.
      destruct (String.eqb (substring 0 7 header) "Bearer "
                && (7 <? String.length header)%nat) eqn:Hshape.
      * apply andb_true_iff in Hshape. destruct Hshape as [Hpre Hlen].
        apply Nat.ltb_lt in Hlen.
        pose proof (has_prefix_split header "Bearer "
                                     (Nat.lt_le_incl _ _ Hlen) Hpre) as Hsp.
        set (token := Server.substr_from (String.length "Bearer ") header)
          in *.
        assert (Hne : token <> EmptyString).
        { intros He. rewrite Hsp, He in Hlen. simpl in Hlen. lia. }
        exists token. split; [exact Hsp|]. split; [exact Hne|].
        rewrite Hsp, authenticate_bearer in Hok by exact Hne.
        unfold bind in Hok.
        destruct (AuthManager.validate_token token w) as [[[|]|e] w1];
          simpl in *; congruence.
      * rewrite authenticate_other in Hok.
        -- destruct header; discriminate.
        -- intros token Ht. destruct token as [|c t]; [reflexivity|].
           exfalso. subst header.
           change 7%nat with (String.length "Bearer ") in Hshape.
           rewrite substring_prefix, String.eqb_refl in Hshape.
           rewrite length_append in Hshape. simpl in Hshape.
           discriminate.
    + intros (token & Hh & Hne & Hval). subst header.
      rewrite authenticate_bearer by exact Hne. unfold bind.
      destruct (AuthManager.validate_token token w) as [[[|]|e] w1];
        simpl in *; congruence.
  - intros Hform. rewrite authenticate_other by exact Hform.
    split; reflexivity.
Qed.
End Authenticate.

(** ** Files: what a put and a delete change *)

(** Split on the outcome of every call the goal is waiting for. *)
Ltac split_outcomes :=
  repeat (simpl;
          match goal with
          | |- context [match fault ?w ?n with _ => _ end] =>
              destruct (fault w n)
          | |- context [fs_write ?p ?c ?s] =>
              let r := fresh "r" in
              let s' := fresh "s" in
              destruct (fs_write p c s) as [r s']
          | |- context [fs_set_mtime ?p ?t ?s] =>
              let r := fresh "r" in
              let s' := fresh "s" in
              destruct (fs_set_mtime p t s) as [r s']
          | |- context [fs_mtime ?p ?s] =>
              let r := fresh "r" in
              let s' := fresh "s" in
              destruct (fs_mtime p s) as [r s']
          | |- context [fs_read ?p ?s] =>
              let r := fresh "r" in
              let s' := fresh "s" in
              destruct (fs_read p s) as [r s']
          | |- context [fs_remove ?p ?s] =>
              let r := fresh "r" in
              let s' := fresh "s" in
              destruct (fs_remove p s) as [r s']
          | |- context [match ?r with Ok _ => _ | Err _ => _ end] =>
              is_var r; destruct r
          | |- context [match ?o with Some _ => _ | None => _ end] =>
              is_var o; destruct o
          end).

Section PutEffects.
Context {F : Type} {FS : Filesystem F} {SL : SyncLib}.

Lemma select_file_after_insert_new (meta : FileMetadata.t) (t : Tables) :
  Sql.select_file (FileMetadata.path meta) t = None ->
  Sql.select_file (FileMetadata.path meta) (Sql.insert_or_update_file meta t)
  = Some meta.
Proof.
  unfold Sql.select_file, Sql.insert_or_update_file. intros Hnone.
  assert (Hex : existsb (fun r => String.eqb (FileMetadata.path r)
                                             (FileMetadata.path meta))
                        (files t) = false).
  { destruct (existsb _ (files t)) eqn:E; [|reflexivity].
    apply existsb_exists in E. destruct E as (r & Hin & Hr).
    apply (find_none _ _ Hnone) in Hin. congruence. }
  rewrite Hex. simpl.
  induction (files t) as [|r rs IH]; simpl in *.
  - rewrite String.eqb_refl. reflexivity.
  - destruct (String.eqb (FileMetadata.path r) (FileMetadata.path meta));
      [discriminate|].
    apply IH; [exact Hnone|]. simpl in Hex. exact Hex.
Qed.

(** Whatever the connection and the content store do, [put_file] either
    fails and leaves the index alone, or succeeds and its whole effect
    on the index is the upsert of a record for [p]. *)
Lemma put_file_tables (w : World F) (p : string) (c : list byte)
      (mt : option Timestamp) :
  match fst (FileService.put_file p c mt w) with
  | Err _ => tables (snd (FileService.put_file p c mt w)) = tables w
  | Ok meta =>
      tables (snd (FileService.put_file p c mt w))
      = Sql.insert_or_update_file meta (tables w)
      /\ FileMetadata.path meta = p
      /\ FileMetadata.is_deleted meta = false
      /\ FileMetadata.hash meta = hash_bytes c
      /\ FileMetadata.size meta = Z.of_nat (List.length c)
  end.
Proof.
  unfold FileService.put_file, FileService.build_metadata,
    MetadataStore.get_file, MetadataStore.upsert_file,
    Fs.write, Fs.set_mtime, Fs.mtime, Fs.lift.
  unfold_primitives.
  destruct (Sql.select_file p (tables w)) as [old|] eqn:Hold;
    destruct mt as [t|]; split_outcomes; repeat split.
Qed.

Lemma put_file_fault (w : World F) (p : string) (c : list byte)
      (mt : option Timestamp) :
  fault (snd (FileService.put_file p c mt w)) = fault w.
Proof.
  unfold FileService.put_file, FileService.build_metadata,
    MetadataStore.get_file, MetadataStore.upsert_file,
    Fs.write, Fs.set_mtime, Fs.mtime, Fs.lift.
  unfold_primitives.
  destruct (Sql.select_file p (tables w)) as [old|] eqn:Hold;
    destruct mt as [t|]; split_outcomes; reflexivity.
Qed.

(** On a healthy connection the record a put returns carries the
    creation time of the row it replaces, or the clock reading taken
    after the lookup when there was none. *)
Lemma put_file_created_at (w : World F) (p : string) (c : list byte)
      (mt : option Timestamp) :
  healthy w ->
  match fst (FileService.put_file p c mt w) with
  | Err _ => True
  | Ok meta =>
      FileMetadata.created_at meta
      = match Sql.select_file p (tables w) with
        | Some old => FileMetadata.created_at old
        | None => clock w (ticks w)
        end
  end.
Proof.
  intros Hh.
  unfold FileService.put_file, FileService.build_metadata,
    MetadataStore.get_file, MetadataStore.upsert_file,
    Fs.write, Fs.set_mtime, Fs.mtime, Fs.lift.
  run_healthy Hh.
  destruct (Sql.select_file p (tables w)) as [old|] eqn:Hold;
    destruct mt as [t|]; split_outcomes; rewrite ?Hh; simpl; exact I || reflexivity.
Qed.

(** X3.  Whatever the connection and the content store do: a put that
    fails, at any step, leaves every record of the index as it was; and
    a put of [p], failed or not, never changes the record of another
    path, nor the creation time of a record [p] already has. *)
Theorem put_file_touches_one_record
        (w : World F) (p p' : string) (c : list byte)
        (mt : option Timestamp) :
  (has_value (fst (FileService.put_file p c mt w)) = false ->
   tables (snd (FileService.put_file p c mt w)) = tables w)
  /\ (p' <> p ->
      Sql.select_file p' (tables (snd (FileService.put_file p c mt w)))
      = Sql.select_file p' (tables w))
  /\ (forall old,
        Sql.select_file p (tables w) = Some old ->
        exists r,
          Sql.select_file p (tables (snd (FileService.put_file p c mt w)))
          = Some r
          /\ FileMetadata.created_at r = FileMetadata.created_at old).
Proof.
  pose proof (put_file_tables w p c mt) as Hrun.
  destruct (fst (FileService.put_file p c mt w)) as [meta|e].
  - destruct Hrun as (Ht & Hp & _). rewrite Ht. subst p.
    split; [discriminate|]. split.
    + intros Hne. apply select_file_after_upsert_other.
      apply String.eqb_neq. congruence.
    + intros old Hold.
      rewrite (select_file_after_upsert_same meta old _ Hold).
      eexists. split; reflexivity.
  - rewrite Hrun. split; [reflexivity|]. split; [reflexivity|].
    intros old Hold. exists old. split; [exact Hold | reflexivity].
Qed.

(** X4.  On a healthy connection, after a put of [p] that succeeded
    - [get_metadata(p)] answers exactly the record the put returned, and
      that record is live, whether [p] was new, indexed or tombstoned
      before;
    - [list_files()] contains it;
    - [get(p)] gets past the index: its answer is the answer of the
      content store's read. *)
Theorem put_file_then_get
        (w w' : World F) (p : string) (c : list byte)
        (mt : option Timestamp) (meta : FileMetadata.t) :
  healthy w ->
  FileService.put_file p c mt w = (Ok meta, w') ->
  fst (FileService.get_metadata p w') = Ok (Some meta)
  /\ FileMetadata.is_deleted meta = false
  /\ (exists listed,
        fst (FileService.list_files w') = Ok listed /\ In meta listed)
  /\ fst (FileService.get_file p w') = fst (fs_read p (fsys w')).
Proof.
  intros Hh Hput.
  pose proof (put_file_tables w p c mt) as Hrun.
  pose proof (put_file_created_at w p c mt Hh) as Hc.
  pose proof (put_file_fault w p c mt) as Hf.
  rewrite Hput in Hrun, Hc, Hf. simpl in Hrun, Hc, Hf.
  destruct Hrun as (Ht & Hp & Hd & _).
  assert (Hh' : healthy w') by (intro n; rewrite Hf; apply Hh).
  assert (Hsel : Sql.select_file p (tables w') = Some meta).
  { rewrite Ht. subst p.
    destruct (Sql.select_file (FileMetadata.path meta) (tables w))
      as [old|] eqn:Hold.
    - apply (select_file_after_upsert_existing meta old); assumption.
    - apply select_file_after_insert_new. exact Hold. }
  split.
  { unfold FileService.get_metadata.
    rewrite get_file_healthy by exact Hh'. simpl. now rewrite Hsel. }
  split; [exact Hd|]. split.
  { unfold FileService.list_files.
    rewrite get_all_files_healthy by exact Hh'. simpl.
    eexists. split; [reflexivity|].
    apply (select_file_path p meta). exact Hsel. }
  unfold FileService.get_file. unfold bind at 1.
  rewrite get_file_healthy by exact Hh'. rewrite Hsel, Hd.
  unfold Fs.read, Fs.lift. simpl.
  destruct (fs_read p (fsys w')); reflexivity.
Qed.
End PutEffects.

(** The witness for X4: ["b.txt"] is a tombstone; it is put again. *)
Lemma put_file_then_get_witness :
  healthy (Fixture.world Fixture.two_files Fixture.empty_fs 5000)
  /\ FileService.put_file "b.txt" Fixture.hi None
       (Fixture.world Fixture.two_files Fixture.empty_fs 5000)
     = (Ok (FileMetadata.mk "b.txt" "hi" 2 0 200 7000 false),
        snd (FileService.put_file "b.txt" Fixture.hi None
               (Fixture.world Fixture.two_files Fixture.empty_fs 5000)))
  /\ fst (FileService.get_metadata "b.txt"
            (snd (FileService.put_file "b.txt" Fixture.hi None
                    (Fixture.world Fixture.two_files Fixture.empty_fs 5000))))
     = Ok (Some (FileMetadata.mk "b.txt" "hi" 2 0 200 7000 false)).
Proof.
  assert (Hh : healthy (Fixture.world Fixture.two_files Fixture.empty_fs 5000))
    by (intro n; reflexivity).
  assert (Hput :
    FileService.put_file "b.txt" Fixture.hi None
      (Fixture.world Fixture.two_files Fixture.empty_fs 5000)
    = (Ok (FileMetadata.mk "b.txt" "hi" 2 0 200 7000 false),
       snd (FileService.put_file "b.txt" Fixture.hi None
              (Fixture.world Fixture.two_files Fixture.empty_fs 5000))))
    by (vm_compute; reflexivity).
  split; [exact Hh|]. split; [exact Hput|].
  exact (proj1 (put_file_then_get
                  (FS := Fixture.mem_fs) (SL := Fixture.toy_sync)
                  (Fixture.world Fixture.two_files Fixture.empty_fs 5000)
                  (snd (FileService.put_file "b.txt" Fixture.hi None
                          (Fixture.world Fixture.two_files
                                         Fixture.empty_fs 5000)))
                  "b.txt" Fixture.hi None
                  (FileMetadata.mk "b.txt" "hi" 2 0 200 7000 false)
                  Hh Hput)).
Defined.

Section DeleteEffects.
Context {F : Type} {FS : Filesystem F} {SL : SyncLib}.

Lemma tombstone_keeps_paths (now : Z) (p : string) (t : Tables) :
  map FileMetadata.path (files (Sql.update_file_deleted now p t))
  = map FileMetadata.path (files t).
Proof.
  unfold Sql.update_file_deleted. simpl. rewrite map_map.
  apply map_ext. intros r.
  destruct (String.eqb (FileMetadata.path r) p); reflexivity.
Qed.

Lemma select_file_after_tombstone_other (now : Z) (p p' : string)
      (t : Tables) :
  p' <> p ->
  Sql.select_file p' (Sql.update_file_deleted now p t)
  = Sql.select_file p' t.
Proof.
  intros Hne. unfold Sql.select_file, Sql.update_file_deleted. simpl.
  induction (files t) as [|r rs IH]; simpl; [reflexivity|].
  destruct (String.eqb (FileMetadata.path r) p) eqn:E; simpl.
  - apply String.eqb_eq in E. rewrite E.
    replace (String.eqb p p') with false
      by (symmetry; apply String.eqb_neq; congruence).
    exact IH.
  - destruct (String.eqb (FileMetadata.path r) p'); [reflexivity | exact IH].
Qed.

(** After the tombstone statement every row of [p] is a tombstone
    stamped [now]. *)
Lemma tombstone_rows (now : Z) (p : string) (t : Tables)
      (r : FileMetadata.t) :
  In r (files (Sql.update_file_deleted now p t)) ->
  FileMetadata.path r = p ->
  FileMetadata.is_deleted r = true /\ FileMetadata.updated_at r = now.
Proof.
  unfold Sql.update_file_deleted. simpl. rewrite in_map_iff.
  intros (r0 & Hr & _) Hp.
  destruct (String.eqb (FileMetadata.path r0) p) eqn:E.
  - subst r. simpl. split; reflexivity.
  - subst r. apply String.eqb_neq in E. contradiction.
Qed.

(** The index after [delete_file]: the tombstone statement ran, or
    nothing changed. *)
Lemma delete_file_tables (p : string) (w : World F) :
  tables (snd (FileService.delete_file p w))
  = Sql.update_file_deleted (clock w (ticks w)) p (tables w)
  \/ tables (snd (FileService.delete_file p w)) = tables w.
Proof.
  destruct (delete_file_index p w) as [Ht _]. rewrite Ht.
  destruct (mark_deleted_cases p (after_removal p w))
    as [(_ & Hm & _) | (e & _ & Hm & _)]; rewrite Hm.
  - left. now rewrite after_removal_tables, after_removal_clock.
  - right. apply after_removal_tables.
Qed.

(** X5.  Whatever the connection and the content store do,
    [delete_file(p)] never removes a row and never touches the record
    of another path; of a record of [p] it keeps the path, hash, size,
    mtime and creation time. *)
Theorem delete_file_keeps_rows (w : World F) (p p' : string)
        (r : FileMetadata.t) :
  Sql.select_file p' (tables w) = Some r ->
  map FileMetadata.path (files (tables (snd (FileService.delete_file p w))))
  = map FileMetadata.path (files (tables w))
  /\ exists r',
      Sql.select_file p' (tables (snd (FileService.delete_file p w)))
      = Some r'
      /\ FileMetadata.path r' = FileMetadata.path r
      /\ FileMetadata.hash r' = FileMetadata.hash r
      /\ FileMetadata.size r' = FileMetadata.size r
      /\ FileMetadata.mtime r' = FileMetadata.mtime r
      /\ FileMetadata.created_at r' = FileMetadata.created_at r
      /\ (p' <> p -> r' = r).
Proof.
  intros Hr.
  destruct (delete_file_tables p w) as [Ht|Ht]; rewrite Ht.
  - split; [apply tombstone_keeps_paths|].
    destruct (String.eqb p' p) eqn:E.
    + apply String.eqb_eq in E. subst p'.
      rewrite (select_file_after_tombstone _ p r _ Hr).
      eexists. split; [reflexivity|]. simpl.
      repeat split; try reflexivity. intros Hne. congruence.
    + apply String.eqb_neq in E.
      rewrite select_file_after_tombstone_other by exact E.
      exists r. repeat split; try reflexivity; assumption.
  - split; [reflexivity|]. exists r.
    repeat split; try reflexivity; assumption.
Qed.
End DeleteEffects.

(** The witness for X5: deleting ["a.txt"] leaves the tombstone
    ["b.txt"] alone. *)
Lemma delete_file_keeps_rows_witness :
  Sql.select_file "b.txt" Fixture.two_files
  = Some (FileMetadata.mk "b.txt" "h2" 2 200 200 200 true)
  /\ Sql.select_file "b.txt"
       (tables (snd (FileService.delete_file "a.txt"
                       (Fixture.world Fixture.two_files
                                      Fixture.empty_fs 5000))))
     = Some (FileMetadata.mk "b.txt" "h2" 2 200 200 200 true).
Proof.
  split; [reflexivity|].
  destruct (delete_file_keeps_rows
              (FS := Fixture.mem_fs)
              (Fixture.world Fixture.two_files Fixture.empty_fs 5000)
              "a.txt" "b.txt"
              (FileMetadata.mk "b.txt" "h2" 2 200 200 200 true) eq_refl)
    as (_ & r' & Hsel & _ & _ & _ & _ & _ & Hsame).
  rewrite Hsel. f_equal. apply Hsame. discriminate.
Defined.

(** ** Deletions and the delta view *)

Section SyncComposition.
Context {F : Type} {FS : Filesystem F} {SL : SyncLib}.

Lemma get_sync_state_healthy (w : World F) (since : option Timestamp) :
  healthy w ->
  fst (SyncService.get_sync_state since w)
  = Ok (SyncState.mk (clock w (ticks w))
                     (Sql.select_files since (tables w))).
Proof.
  intros Hh.
  unfold SyncService.get_sync_state, FileService.get_changed_since,
    FileService.list_files, MetadataStore.get_all_files.
  destruct since; run_healthy Hh; reflexivity.
Qed.

(** X6.  Let [p] have a record and let [delete(p)] run on a healthy
    connection, stamping the tombstone with the clock reading [now].
    Then a client polling [get_sync_state(T)] afterwards finds a record
    for [p] in the delta exactly when its cursor is older than the
    delete, [T < now]; every such record is a tombstone stamped [now];
    and the full snapshot ([since] omitted) always has the tombstone. *)
Theorem delete_file_reaches_delta
        (w : World F) (p : string) (old : FileMetadata.t) (T : Timestamp) :
  healthy w ->
  Sql.select_file p (tables w) = Some old ->
  exists w1 delta snapshot,
    FileService.delete_file p w = (Ok tt, w1)
    /\ fst (SyncService.get_sync_state (Some T) w1) = Ok delta
    /\ fst (SyncService.get_sync_state None w1) = Ok snapshot
    /\ ((exists r, In r (SyncState.files delta) /\ FileMetadata.path r = p)
        <-> T < clock w (ticks w))
    /\ (forall r, In r (SyncState.files delta) -> FileMetadata.path r = p ->
                  FileMetadata.is_deleted r = true
                  /\ FileMetadata.updated_at r = clock w (ticks w))
    /\ (exists r, In r (SyncState.files snapshot)
                  /\ FileMetadata.path r = p
                  /\ FileMetadata.is_deleted r = true)
    /\ (forall r, In r (SyncState.files delta) ->
                  In r (SyncState.files snapshot)).
Proof.
  intros Hh Hold.
  destruct (delete_file_healthy p w Hh) as (w1 & Hdel & Hh1 & Ht1 & _).
  exists w1. eexists. eexists. split; [exact Hdel|].
  rewrite !get_sync_state_healthy by exact Hh1.
  split; [reflexivity|]. split; [reflexivity|]. simpl. rewrite Ht1.
  pose proof (select_file_after_tombstone (clock w (ticks w)) p old _ Hold)
    as Hsel.
  apply select_file_path in Hsel. destruct Hsel as [Hin Hp].
  split; [split|split; [|split]].
  - intros (r & Hr & Hrp). apply In_order_by, filter_In in Hr. destruct Hr as [Hr Hlt].
    apply Z.ltb_lt in Hlt.
    destruct (tombstone_rows _ _ _ _ Hr Hrp) as [_ Hu]. lia.
  - intros Hlt. eexists. split; [|exact Hp].
    apply In_order_by, filter_In. split; [exact Hin|]. simpl.
    apply Z.ltb_lt. exact Hlt.
  - intros r Hr Hrp. apply In_order_by, filter_In in Hr.
    destruct Hr as [Hr _].
    exact (tombstone_rows _ _ _ _ Hr Hrp).
  - eexists. split; [exact Hin|]. split; [exact Hp | reflexivity].
  - intros r Hr. apply In_order_by, filter_In in Hr. tauto.
Qed.

End SyncComposition.

(** The witness for X6: ["a.txt"] is deleted at 5000; a cursor of 150 is
    older. *)
Lemma delete_file_reaches_delta_witness :
  healthy (Fixture.world Fixture.two_files Fixture.empty_fs 5000)
  /\ Sql.select_file "a.txt" Fixture.two_files
     = Some (FileMetadata.mk "a.txt" "h1" 1 100 100 100 false)
  /\ exists w1 delta,
      FileService.delete_file "a.txt"
        (Fixture.world Fixture.two_files Fixture.empty_fs 5000)
      = (Ok tt, w1)
      /\ fst (SyncService.get_sync_state (Some 150) w1) = Ok delta
      /\ exists r, In r (SyncState.files delta)
                   /\ FileMetadata.path r = "a.txt".
Proof.
  assert (Hh : healthy (Fixture.world Fixture.two_files Fixture.empty_fs 5000))
    by (intro n; reflexivity).
  split; [exact Hh|]. split; [reflexivity|].
  destruct (delete_file_reaches_delta
              (FS := Fixture.mem_fs)
              (Fixture.world Fixture.two_files Fixture.empty_fs 5000)
              "a.txt" (FileMetadata.mk "a.txt" "h1" 1 100 100 100 false)
              150 Hh eq_refl)
    as (w1 & delta & snapshot & Hdel & Hdelta & _ & Hiff & _).
  exists w1, delta. split; [exact Hdel|]. split; [exact Hdelta|].
  apply Hiff. simpl. lia.
Defined.

(** ** The repair scan *)

Section Scan.
Context {F : Type} {FS : Filesystem F} {FW : FilesystemWalk F}
        {SL : SyncLib}.

(** Whatever happens, the loop only ever upserts: a path that has a row
    keeps one, with its creation time. *)
Lemma index_paths_keeps_rows (paths : list string) (p : string) :
  forall (k : Z) (w : World F) (old : FileMetadata.t),
    Sql.select_file p (tables w) = Some old ->
    exists r,
      Sql.select_file p (tables (snd (FileService.index_paths paths k w)))
      = Some r
      /\ FileMetadata.created_at r = FileMetadata.created_at old.
Proof.
  induction paths as [|q rest IH]; intros k w old Hold.
  - exists old. split; [exact Hold | reflexivity].
  - cbn [FileService.index_paths].
    unfold bind at 1. unfold Fs.read, Fs.lift.
    destruct (fs_read q (fsys w)) as [[c|e] s1].
    + unfold bind at 1.
      unfold FileService.build_metadata, Fs.mtime, Fs.lift.
      unfold bind at 1 2. cbn [fsys tables clock ticks fault ops entropy
                                draws journal].
      destruct (fs_mtime q s1) as [[v|e] s2];
        unfold_primitives; cbn [fst snd];
        match goal with
        | |- context [MetadataStore.upsert_file ?m ?w0] =>
            destruct (upsert_file_preserves_created_at m p old w0 Hold)
              as (r1 & Hr1 & Hc1);
            destruct (MetadataStore.upsert_file m w0) as [[u|e'] w1]
        end;
        cbn [fst snd] in Hr1;
        match goal with
        | |- context [FileService.index_paths rest ?k' ?w2] =>
            destruct (IH k' w2 r1 Hr1) as (r & Hr & Hc)
        end;
        exists r; (split; [exact Hr | congruence]).
    + unfold bind at 1. unfold log, emit.
      match goal with
      | |- context [FileService.index_paths rest ?k' ?w2] =>
          destruct (IH k' w2 old Hold) as (r & Hr & Hc)
      end.
      exists r. split; [exact Hr | exact Hc].
Qed.

Lemma upsert_file_healthy (meta : FileMetadata.t) (w : World F) :
  healthy w ->
  MetadataStore.upsert_file meta w
  = (Ok tt,
     mkWorld (Sql.insert_or_update_file meta (tables w)) (fsys w) (clock w)
             (ticks w) (fault w) (S (S (ops w))) (entropy w) (draws w)
             (EvSql (UpsertFile meta) :: journal w)).
Proof.
  intros Hh. unfold MetadataStore.upsert_file. run_healthy Hh. reflexivity.
Qed.

(** The reads of the content store do not change it. *)
Definition stable_reads : Prop :=
  forall (q : string) (s : F),
    snd (fs_read q s) = s /\ snd (fs_mtime q s) = s.

Definition readable (s : F) (q : string) : bool :=
  has_value (fst (fs_read q s)).

(** The row of a path after it was upserted from [bytes]. *)
Definition indexed_from (bytes : list byte) (p : string) (t : Tables)
  : Prop :=
  exists r,
    Sql.select_file p t = Some r
    /\ FileMetadata.path r = p
    /\ FileMetadata.is_deleted r = false
    /\ FileMetadata.hash r = hash_bytes bytes
    /\ FileMetadata.size r = Z.of_nat (List.length bytes).

Lemma indexed_after_upsert (meta : FileMetadata.t) (t : Tables) :
  FileMetadata.is_deleted meta = false ->
  exists r,
    Sql.select_file (FileMetadata.path meta)
                    (Sql.insert_or_update_file meta t) = Some r
    /\ FileMetadata.path r = FileMetadata.path meta
    /\ FileMetadata.is_deleted r = false
    /\ FileMetadata.hash r = FileMetadata.hash meta
    /\ FileMetadata.size r = FileMetadata.size meta.
Proof.
  intros Hd.
  destruct (Sql.select_file (FileMetadata.path meta) t) as [old|] eqn:Hold.
  - rewrite (select_file_after_upsert_same meta old t Hold).
    eexists. split; [reflexivity|]. simpl.
    apply (select_file_path _ old) in Hold. destruct Hold as [_ Hp].
    repeat split; assumption.
  - rewrite (select_file_after_insert_new meta t Hold).
    eexists. split; [reflexivity|]. repeat split. exact Hd.
Qed.

Lemma index_paths_healthy (paths : list string) :
  stable_reads ->
  forall (k : Z) (w : World F),
    healthy w ->
    exists n w',
      FileService.index_paths paths k w = (n, w')
      /\ fsys w' = fsys w
      /\ fault w' = fault w
      /\ n mod two64
         = (k + Z.of_nat (List.length (filter (readable (fsys w)) paths)))
           mod two64
      /\ (0 <= k < two64 -> 0 <= n < two64)
      /\ forall p,
          if existsb (String.eqb p) paths && readable (fsys w) p
          then forall bytes, fst (fs_read p (fsys w)) = Ok bytes ->
                             indexed_from bytes p (tables w')
          else Sql.select_file p (tables w') = Sql.select_file p (tables w).
Proof.
  intros Hstable.
  induction paths as [|q rest IH]; intros k w Hh.
  - exists k, w. simpl. repeat split; try reflexivity; try lia.
    + now rewrite Z.add_0_r.
  - cbn [FileService.index_paths].
    unfold bind at 1. unfold Fs.read, Fs.lift.
    pose proof (proj1 (Hstable q (fsys w))) as Hs1.
    destruct (fs_read q (fsys w)) as [[c|e] s1] eqn:Er; simpl in Hs1;
      subst s1.
    + unfold bind at 1.
      unfold FileService.build_metadata, Fs.mtime, Fs.lift.
      unfold bind at 1 2. cbn [fsys tables clock ticks fault ops entropy
                                draws journal].
      pose proof (proj2 (Hstable q (fsys w))) as Hs2.
      destruct (fs_mtime q (fsys w)) as [mr s2]; simpl in Hs2; subst s2.
      assert (Hstep : forall mt' ca ua tk,
        exists n w',
          (let (a, w'0) :=
             MetadataStore.upsert_file
               (FileMetadata.mk q (hash_bytes c) (Z.of_nat (List.length c))
                                mt' ca ua false)
               (mkWorld (tables w) (fsys w) (clock w) tk (fault w) (ops w)
                        (entropy w) (draws w) (journal w)) in
           match a with
           | Ok _ => FileService.index_paths rest (size_add k 1)
           | Err _ =>
               log Warn "Failed to store metadata for: {}" [LStr q] ;;;
               FileService.index_paths rest k
           end w'0) = (n, w')
          /\ fsys w' = fsys w
          /\ fault w' = fault w
          /\ n mod two64
             = (k + Z.of_nat
                      (List.length (filter (readable (fsys w)) (q :: rest))))
               mod two64
          /\ (0 <= k < two64 -> 0 <= n < two64)
          /\ forall p,
              if existsb (String.eqb p) (q :: rest) && readable (fsys w) p
              then forall bytes, fst (fs_read p (fsys w)) = Ok bytes ->
                                 indexed_from bytes p (tables w')
              else Sql.select_file p (tables w')
                   = Sql.select_file p (tables w)).
      { intros mt' ca ua tk.
        rewrite upsert_file_healthy by (intro n; apply Hh).
        match goal with
        | |- context [FileService.index_paths rest ?k' ?w1] =>
            destruct (IH k' w1) as (n & w' & Hrun & Hfs & Hfa & Hn & Hb & Hp);
            [intro i; apply Hh|]
        end.
        cbn [fsys fault tables] in Hfs, Hfa, Hn, Hp.
        exists n, w'. split; [exact Hrun|]. split; [exact Hfs|].
        split; [exact Hfa|]. split; [|split].
        - rewrite Hn. cbn [filter]. unfold readable at 2. rewrite Er.
          cbn [fst has_value List.length]. unfold size_add.
          rewrite Zplus_mod_idemp_l. f_equal. lia.
        - intros Hk. apply Hb. unfold size_add.
          apply Z.mod_pos_bound. reflexivity.
        - intros p. specialize (Hp p). cbn [existsb].
          destruct (String.eqb p q) eqn:Epq.
          + apply String.eqb_eq in Epq. subst p.
            unfold readable at 1. rewrite Er. cbn [fst has_value orb andb].
            intros bytes Hb'. inversion Hb'; subst bytes.
            destruct (existsb (String.eqb q) rest && readable (fsys w) q)
              eqn:Elater.
            * apply Hp. rewrite Er. reflexivity.
            * unfold indexed_from. rewrite Hp.
              apply (indexed_after_upsert
                       (FileMetadata.mk q (hash_bytes c)
                                        (Z.of_nat (List.length c))
                                        mt' ca ua false)).
              reflexivity.
          + cbn [orb].
            destruct (existsb (String.eqb p) rest && readable (fsys w) p);
              [exact Hp|].
            rewrite Hp. apply select_file_after_upsert_other.
            cbn [FileMetadata.path]. rewrite String.eqb_sym. exact Epq. }
      destruct mr as [v|e]; unfold_primitives; cbn [fst snd]; apply Hstep.
    + unfold bind at 1. unfold log, emit.
      match goal with
      | |- context [FileService.index_paths rest ?k' ?w1] =>
          destruct (IH k' w1) as (n & w' & Hrun & Hfs & Hfa & Hn & Hb & Hp);
          [intro i; apply Hh|]
      end.
      cbn [fsys fault tables] in Hfs, Hfa, Hn, Hp.
      exists n, w'. split; [exact Hrun|]. split; [exact Hfs|].
      split; [exact Hfa|]. split; [|split; [exact Hb|]].
      * rewrite Hn. cbn [filter]. unfold readable at 2. rewrite Er.
        reflexivity.
      * intros p. specialize (Hp p). cbn [existsb].
        destruct (String.eqb p q) eqn:Epq; [|exact Hp].
        apply String.eqb_eq in Epq. subst p.
        unfold readable at 1. rewrite Er.
        cbn [fst has_value orb andb].
        unfold readable in Hp. rewrite Er in Hp.
        cbn [fst has_value] in Hp. rewrite andb_false_r in Hp. exact Hp.
Qed.

Lemma scan_and_index_steps (w : World F) :
  FileService.scan_and_index w
  = match fs_list_recursive (fsys w) with
    | (Err e, s) =>
        (Err e,
         mkWorld (tables w) s (clock w) (ticks w) (fault w) (ops w)
                 (entropy w) (draws w) (journal w))
    | (Ok listed, s) =>
        let (n, w2) :=
          FileService.index_paths
            listed 0
            (mkWorld (tables w) s (clock w) (ticks w) (fault w) (ops w)
                     (entropy w) (draws w) (journal w)) in
        (Ok n,
         mkWorld (tables w2) (fsys w2) (clock w2) (ticks w2) (fault w2)
                 (ops w2) (entropy w2) (draws w2)
                 (EvLog Info "Indexed {} files" [LNum n] :: journal w2))
    end.
Proof.
  unfold FileService.scan_and_index, Fs.lift. unfold bind at 1.
  destruct (fs_list_recursive (fsys w)) as [[listed|e] s1]; [|reflexivity].
  unfold bind at 1.
  destruct (FileService.index_paths listed 0 _) as [n w2]. reflexivity.
Qed.

(** X7.  Whatever the connection and the content store do,
    [scan_and_index] never drops a record: a path that has a row before
    the scan has one after it, with the same creation time.  So records
    of content that vanished from the store stay in the index, and a
    scan that cannot list the store changes nothing. *)
Theorem scan_and_index_keeps_records
        (w : World F) (p : string) (old : FileMetadata.t) :
  Sql.select_file p (tables w) = Some old ->
  (exists r,
      Sql.select_file p (tables (snd (FileService.scan_and_index w)))
      = Some r
      /\ FileMetadata.created_at r = FileMetadata.created_at old)
  /\ (forall e s,
        fs_list_recursive (fsys w) = (Err e, s) ->
        fst (FileService.scan_and_index w) = Err e
        /\ tables (snd (FileService.scan_and_index w)) = tables w).
Proof.
  intros Hold. rewrite scan_and_index_steps.
  destruct (fs_list_recursive (fsys w)) as [[listed|e] s1].
  - split; [|intros e s Hl; discriminate].
    match goal with
    | |- context [FileService.index_paths listed 0 ?w1] =>
        destruct (index_paths_keeps_rows listed p 0 w1 old Hold)
          as (r & Hr & Hc);
        destruct (FileService.index_paths listed 0 w1) as [n w2]
    end.
    exists r. split; [exact Hr | exact Hc].
  - split.
    + exists old. split; [exact Hold | reflexivity].
    + intros e' s Hl. inversion Hl; subst. split; reflexivity.
Qed.

(** X8.  On a healthy connection, over a content store whose reads do
    not change it and that lists [listed]: [scan_and_index] succeeds;
    it counts the listed paths it could read; every such path ends up
    with a live record whose hash and size are those of the bytes read,
    tombstoned before or not; and the record of every other path, be it
    unlisted or unreadable, is exactly what it was, so no tombstone is
    made for content that is gone. *)
Theorem scan_and_index_revives_content
        (w : World F) (listed : list string) (s0 : F) :
  healthy w ->
  stable_reads ->
  fs_list_recursive (fsys w) = (Ok listed, s0) ->
  exists n w',
    FileService.scan_and_index w = (Ok n, w')
    /\ n = Z.of_nat (List.length (filter (readable s0) listed)) mod two64
    /\ (forall p bytes,
          In p listed ->
          fst (fs_read p s0) = Ok bytes ->
          exists r,
            Sql.select_file p (tables w') = Some r
            /\ FileMetadata.is_deleted r = false
            /\ FileMetadata.hash r = hash_bytes bytes
            /\ FileMetadata.size r = Z.of_nat (List.length bytes))
    /\ (forall p,
          ~ In p listed \/ readable s0 p = false ->
          Sql.select_file p (tables w') = Sql.select_file p (tables w)).
Proof.
  intros Hh Hstable Hlist.
  rewrite scan_and_index_steps, Hlist.
  match goal with
  | |- context [FileService.index_paths listed 0 ?w1] =>
      destruct (index_paths_healthy listed Hstable 0 w1)
        as (n & w2 & Hrun & _ & _ & Hn & Hb & Hp);
      [intro i; apply Hh|]
  end.
  cbn [fsys tables] in Hn, Hp. rewrite Hrun.
  exists n. eexists. split; [reflexivity|]. cbn [tables].
  split; [|split].
  - rewrite Z.add_0_l in Hn. rewrite <- Hn. symmetry.
    apply Z.mod_small. apply Hb. unfold two64. lia.
  - intros p bytes Hin Hread. specialize (Hp p).
    assert (Hex : existsb (String.eqb p) listed = true).
    { apply existsb_exists. exists p. split; [exact Hin|].
      apply String.eqb_refl. }
    unfold readable in Hp. rewrite Hex, Hread in Hp. simpl in Hp.
    destruct (Hp bytes eq_refl) as (r & Hr & _ & Hd & Hhash & Hsize).
    exists r. repeat split; assumption.
  - intros p Hout. specialize (Hp p).
    destruct (existsb (String.eqb p) listed && readable s0 p) eqn:E;
      [|exact Hp].
    exfalso. apply andb_true_iff in E. destruct E as [Hex Hrd].
    destruct Hout as [Hnot|Hunread]; [|congruence].
    apply existsb_exists in Hex. destruct Hex as (q & Hq & Heq).
    apply String.eqb_eq in Heq. subst q. contradiction.
Qed.
End Scan.

Lemma mem_fs_stable_reads : stable_reads (FS := Fixture.mem_fs).
Proof.
  intros q s. simpl. unfold Fixture.lookup.
  destruct (find _ (Fixture.entries s)) as [[q' [c t]]|]; split; reflexivity.
Qed.

(** The witness for X7: ["a.txt"] is indexed but gone from the store. *)
Lemma scan_and_index_keeps_records_witness :
  Sql.select_file "a.txt" Fixture.two_files
  = Some (FileMetadata.mk "a.txt" "h1" 1 100 100 100 false)
  /\ exists r,
      Sql.select_file "a.txt"
        (tables (snd (FileService.scan_and_index
                        (Fixture.world Fixture.two_files
                                       Fixture.scan_fs 5000))))
      = Some r
      /\ FileMetadata.created_at r = 100.
Proof.
  split; [reflexivity|].
  exact (proj1 (scan_and_index_keeps_records
                  (FS := Fixture.mem_fs) (FW := Fixture.mem_walk)
                  (SL := Fixture.toy_sync)
                  (Fixture.world Fixture.two_files Fixture.scan_fs 5000)
                  "a.txt"
                  (FileMetadata.mk "a.txt" "h1" 1 100 100 100 false)
                  eq_refl)).
Defined.

(** The witness for X8: the tombstone ["b.txt"] is revived from the
    bytes in the store, ["new.txt"] is indexed, ["a.txt"] is left. *)
Lemma scan_and_index_revives_content_witness :
  healthy (Fixture.world Fixture.two_files Fixture.scan_fs 5000)
  /\ fs_list_recursive Fixture.scan_fs
     = (Ok ["b.txt"; "new.txt"], Fixture.scan_fs)
  /\ exists n w',
      FileService.scan_and_index
        (Fixture.world Fixture.two_files Fixture.scan_fs 5000)
      = (Ok n, w')
      /\ n = 2
      /\ exists r,
          Sql.select_file "b.txt" (tables w') = Some r
          /\ FileMetadata.is_deleted r = false
          /\ FileMetadata.size r = 2.
Proof.
  assert (Hh : healthy (Fixture.world Fixture.two_files Fixture.scan_fs 5000))
    by (intro n; reflexivity).
  split; [exact Hh|]. split; [reflexivity|].
  destruct (scan_and_index_revives_content
              (FS := Fixture.mem_fs) (FW := Fixture.mem_walk)
              (SL := Fixture.toy_sync)
              (Fixture.world Fixture.two_files Fixture.scan_fs 5000)
              ["b.txt"; "new.txt"] Fixture.scan_fs
              Hh mem_fs_stable_reads eq_refl)
    as (n & w' & Hrun & Hn & Hrevive & _).
  exists n, w'. split; [exact Hrun|]. split; [exact Hn|].
  destruct (Hrevive "b.txt" Fixture.hi (or_introl eq_refl) eq_refl)
    as (r & Hr & Hd & _ & Hs).
  exists r. split; [exact Hr|]. split; [exact Hd | exact Hs].
Defined.

(** ** The login protocol *)

Section Login.
Context {F : Type} {SL : SyncLib}.

Lemma find_app_last {A} (f : A -> bool) (l : list A) (x : A) :
  (forall y, In y l -> f y = false) ->
  find f (l ++ [x]) = if f x then Some x else None.
Proof.
  intros Hnone. induction l as [|y l IH]; simpl; [reflexivity|].
  rewrite (Hnone y (or_introl eq_refl)). apply IH.
  intros z Hz. apply Hnone. right. exact Hz.
Qed.

Lemma existsb_false_of_fresh {A} (f : A -> bool) (l : list A) :
  (forall y, In y l -> f y = false) -> existsb f l = false.
Proof.
  intros Hnone. destruct (existsb f l) eqn:E; [|reflexivity].
  apply existsb_exists in E. destruct E as (y & Hy & Hf).
  rewrite (Hnone y Hy) in Hf. discriminate.
Qed.

Lemma create_challenge_healthy
      (self : AuthManager.t) (w : World F) (public_key : string)
      (key : PublicKey) :
  healthy w ->
  AuthManager.is_authorized self public_key = true ->
  parse_public_key public_key = Ok key ->
  (forall r, In r (auth_challenges (tables w)) ->
             ChallengeRow.challenge r <> entropy w (draws w)) ->
  AuthManager.create_challenge self public_key w
  = (Ok (AuthChallenge.mk
           (entropy w (draws w)) public_key
           (i64_add (Z.quot (clock w (ticks w)) 1000)
                    (AuthConfig.challenge_expiry
                       (AuthManager.m_Config self)))),
     mkWorld
       (with_auth_challenges
          (auth_challenges (tables w)
           ++ [ChallengeRow.mk
                 (entropy w (draws w)) public_key
                 (i64_add (Z.quot (clock w (ticks w)) 1000)
                          (AuthConfig.challenge_expiry
                             (AuthManager.m_Config self)))])%list
          (tables w))
       (fsys w) (clock w) (S (ticks w)) (fault w) (S (S (ops w)))
       (entropy w) (S (draws w))
       (EvLog Debug "Created challenge for key: {}..."
              [LStr (substring 0 30 public_key)]
        :: EvSql (InsertChallenge (entropy w (draws w))) :: journal w)).
Proof.
  intros Hh Hauth Hparse Hfresh.
  unfold AuthManager.create_challenge. rewrite Hauth, Hparse. simpl.
  unfold MetadataStore.store_challenge. run_healthy Hh.
  unfold Sql.insert_challenge.
  rewrite existsb_false_of_fresh.
  - run_healthy Hh. reflexivity.
  - intros r Hr. apply String.eqb_neq. exact (Hfresh r Hr).
Qed.

Lemma verify_challenge_healthy
      (self : AuthManager.t) (w : World F) (req : VerifyRequest.t)
      (key : PublicKey) (row : ChallengeRow.t) :
  healthy w ->
  Sql.select_live_challenge (VerifyRequest.challenge req)
                            (VerifyRequest.public_key req)
                            (Z.quot (clock w (ticks w)) 1000) (tables w)
  = Some row ->
  parse_public_key (VerifyRequest.public_key req) = Ok key ->
  verify_signature key (VerifyRequest.challenge req)
                   (VerifyRequest.signature req) = Ok true ->
  (forall r, In r (auth_tokens (tables w)) ->
             TokenRow.token r <> entropy w (draws w)) ->
  exists w2,
    AuthManager.verify_challenge self req w
    = (Ok (AuthToken.mk
             (entropy w (draws w))
             (i64_add (Z.quot (clock w (S (ticks w))) 1000)
                      (AuthConfig.token_expiry (AuthManager.m_Config self)))),
       w2)
    /\ healthy w2
    /\ clock w2 = clock w
    /\ ticks w2 = S (S (S (ticks w)))
    /\ auth_challenges (tables w2)
       = auth_challenges
           (Sql.delete_challenge (VerifyRequest.challenge req) (tables w))
    /\ auth_tokens (tables w2)
       = (auth_tokens (tables w)
          ++ [TokenRow.mk
                (entropy w (draws w))
                (Z.quot (clock w (S (S (ticks w)))) 1000)
                (i64_add (Z.quot (clock w (S (ticks w))) 1000)
                         (AuthConfig.token_expiry
                            (AuthManager.m_Config self)))
                None])%list.
Proof.
  intros Hh Hlive Hparse Hsig Hfresh.
  unfold AuthManager.verify_challenge. unfold bind at 1.
  rewrite validate_challenge_healthy by exact Hh. rewrite Hlive.
  cbn [negb]. rewrite Hparse, Hsig.
  unfold MetadataStore.store_token. run_healthy Hh.
  unfold Sql.insert_token. cbn [auth_tokens Sql.delete_challenge
                                with_auth_challenges].
  rewrite existsb_false_of_fresh.
  - run_healthy Hh. eexists. split; [reflexivity|]. simpl.
    repeat split. exact Hh.
  - intros r Hr. apply String.eqb_neq. exact (Hfresh r Hr).
Qed.

(** X9.  A full login on a healthy connection.  The key is authorised
    and well formed, the random source hands out a challenge and a token
    that are not in the tables yet, the answer carries a signature that
    verifies, the verification happens before the challenge expires and
    the token is used before it expires (the five clock readings of the
    three calls are [t0] to [t4], in that order).  Then
    [create_challenge] issues the challenge, [verify_challenge] accepts
    the answer and issues the token, the challenge is gone from the
    table afterwards, and [validate_token] accepts the token. *)
Theorem login_round_trip
        (self : AuthManager.t) (w : World F)
        (public_key signature : string) (key : PublicKey) :
  let challenge := entropy w (draws w) in
  let token := entropy w (S (draws w)) in
  let t0 := clock w (ticks w) in
  let t1 := clock w (S (ticks w)) in
  let t2 := clock w (S (S (ticks w))) in
  let t4 := clock w (S (S (S (S (ticks w))))) in
  let challenge_expires :=
    i64_add (Z.quot t0 1000)
            (AuthConfig.challenge_expiry (AuthManager.m_Config self)) in
  let token_expires :=
    i64_add (Z.quot t2 1000)
            (AuthConfig.token_expiry (AuthManager.m_Config self)) in
  healthy w ->
  AuthManager.is_authorized self public_key = true ->
  parse_public_key public_key = Ok key ->
  verify_signature key challenge signature = Ok true ->
  (forall r, In r (auth_challenges (tables w)) ->
             ChallengeRow.challenge r <> challenge) ->
  (forall r, In r (auth_tokens (tables w)) -> TokenRow.token r <> token) ->
  Z.quot t1 1000 < challenge_expires ->
  Z.quot t4 1000 < token_expires ->
  exists w1 w2 w3,
    AuthManager.create_challenge self public_key w
    = (Ok (AuthChallenge.mk challenge public_key challenge_expires), w1)
    /\ AuthManager.verify_challenge
         self (VerifyRequest.mk challenge public_key signature) w1
       = (Ok (AuthToken.mk token token_expires), w2)
    /\ (forall r, In r (auth_challenges (tables w2)) ->
                  ChallengeRow.challenge r <> challenge)
    /\ AuthManager.validate_token token w2 = (Ok true, w3).
Proof.
  cbv zeta.
  intros Hh Hauth Hparse Hsig Hfresh_c Hfresh_t Htime1 Htime4.
  rewrite (create_challenge_healthy self w public_key key)
    by assumption.
  match goal with
  | |- exists w1 w2 w3, (_, ?W1) = _ /\ _ => exists W1
  end.
  match goal with
  | |- exists w2 w3, _ /\ AuthManager.verify_challenge _ ?req ?w1 = _ /\ _ =>
      destruct (verify_challenge_healthy
                  self w1 req key
                  (ChallengeRow.mk
                     (entropy w (draws w)) public_key
                     (i64_add (Z.quot (clock w (ticks w)) 1000)
                              (AuthConfig.challenge_expiry
                                 (AuthManager.m_Config self)))))
        as (w2 & Hver & Hh2 & Hck & Htk & Hch & Htok)
  end.
  - exact Hh.
  - unfold Sql.select_live_challenge. simpl. rewrite find_app_last.
    + simpl. rewrite !String.eqb_refl. simpl.
      apply Z.ltb_lt in Htime1. rewrite Htime1. reflexivity.
    + intros r Hr. apply andb_false_iff. left. apply andb_false_iff. left.
      apply String.eqb_neq. exact (Hfresh_c r Hr).
  - exact Hparse.
  - exact Hsig.
  - exact Hfresh_t.
  - simpl in Hver, Hck, Htk, Hch, Htok.
    exists w2,
      (snd (MetadataStore.validate_token (entropy w (S (draws w))) w2)).
    split; [reflexivity|]. split; [exact Hver|].
    split.
    + rewrite Hch. intros r Hr. apply filter_In in Hr.
      destruct Hr as [_ Hne]. apply negb_true_iff in Hne.
      apply String.eqb_neq. exact Hne.
    + unfold AuthManager.validate_token.
      pose proof (validate_token_healthy w2 (entropy w (S (draws w))) Hh2)
        as Hval.
      cbv zeta in Hval. rewrite Hck, Htk in Hval.
      unfold Sql.select_live_token in Hval. rewrite Htok in Hval.
      rewrite find_app_last in Hval.
      * simpl in Hval. rewrite String.eqb_refl in Hval. simpl in Hval.
        apply Z.ltb_lt in Htime4. rewrite Htime4 in Hval.
        destruct Hval as [Hres _].
        destruct (MetadataStore.validate_token _ w2) as [res w3].
        simpl in Hres. subst res. reflexivity.
      * intros r Hr. apply andb_false_iff. left.
        apply String.eqb_neq. exact (Hfresh_t r Hr).
Qed.

(** X10.  A lookup that does not match leaves the challenge alone.  On
    a healthy connection, when every row of the challenge belongs to
    another key or has expired, [verify_challenge] fails with "Invalid
    or expired challenge" and the tables are exactly what they were: the
    row is still there for its own key, and an expired row is not
    deleted either. *)
Theorem verify_challenge_mismatch_keeps_row
        (self : AuthManager.t) (w : World F) (req : VerifyRequest.t) :
  healthy w ->
  (forall r, In r (auth_challenges (tables w)) ->
             ChallengeRow.challenge r = VerifyRequest.challenge req ->
             ChallengeRow.public_key r <> VerifyRequest.public_key req
             \/ ChallengeRow.expires_at r
                <= Z.quot (clock w (ticks w)) 1000) ->
  fst (AuthManager.verify_challenge self req w)
  = Err "Invalid or expired challenge"
  /\ tables (snd (AuthManager.verify_challenge self req w)) = tables w.
Proof.
  intros Hh Hrows.
  assert (Hnone :
    Sql.select_live_challenge (VerifyRequest.challenge req)
                              (VerifyRequest.public_key req)
                              (Z.quot (clock w (ticks w)) 1000) (tables w)
    = None).
  { unfold Sql.select_live_challenge.
    destruct (find _ (auth_challenges (tables w))) as [r|] eqn:E;
      [|reflexivity].
    apply find_some in E. destruct E as [Hin Hc].
    apply andb_true_iff in Hc. destruct Hc as [Hc Hlt].
    apply andb_true_iff in Hc. destruct Hc as [Hc Hk].
    apply String.eqb_eq in Hc. apply String.eqb_eq in Hk.
    apply Z.ltb_lt in Hlt.
    destruct (Hrows r Hin Hc) as [Hne|Hexp]; [contradiction | lia]. }
  unfold AuthManager.verify_challenge. unfold bind.
  rewrite validate_challenge_healthy by exact Hh. rewrite Hnone.
  split; reflexivity.
Qed.

(** X11.  Whatever the connection does, [cleanup_expired] never touches
    a challenge, never adds a token and never removes a token that has
    not expired at its clock reading [now] ([expires_at >= now]); on a
    healthy connection it succeeds and no token with [expires_at < now]
    is left. *)
Theorem cleanup_expired_sweeps_only_expired_tokens (w : World F) :
  let now := Z.quot (clock w (ticks w)) 1000 in
  let w' := snd (AuthManager.cleanup_expired w) in
  auth_challenges (tables w') = auth_challenges (tables w)
  /\ (forall r, In r (auth_tokens (tables w')) ->
                In r (auth_tokens (tables w)))
  /\ (forall r, In r (auth_tokens (tables w)) ->
                now <= TokenRow.expires_at r ->
                In r (auth_tokens (tables w')))
  /\ (healthy w ->
      fst (AuthManager.cleanup_expired w) = Ok tt
      /\ forall r, In r (auth_tokens (tables w')) ->
                   now <= TokenRow.expires_at r).
Proof.
  cbv zeta.
  assert (Hkeep : forall r,
    In r (auth_tokens (tables w)) ->
    Z.quot (clock w (ticks w)) 1000 <= TokenRow.expires_at r ->
    In r (auth_tokens
            (Sql.delete_expired_tokens (Z.quot (clock w (ticks w)) 1000)
                                       (tables w)))).
  { intros r Hin Hle. unfold Sql.delete_expired_tokens. simpl.
    apply filter_In. split; [exact Hin|].
    apply negb_true_iff. apply Z.ltb_ge. exact Hle. }
  assert (Hsub : forall r,
    In r (auth_tokens
            (Sql.delete_expired_tokens (Z.quot (clock w (ticks w)) 1000)
                                       (tables w))) ->
    In r (auth_tokens (tables w))
    /\ Z.quot (clock w (ticks w)) 1000 <= TokenRow.expires_at r).
  { intros r Hin. unfold Sql.delete_expired_tokens in Hin. simpl in Hin.
    apply filter_In in Hin. destruct Hin as [Hin Hge].
    apply negb_true_iff in Hge. apply Z.ltb_ge in Hge. tauto. }
  unfold AuthManager.cleanup_expired, MetadataStore.cleanup_expired_tokens.
  unfold_primitives. simpl.
  destruct (fault w (ops w)) eqn:E0; simpl.
  - split; [reflexivity|]. split; [auto|]. split; [auto|].
    intros Hh. rewrite Hh in E0. discriminate.
  - destruct (fault w (S (ops w))) eqn:E1; simpl.
    + split; [reflexivity|]. split; [auto|]. split; [auto|].
      intros Hh. rewrite Hh in E1. discriminate.
    + split; [reflexivity|]. split; [intros r Hr; apply Hsub; exact Hr|].
      split; [exact Hkeep|]. intros _. split; [reflexivity|].
      intros r Hr. apply Hsub. exact Hr.
Qed.
End Login.

(** The witness for X9: the authorised key logs in on a fresh server;
    the clock advances one second per reading. *)
Lemma login_round_trip_witness :
  healthy Fixture.fresh
  /\ AuthManager.is_authorized Fixture.manager Fixture.key = true
  /\ exists w1 w2 w3,
      AuthManager.create_challenge Fixture.manager Fixture.key Fixture.fresh
      = (Ok (AuthChallenge.mk "nonce-0" Fixture.key 1300), w1)
      /\ AuthManager.verify_challenge Fixture.manager Fixture.right_answer w1
         = (Ok (AuthToken.mk "nonce-1" 4602), w2)
      /\ AuthManager.validate_token "nonce-1" w2 = (Ok true, w3).
Proof.
  assert (Hh : healthy Fixture.fresh) by (intro n; reflexivity).
  split; [exact Hh|]. split; [reflexivity|].
  destruct (login_round_trip
              (SL := Fixture.toy_sync)
              Fixture.manager Fixture.fresh Fixture.key
              "ssh-ed25519 AAAA/nonce-0" Fixture.key
              Hh eq_refl eq_refl eq_refl
              (fun r (H : In r []) => False_ind _ H)
              (fun r (H : In r []) => False_ind _ H)
              eq_refl eq_refl)
    as (w1 & w2 & w3 & Hc & Hv & _ & Ht).
  exists w1, w2, w3. split; [exact Hc|]. split; [exact Hv | exact Ht].
Defined.

(** The witness for X10: another key presents the issued challenge. *)
Lemma verify_challenge_mismatch_keeps_row_witness :
  healthy Fixture.issued
  /\ fst (AuthManager.verify_challenge
            Fixture.manager
            (VerifyRequest.mk "nonce-0" "ssh-ed25519 BBBB" "forged")
            Fixture.issued)
     = Err "Invalid or expired challenge"
  /\ auth_challenges
       (tables
          (snd (AuthManager.verify_challenge
                  Fixture.manager
                  (VerifyRequest.mk "nonce-0" "ssh-ed25519 BBBB" "forged")
                  Fixture.issued)))
     = [ChallengeRow.mk "nonce-0" Fixture.key 1300].
Proof.
  assert (Hh : healthy Fixture.issued) by (intro n; reflexivity).
  split; [exact Hh|].
  destruct (verify_challenge_mismatch_keeps_row
              (SL := Fixture.toy_sync)
              Fixture.manager Fixture.issued
              (VerifyRequest.mk "nonce-0" "ssh-ed25519 BBBB" "forged") Hh)
    as [Hres Htab].
  - intros r [Hr|[]] _. subst r. left. discriminate.
  - split; [exact Hres|]. rewrite Htab. reflexivity.
Defined.

(** ** Tags through GROUP_CONCAT and getline *)

Section TagText.

(** [s] has no comma. *)
Fixpoint comma_free (s : string) : bool :=
  match s with
  | EmptyString => true
  | String c rest => negb (Ascii.eqb c ","%char) && comma_free rest
  end.

(** [names] without its last element when that one is empty. *)
Fixpoint strip_empty_last (names : list string) : list string :=
  match names with
  | [] => []
  | [n] => match n with EmptyString => [] | _ => [n] end
  | n :: rest => n :: strip_empty_last rest
  end.

Lemma append_assoc (a b c : string) : (a ++ b) ++ c = a ++ (b ++ c).
Proof. induction a as [|x a IH]; simpl; [reflexivity | now rewrite IH]. Qed.

Lemma append_empty_r (a : string) : a ++ EmptyString = a.
Proof. induction a as [|x a IH]; simpl; [reflexivity | now rewrite IH]. Qed.

Lemma comma_free_append (a b : string) :
  comma_free (a ++ b) = comma_free a && comma_free b.
Proof.
  induction a as [|x a IH]; simpl; [reflexivity|].
  rewrite IH. apply andb_assoc.
Qed.

(** Reading through a comma-free word only grows the current piece. *)
Lemma getline_pieces_word (n : string) :
  comma_free n = true ->
  forall rest piece,
    MetadataStore.getline_pieces (n ++ rest) piece
    = MetadataStore.getline_pieces rest (piece ++ n).
Proof.
  induction n as [|c n IH]; simpl; intros Hfree rest piece.
  - now rewrite append_empty_r.
  - apply andb_true_iff in Hfree. destruct Hfree as [Hc Hn].
    apply negb_true_iff in Hc. rewrite Hc.
    rewrite (IH Hn). f_equal. rewrite append_assoc. reflexivity.
Qed.

Lemma getline_pieces_joined (names : list string) :
  Forall (fun n => comma_free n = true) names ->
  MetadataStore.getline_pieces (Sql.join_commas names) EmptyString
  = strip_empty_last names.
Proof.
  induction names as [|n rest IH]; intros Hfree; [reflexivity|].
  inversion Hfree as [|? ? Hn Hrest]; subst.
  destruct rest as [|m rest'].
  - simpl Sql.join_commas.
    rewrite <- (append_empty_r n) at 1.
    rewrite (getline_pieces_word n Hn). simpl.
    destruct n; reflexivity.
  - change (Sql.join_commas (n :: m :: rest'))
      with (n ++ "," ++ Sql.join_commas (m :: rest')).
    rewrite (getline_pieces_word n Hn).
    change ("," ++ Sql.join_commas (m :: rest'))
      with (String ","%char (Sql.join_commas (m :: rest'))).
    change (MetadataStore.getline_pieces
              (String ","%char (Sql.join_commas (m :: rest')))
              (EmptyString ++ n))
      with (n :: MetadataStore.getline_pieces
                   (Sql.join_commas (m :: rest')) EmptyString).
    rewrite (IH Hrest). reflexivity.
Qed.

(** The pieces [getline] cuts never hold a comma. *)
Lemma getline_pieces_comma_free (s : string) :
  forall piece,
    comma_free piece = true ->
    Forall (fun n => comma_free n = true)
           (MetadataStore.getline_pieces s piece).
Proof.
  induction s as [|c s IH]; simpl; intros piece Hp.
  - destruct piece; constructor; [exact Hp | constructor].
  - destruct (Ascii.eqb c ","%char) eqn:E.
    + constructor; [exact Hp | apply IH; reflexivity].
    + apply IH. rewrite comma_free_append, Hp. simpl. rewrite E. reflexivity.
Qed.

Lemma strip_empty_last_fixed (names : list string) :
  strip_empty_last names = names <-> last names "x" <> EmptyString.
Proof.
  induction names as [|n rest IH].
  - simpl. split; [discriminate | reflexivity].
  - destruct rest as [|m rest'].
    + simpl. destruct n; split; solve [congruence | discriminate | reflexivity].
    + change (strip_empty_last (n :: m :: rest'))
        with (n :: strip_empty_last (m :: rest')).
      change (last (n :: m :: rest') "x") with (last (m :: rest') "x").
      rewrite <- IH. split; intros H.
      * injection H as H. exact H.
      * rewrite H. reflexivity.
Qed.

Lemma group_concat_names (names : list string) :
  Sql.group_concat (map Some names)
  = match names with
    | [] => None
    | _ => Some (Sql.join_commas names)
    end.
Proof.
  unfold Sql.group_concat.
  assert (H : flat_map (fun o : option string =>
                          match o with Some s => [s] | None => [] end)
                       (map Some names) = names).
  { induction names as [|n rest IH]; simpl; [reflexivity | now rewrite IH]. }
  rewrite H. destruct names; reflexivity.
Qed.

(** X12.  The tags of a note are written with [GROUP_CONCAT] and read
    back with [getline] on commas.  A list of tag names comes back
    unchanged exactly when no name holds a comma and the last name is
    not empty; otherwise a name with a comma is cut in two and an empty
    last name is lost. *)
Theorem tags_text_round_trip (names : list string) :
  MetadataStore.parse_tags (Sql.group_concat (map Some names)) = names
  <-> Forall (fun n => comma_free n = true) names
      /\ last names "x" <> EmptyString.
Proof.
  rewrite group_concat_names.
  assert (Hparse :
    MetadataStore.parse_tags
      match names with [] => None | _ => Some (Sql.join_commas names) end
    = MetadataStore.getline_pieces (Sql.join_commas names) EmptyString).
  { destruct names as [|n rest]; [reflexivity|].
    unfold MetadataStore.parse_tags.
    destruct (Sql.join_commas (n :: rest)); reflexivity. }
  rewrite Hparse. split.
  - intros Hrt.
    assert (Hfree : Forall (fun n => comma_free n = true) names).
    { rewrite <- Hrt. apply getline_pieces_comma_free. reflexivity. }
    split; [exact Hfree|].
    apply strip_empty_last_fixed.
    rewrite <- (getline_pieces_joined names Hfree). exact Hrt.
  - intros [Hfree Hlast].
    rewrite (getline_pieces_joined names Hfree).
    apply strip_empty_last_fixed. exact Hlast.
Qed.
End TagText.

(* ================================================================== *)
(** ** What the note listings hold *)


Section Listings.
Context {F : Type} {FS : Filesystem F} {SL : SyncLib} {FT : Fts5}.

(** The note [n] carries a link to a tag called [tag]. *)
Definition linked_to (t : Tables) (n : NoteRow.t) (tag : string) : Prop :=
  exists nt tg,
    In nt (note_tags t) /\ In tg (tags t)
    /\ NoteTag.note_id nt = NoteRow.id n
    /\ NoteTag.tag_id nt = TagRow.id tg
    /\ TagRow.name tg = tag.

Lemma select_all_notes_rows (t : Tables) (res : Sql.NoteResult) :
  In res (Sql.select_all_notes t) ->
  In (fst res) (notes t) /\ NoteRow.is_deleted (fst res) = false.
Proof.
  unfold Sql.select_all_notes. intros Hin.
  apply In_order_by, In_order_by in Hin.
  apply grouped_notes_from_rows in Hin. destruct Hin as (j & Hj & ->).
  apply filter_In in Hj. destruct Hj as [Hj Hlive].
  apply with_tag_names_note in Hj. apply negb_true_iff in Hlive. auto.
Qed.

Lemma select_notes_by_tag_rows (tag : string) (t : Tables)
      (res : Sql.NoteResult) :
  In res (Sql.select_notes_by_tag tag t) ->
  In (fst res) (notes t) /\ NoteRow.is_deleted (fst res) = false
  /\ linked_to t (fst res) tag.
Proof.
  unfold Sql.select_notes_by_tag. intros Hin.
  apply In_order_by, In_order_by in Hin.
  apply grouped_notes_from_rows in Hin. destruct Hin as (j & Hj & ->).
  apply with_tag_names_note in Hj. apply in_map_iff in Hj.
  destruct Hj as (hit & <- & Hhit).
  apply filter_In in Hhit. destruct Hhit as [Hhit Hcond].
  apply andb_true_iff in Hcond. destruct Hcond as [Hname Hlive].
  apply String.eqb_eq in Hname. apply negb_true_iff in Hlive.
  apply inner_join_In in Hhit. destruct Hhit as (Hpair & Htg & Hid).
  apply inner_join_In in Hpair. destruct Hpair as (Hn & Hnt & Hon).
  unfold Sql.on_note_link in Hon. apply String.eqb_eq in Hon.
  apply Z.eqb_eq in Hid.
  split; [exact Hn|]. split; [exact Hlive|].
  exists (snd (fst hit)), (snd hit). auto.
Qed.

Lemma select_search_rows (q : string) (t : Tables)
      (rows : list Sql.NoteResult) (res : Sql.NoteResult) :
  Sql.select_search q t = Ok rows ->
  In res rows ->
  In (fst res) (notes t) /\ NoteRow.is_deleted (fst res) = false.
Proof.
  unfold Sql.select_search. intros Hq Hin.
  destruct (fts5_match q (notes_fts t)) as [hits|e]; [|discriminate].
  injection Hq as <-.
  apply grouped_notes_from_rows in Hin. destruct Hin as (j & Hj & ->).
  apply with_tag_names_note in Hj. apply in_flat_map in Hj.
  destruct Hj as (f & _ & Hn). apply filter_In in Hn.
  destruct Hn as [Hn Hcond]. apply andb_true_iff in Hcond.
  destruct Hcond as [_ Hlive]. apply negb_true_iff in Hlive. auto.
Qed.

Lemma note_ids_of_rows (rows : list Sql.NoteResult) :
  map NoteMetadata.id (map MetadataStore.note_of_row rows)
  = map (fun r : Sql.NoteResult => NoteRow.id (fst r)) rows.
Proof. rewrite map_map. reflexivity. Qed.

Lemma live_note_ids_of_rows (rows : list Sql.NoteResult) :
  map NoteMetadata.id (map MetadataStore.live_note_of_row rows)
  = map (fun r : Sql.NoteResult => NoteRow.id (fst r)) rows.
Proof. rewrite map_map. reflexivity. Qed.

Lemma ordered_ids (first last : Sql.NoteResult -> Sql.NoteResult -> bool)
      (rows : list Sql.NoteJoin) :
  NoDup (map (fun r : Sql.NoteResult => NoteRow.id (fst r))
             (Sql.order_by last
                           (Sql.order_by first (Sql.grouped_notes rows)))).
Proof.
  eapply Permutation_NoDup; [|apply (grouped_notes_ids rows)].
  apply Permutation_map. apply Permutation_sym.
  eapply perm_trans; apply order_by_perm.
Qed.

Lemma ordered_newest_first (rows : list Sql.NoteResult) :
  Sorted Z.ge
         (map (fun r : Sql.NoteResult => NoteRow.updated_at (fst r))
              (Sql.order_by Sql.by_updated_desc rows)).
Proof.
  apply Sorted_map with (R := fun a b => Sql.by_updated_desc a b = true).
  - unfold Sql.by_updated_desc. intros a b Hab.
    apply Z.leb_le in Hab. lia.
  - apply order_by_sorted. unfold Sql.by_updated_desc. intros a b Hab.
    apply Z.leb_gt in Hab. apply Z.leb_le. lia.
Qed.

(** The record [m] shows the row [n]. *)
Definition shows (m : NoteMetadata.t) (n : NoteRow.t) : Prop :=
  NoteMetadata.id m = NoteRow.id n
  /\ NoteMetadata.title m = NoteRow.title n
  /\ NoteMetadata.updated_at m = NoteRow.updated_at n.

(** What the three listing statements answer: each note once, only live
    rows of [notes], with a filter by tag only notes linked to that tag,
    and without a search the newest first. *)
Lemma matching_sound (options : ListOptions.t) (t : Tables)
      (found : list NoteMetadata.t) :
  matching options t = Ok found ->
  NoDup (map NoteMetadata.id found)
  /\ (forall m, In m found ->
        exists n, In n (notes t) /\ NoteRow.is_deleted n = false
                  /\ shows m n
                  /\ (ListOptions.search options = None ->
                      forall tag, ListOptions.tag options = Some tag ->
                                  linked_to t n tag))
  /\ (ListOptions.search options = None ->
      Sorted Z.ge (map NoteMetadata.updated_at found)).
Proof.
  unfold matching. intros Hm.
  destruct (ListOptions.search options) as [q|].
  - destruct (Sql.select_search q t) as [rows|e] eqn:Hq; [|discriminate].
    injection Hm as <-. split; [|split; [|discriminate]].
    + rewrite live_note_ids_of_rows. unfold Sql.select_search in Hq.
      destruct (fts5_match q (notes_fts t)); [|discriminate].
      injection Hq as <-. apply grouped_notes_ids.
    + intros m Hin. apply in_map_iff in Hin. destruct Hin as (res & <- & Hres).
      destruct (select_search_rows q t rows res Hq Hres) as [Hn Hlive].
      exists (fst res). split; [exact Hn|]. split; [exact Hlive|].
      split; [repeat split | discriminate].
  - destruct (ListOptions.tag options) as [tag|]; injection Hm as <-.
    + split; [|split].
      * rewrite live_note_ids_of_rows. apply ordered_ids.
      * intros m Hin. apply in_map_iff in Hin.
        destruct Hin as (res & <- & Hres).
        destruct (select_notes_by_tag_rows tag t res Hres)
          as (Hn & Hlive & Hlink).
        exists (fst res). split; [exact Hn|]. split; [exact Hlive|].
        split; [repeat split|]. intros _ tag' Htag.
        injection Htag as <-. exact Hlink.
      * intros _. rewrite map_map. apply ordered_newest_first.
    + split; [|split].
      * rewrite note_ids_of_rows. apply ordered_ids.
      * intros m Hin. apply in_map_iff in Hin.
        destruct Hin as (res & <- & Hres).
        destruct (select_all_notes_rows t res Hres) as [Hn Hlive].
        exists (fst res). split; [exact Hn|]. split; [exact Hlive|].
        split; [repeat split | discriminate].
      * intros _. rewrite map_map. apply ordered_newest_first.
Qed.

Lemma slice_middle {A} (start stop : Z) (l : list A) :
  exists a b, l = (a ++ NoteService.slice start stop l ++ b)%list.
Proof.
  unfold NoteService.slice. destruct (start <? stop).
  - exists (firstn (Z.to_nat start) l),
           (skipn (Z.to_nat (stop - start)) (skipn (Z.to_nat start) l)).
    rewrite firstn_skipn, firstn_skipn. reflexivity.
  - exists [], l. reflexivity.
Qed.

(** Whatever the connection does, an answer of [list_notes] is a page of
    the notes its statement selects. *)
Lemma list_notes_answer (w w' : World F) (options : ListOptions.t)
      (resp : NoteListResponse.t) :
  NoteService.list_notes options w = (Ok resp, w') ->
  exists found a b page,
    matching options (tables w) = Ok found
    /\ found = (a ++ page ++ b)%list
    /\ Forall2 item_of page (NoteListResponse.notes resp).
Proof.
  unfold matching, NoteService.list_notes. unfold bind at 1.
  destruct (ListOptions.search options) as [q|];
    [|destruct (ListOptions.tag options) as [tag|]].
  - unfold MetadataStore.search_notes. unfold_primitives. simpl.
    destruct (fault w (ops w)); simpl; [discriminate|].
    destruct (fault w (S (ops w))); simpl; [discriminate|].
    destruct (Sql.select_search q (tables w)) as [rows|e]; simpl;
      [|discriminate].
    lazymatch goal with
    | |- context [NoteService.load_items ?pg ?w1] =>
        destruct (load_items_page pg w1) as (items & w2 & Hrun & Hit & Ht);
        rewrite Hrun
    end.
    intros Heq. injection Heq as <- _. simpl.
    lazymatch type of Hit with
    | Forall2 _ (NoteService.slice ?s ?e ?l) _ =>
        destruct (slice_middle s e l) as (a & b & Hsplit)
    end.
    eexists. exists a, b. eexists.
    split; [reflexivity|]. split; [exact Hsplit | exact Hit].
  - unfold MetadataStore.get_notes_by_tag. unfold_primitives. simpl.
    destruct (fault w (ops w)); simpl; [discriminate|].
    destruct (fault w (S (ops w))); simpl; [discriminate|].
    lazymatch goal with
    | |- context [NoteService.load_items ?pg ?w1] =>
        destruct (load_items_page pg w1) as (items & w2 & Hrun & Hit & Ht);
        rewrite Hrun
    end.
    intros Heq. injection Heq as <- _. simpl.
    lazymatch type of Hit with
    | Forall2 _ (NoteService.slice ?s ?e ?l) _ =>
        destruct (slice_middle s e l) as (a & b & Hsplit)
    end.
    eexists. exists a, b. eexists.
    split; [reflexivity|]. split; [exact Hsplit | exact Hit].
  - unfold MetadataStore.get_all_notes. unfold_primitives. simpl.
    destruct (fault w (ops w)); simpl; [discriminate|].
    lazymatch goal with
    | |- context [NoteService.load_items ?pg ?w1] =>
        destruct (load_items_page pg w1) as (items & w2 & Hrun & Hit & Ht);
        rewrite Hrun
    end.
    intros Heq. injection Heq as <- _. simpl.
    lazymatch type of Hit with
    | Forall2 _ (NoteService.slice ?s ?e ?l) _ =>
        destruct (slice_middle s e l) as (a & b & Hsplit)
    end.
    eexists. exists a, b. eexists.
    split; [reflexivity|]. split; [exact Hsplit | exact Hit].
Qed.

Lemma items_ids (page : list NoteMetadata.t) (items : list NoteListItem.t) :
  Forall2 item_of page items ->
  map NoteListItem.id items = map NoteMetadata.id page
  /\ map NoteListItem.updated_at items = map NoteMetadata.updated_at page.
Proof.
  induction 1 as [|m item page items Hitem _ IH]; simpl; [auto|].
  destruct IH as [-> ->]. destruct Hitem as [content ->]. simpl. auto.
Qed.

Lemma items_from_page (page : list NoteMetadata.t)
      (items : list NoteListItem.t) (item : NoteListItem.t) :
  Forall2 item_of page items ->
  In item items ->
  exists m, In m page /\ item_of m item.
Proof.
  induction 1 as [|m i page items Hitem _ IH]; simpl; [intros []|].
  intros [<-|Hin].
  - exists m. auto.
  - destruct (IH Hin) as (m' & Hm' & Hi). exists m'. auto.
Qed.

(** X13.  Whatever the connection and the content store do, an answer of
    [list_notes] names each note at most once, and every entry is the
    entry of a row of [notes] that is not tombstoned: it has the row's
    id, title and update time.  With a filter by tag (and no search)
    the note of every entry is linked to a tag of that name. *)
Theorem list_notes_lists_live_notes_once
        (w w' : World F) (options : ListOptions.t)
        (resp : NoteListResponse.t) :
  NoteService.list_notes options w = (Ok resp, w') ->
  NoDup (map NoteListItem.id (NoteListResponse.notes resp))
  /\ forall item,
       In item (NoteListResponse.notes resp) ->
       exists n,
         In n (notes (tables w)) /\ NoteRow.is_deleted n = false
         /\ NoteListItem.id item = NoteRow.id n
         /\ NoteListItem.title item = NoteRow.title n
         /\ NoteListItem.updated_at item = NoteRow.updated_at n
         /\ (ListOptions.search options = None ->
             forall tag, ListOptions.tag options = Some tag ->
                         linked_to (tables w) n tag).
Proof.
  intros Hrun.
  destruct (list_notes_answer w w' options resp Hrun)
    as (found & a & b & page & Hfound & Hsplit & Hitems).
  destruct (matching_sound options (tables w) found Hfound)
    as (Hnd & Hrows & _).
  split.
  - destruct (items_ids page _ Hitems) as [-> _].
    rewrite Hsplit, !map_app in Hnd. apply NoDup_middle in Hnd. exact Hnd.
  - intros item Hin.
    destruct (items_from_page _ _ _ Hitems Hin) as (m & Hm & Hitem).
    destruct (Hrows m) as (n & Hn & Hlive & (Hid & Htitle & Hupd) & Hlink).
    { rewrite Hsplit. apply in_or_app. right. apply in_or_app. left.
      exact Hm. }
    destruct Hitem as [content ->]. simpl.
    exists n. tauto.
Qed.

(** X14.  Without a search, an answer of [list_notes] has the most
    recently updated notes first, on every page. *)
Theorem list_notes_newest_first
        (w w' : World F) (options : ListOptions.t)
        (resp : NoteListResponse.t) :
  NoteService.list_notes options w = (Ok resp, w') ->
  ListOptions.search options = None ->
  Sorted Z.ge (map NoteListItem.updated_at (NoteListResponse.notes resp)).
Proof.
  intros Hrun Hplain.
  destruct (list_notes_answer w w' options resp Hrun)
    as (found & a & b & page & Hfound & Hsplit & Hitems).
  destruct (matching_sound options (tables w) found Hfound)
    as (_ & _ & Hsorted).
  specialize (Hsorted Hplain).
  destruct (items_ids page _ Hitems) as [_ ->].
  rewrite Hsplit, !map_app in Hsorted.
  apply Sorted_middle in Hsorted. exact Hsorted.
Qed.
End Listings.

(** *** Pagination after filtering *)

Section Pagination.
Context {F : Type} {FS : Filesystem F} {SL : SyncLib} {FT : Fts5}.











End Pagination.

Section PaginationClaim.
Context {F : Type} {FS : Filesystem F} {SL : SyncLib} {FT : Fts5}.



End PaginationClaim.



(** The witness for X13: the notes tagged ["x"]; the tombstoned note
    ["gone"] carries the tag as well and is not listed. *)
Lemma list_notes_lists_live_notes_once_witness :
  NoteService.list_notes
    (ListOptions.mk (Some "x") None 50 0)
    (Fixture.world Fixture.four_notes Fixture.empty_fs 5000)
  = (Ok (NoteListResponse.mk
           [NoteListItem.mk "c" "C" ["x"] 40 EmptyString;
            NoteListItem.mk "a" "A" ["x"] 10 EmptyString] 2),
     snd (NoteService.list_notes
            (ListOptions.mk (Some "x") None 50 0)
            (Fixture.world Fixture.four_notes Fixture.empty_fs 5000)))
  /\ NoDup ["c"; "a"].
Proof.
  assert (Hrun :
    NoteService.list_notes
      (ListOptions.mk (Some "x") None 50 0)
      (Fixture.world Fixture.four_notes Fixture.empty_fs 5000)
    = (Ok (NoteListResponse.mk
             [NoteListItem.mk "c" "C" ["x"] 40 EmptyString;
              NoteListItem.mk "a" "A" ["x"] 10 EmptyString] 2),
       snd (NoteService.list_notes
              (ListOptions.mk (Some "x") None 50 0)
              (Fixture.world Fixture.four_notes Fixture.empty_fs 5000))))
    by (vm_compute; reflexivity).
  split; [exact Hrun|].
  exact (proj1 (list_notes_lists_live_notes_once
                  (FS := Fixture.mem_fs) (SL := Fixture.toy_sync)
                  (FT := Fixture.toy_fts)
                  _ _ _ _ Hrun)).
Defined.

(** The witness for X14: the second page of all notes. *)
Lemma list_notes_newest_first_witness :
  NoteService.list_notes
    Fixture.second_page
    (Fixture.world Fixture.four_notes Fixture.empty_fs 5000)
  = (Ok (NoteListResponse.mk
           [NoteListItem.mk "b" "B" [] 20 EmptyString;
            NoteListItem.mk "a" "A" ["x"] 10 EmptyString] 3),
     snd (NoteService.list_notes
            Fixture.second_page
            (Fixture.world Fixture.four_notes Fixture.empty_fs 5000)))
  /\ Sorted Z.ge [20; 10].
Proof.
  assert (Hrun :
    NoteService.list_notes
      Fixture.second_page
      (Fixture.world Fixture.four_notes Fixture.empty_fs 5000)
    = (Ok (NoteListResponse.mk
             [NoteListItem.mk "b" "B" [] 20 EmptyString;
              NoteListItem.mk "a" "A" ["x"] 10 EmptyString] 3),
       snd (NoteService.list_notes
              Fixture.second_page
              (Fixture.world Fixture.four_notes Fixture.empty_fs 5000))))
    by (vm_compute; reflexivity).
  split; [exact Hrun|].
  exact (list_notes_newest_first
           (FS := Fixture.mem_fs) (SL := Fixture.toy_sync)
           (FT := Fixture.toy_fts)
           _ _ _ _ Hrun eq_refl).
Defined.

(* ================================================================== *)
(** ** A note's record through [upsert_note] and [get_note] *)

Section NoteRoundTrip.

(** What the loop body of [set_note_tags] does to the tables when every
    request goes through. *)
Definition link_one (id tag : string) (t : Tables) : Tables :=
  let t1 := Sql.insert_tag_or_ignore tag t in
  match Sql.select_tag_id tag t1 with
  | Some tag_id => Sql.insert_link_or_ignore id tag_id t1
  | None => t1
  end.

Definition link_all (id : string) (names : list string) (t : Tables)
  : Tables :=
  fold_left (fun t tag => link_one id tag t) names t.

(** The links of the note [id], in rowid order. *)
Definition links_of (id : string) (t : Tables) : list NoteTag.t :=
  filter (fun nt => String.eqb (NoteTag.note_id nt) id) (note_tags t).

(** The keys of [tags]: [id] is the primary key and [name] is UNIQUE. *)
Definition tag_keys_ok (t : Tables) : Prop :=
  NoDup (map TagRow.id (tags t)) /\ NoDup (map TagRow.name (tags t)).

(** The link [nt] joins exactly one row of [tags], called [name]. *)
Definition names_tag (tgs : list TagRow.t) (nt : NoteTag.t) (name : string)
  : Prop :=
  filter (fun tg => NoteTag.tag_id nt =? TagRow.id tg) tgs
  = [TagRow.mk (NoteTag.tag_id nt) name].

Lemma filter_none {A} (f : A -> bool) (l : list A) :
  (forall x, In x l -> f x = false) -> filter f l = [].
Proof.
  induction l as [|a l IH]; simpl; intros Hf; [reflexivity|].
  rewrite (Hf a (or_introl eq_refl)). apply IH. intros x Hx.
  apply Hf. right. exact Hx.
Qed.

Lemma filter_all {A} (f : A -> bool) (l : list A) :
  (forall x, In x l -> f x = true) -> filter f l = l.
Proof.
  induction l as [|a l IH]; simpl; intros Hf; [reflexivity|].
  rewrite (Hf a (or_introl eq_refl)). f_equal. apply IH. intros x Hx.
  apply Hf. right. exact Hx.
Qed.

Lemma unique_tag_row (l : list TagRow.t) (r : TagRow.t) :
  NoDup (map TagRow.id l) -> In r l ->
  filter (fun tg => TagRow.id r =? TagRow.id tg) l = [r].
Proof.
  induction l as [|a l IH]; simpl; intros Hnd Hin; [destruct Hin|].
  inversion Hnd as [|? ? Hnotin Hrest]; subst.
  destruct Hin as [->|Hin].
  - rewrite Z.eqb_refl. f_equal. apply filter_none. intros x Hx.
    apply Z.eqb_neq. intros Heq. apply Hnotin. rewrite Heq.
    apply in_map. exact Hx.
  - destruct (Z.eqb_spec (TagRow.id r) (TagRow.id a)) as [Heq|_].
    + elim Hnotin. rewrite <- Heq. apply in_map. exact Hin.
    + apply IH; assumption.
Qed.

Lemma unique_note_row (ns : list NoteRow.t) (n : NoteRow.t) :
  NoDup (map NoteRow.id ns) -> In n ns ->
  filter (fun n' => String.eqb (NoteRow.id n') (NoteRow.id n)) ns = [n].
Proof.
  induction ns as [|a l IH]; simpl; intros Hnd Hin; [destruct Hin|].
  inversion Hnd as [|? ? Hnotin Hrest]; subst.
  destruct Hin as [->|Hin].
  - rewrite String.eqb_refl. f_equal. apply filter_none. intros x Hx.
    apply String.eqb_neq. intros Heq. apply Hnotin. rewrite <- Heq.
    apply in_map. exact Hx.
  - destruct (String.eqb_spec (NoteRow.id a) (NoteRow.id n)) as [Heq|_].
    + elim Hnotin. rewrite Heq. apply in_map. exact Hin.
    + apply IH; assumption.
Qed.

Lemma max_id_bound (s : Z) (ids : list Z) (x : Z) :
  In x ids -> x <= fold_right Z.max s ids.
Proof.
  induction ids as [|a l IH]; simpl; intros Hin; [destruct Hin|].
  destruct Hin as [->|Hin]; [lia|]. specialize (IH Hin). lia.
Qed.

Lemma find_of_existsb {A} (f : A -> bool) (l : list A) :
  existsb f l = true -> exists r, find f l = Some r.
Proof.
  induction l as [|a l IH]; simpl; [discriminate|].
  destruct (f a); [intros _; eexists; reflexivity | exact IH].
Qed.

(** [INSERT OR IGNORE INTO tags] keeps the keys of [tags], only adds rows
    with new ids at the end, and leaves a row called [name] to select. *)
Lemma insert_tag_or_ignore_spec (name : string) (t : Tables) :
  tag_keys_ok t ->
  tag_keys_ok (Sql.insert_tag_or_ignore name t)
  /\ (exists extra,
         tags (Sql.insert_tag_or_ignore name t) = (tags t ++ extra)%list
         /\ forall tg, In tg extra -> ~ In (TagRow.id tg)
                                          (map TagRow.id (tags t)))
  /\ (exists r,
         In r (tags (Sql.insert_tag_or_ignore name t))
         /\ TagRow.name r = name
         /\ Sql.select_tag_id name (Sql.insert_tag_or_ignore name t)
            = Some (TagRow.id r))
  /\ notes (Sql.insert_tag_or_ignore name t) = notes t
  /\ note_tags (Sql.insert_tag_or_ignore name t) = note_tags t.
Proof.
  intros [Hids Hnames]. unfold Sql.insert_tag_or_ignore, Sql.select_tag_id.
  destruct (existsb (fun r => String.eqb (TagRow.name r) name) (tags t))
    eqn:E.
  - split; [split; assumption|]. split.
    + exists []. rewrite app_nil_r. split; [reflexivity | intros tg []].
    + split; [|split; reflexivity].
      destruct (find_of_existsb _ _ E) as [r Hr]. exists r.
      destruct (find_some _ _ Hr) as [Hin Hname].
      apply String.eqb_eq in Hname. rewrite Hr. auto.
  - set (next := fold_right Z.max (tags_seq t) (map TagRow.id (tags t)) + 1).
    assert (Hfresh : ~ In next (map TagRow.id (tags t))).
    { intros Hin. apply (max_id_bound (tags_seq t)) in Hin.
      unfold next in Hin. lia. }
    assert (Hnone : forall y, In y (tags t) ->
                              String.eqb (TagRow.name y) name = false).
    { intros y Hy. destruct (String.eqb (TagRow.name y) name) eqn:Ey;
        [|reflexivity].
      apply not_true_iff_false in E. elim E. apply existsb_exists.
      exists y. auto. }
    simpl. split; [|split; [|split; [|split; reflexivity]]].
    + split; simpl; rewrite map_app; simpl.
      * apply NoDup_app; [exact Hids | repeat constructor; intros [] |].
        intros x Hx [<-|[]]. exact (Hfresh Hx).
      * apply NoDup_app; [exact Hnames | repeat constructor; intros [] |].
        intros x Hx [<-|[]]. apply in_map_iff in Hx.
        destruct Hx as (y & Hname & Hy). specialize (Hnone y Hy).
        rewrite Hname, String.eqb_refl in Hnone. discriminate.
    + exists [TagRow.mk next name]. split; [reflexivity|].
      intros tg [<-|[]]. exact Hfresh.
    + exists (TagRow.mk next name). split; [apply in_or_app; right; left;
                                             reflexivity|].
      split; [reflexivity|].
      rewrite (find_app_last _ _ _ Hnone). simpl.
      rewrite String.eqb_refl. reflexivity.
Qed.

Lemma names_tag_member (tgs : list TagRow.t) (nt : NoteTag.t)
      (name : string) :
  names_tag tgs nt name -> In (NoteTag.tag_id nt) (map TagRow.id tgs).
Proof.
  unfold names_tag. intros Hf.
  assert (Hin : In (TagRow.mk (NoteTag.tag_id nt) name)
                   (filter (fun tg => NoteTag.tag_id nt =? TagRow.id tg) tgs))
    by (rewrite Hf; left; reflexivity).
  apply filter_In in Hin. destruct Hin as [Hin _].
  apply (in_map TagRow.id) in Hin. exact Hin.
Qed.

(** A link keeps its tag when rows with new ids are added to [tags]. *)
Lemma names_tag_mono (tgs extra : list TagRow.t) (nt : NoteTag.t)
      (name : string) :
  (forall tg, In tg extra -> ~ In (TagRow.id tg) (map TagRow.id tgs)) ->
  names_tag tgs nt name -> names_tag (tgs ++ extra) nt name.
Proof.
  intros Hnew Hnt. pose proof (names_tag_member _ _ _ Hnt) as Hmem.
  unfold names_tag in *. rewrite filter_app, Hnt.
  rewrite (filter_none _ extra); [reflexivity|].
  intros tg Htg. apply Z.eqb_neq. intros Heq.
  apply (Hnew tg Htg). rewrite <- Heq. exact Hmem.
Qed.

Lemma Forall2_names_tag_mono (tgs extra : list TagRow.t)
      (links : list NoteTag.t) (names : list string) :
  (forall tg, In tg extra -> ~ In (TagRow.id tg) (map TagRow.id tgs)) ->
  Forall2 (names_tag tgs) links names ->
  Forall2 (names_tag (tgs ++ extra)) links names.
Proof.
  intros Hnew. induction 1; constructor; [|assumption].
  apply names_tag_mono; assumption.
Qed.

Lemma Forall2_In_left {A B} (R : A -> B -> Prop) (l : list A) (l' : list B)
      (a : A) :
  Forall2 R l l' -> In a l -> exists b, In b l' /\ R a b.
Proof.
  induction 1 as [|x y l l' Hxy _ IH]; simpl; [intros []|].
  intros [<-|Hin].
  - exists y. auto.
  - destruct (IH Hin) as (b & Hb & Hab). exists b. auto.
Qed.

(** One turn of the loop: a tag not linked so far gets the next link. *)
Lemma link_one_spec (id x : string) (done : list string) (t : Tables) :
  tag_keys_ok t ->
  Forall2 (names_tag (tags t)) (links_of id t) done ->
  ~ In x done ->
  tag_keys_ok (link_one id x t)
  /\ Forall2 (names_tag (tags (link_one id x t)))
             (links_of id (link_one id x t)) (done ++ [x])
  /\ notes (link_one id x t) = notes t.
Proof.
  intros Hkeys Hdone Hx. unfold link_one.
  destruct (insert_tag_or_ignore_spec x t Hkeys)
    as (Hkeys1 & (extra & Htags & Hnew) & (r & Hr & Hname & Hsel)
        & Hnotes & Hlinks).
  set (t1 := Sql.insert_tag_or_ignore x t) in *.
  rewrite Hsel. unfold Sql.insert_link_or_ignore.
  assert (Hdone1 : Forall2 (names_tag (tags t1)) (links_of id t1) done).
  { unfold links_of. rewrite Hlinks, Htags.
    apply Forall2_names_tag_mono; assumption. }
  assert (Hrow : filter (fun tg => TagRow.id r =? TagRow.id tg) (tags t1)
                 = [r]).
  { apply unique_tag_row; [exact (proj1 Hkeys1) | exact Hr]. }
  destruct (existsb (fun nt => String.eqb (NoteTag.note_id nt) id
                               && (NoteTag.tag_id nt =? TagRow.id r))
                    (note_tags t1)) eqn:E.
  - exfalso. apply existsb_exists in E. destruct E as (nt & Hnt & Hcond).
    apply andb_true_iff in Hcond. destruct Hcond as [Hid Htid].
    apply Z.eqb_eq in Htid.
    assert (Hin : In nt (links_of id t1)).
    { unfold links_of. apply filter_In. auto. }
    destruct (Forall2_In_left _ _ _ _ Hdone1 Hin) as (name & Hname' & Hnt').
    unfold names_tag in Hnt'. rewrite Htid, Hrow in Hnt'.
    injection Hnt' as Hr'. apply Hx.
    rewrite <- Hname, Hr'. simpl. exact Hname'.
  - split; [exact Hkeys1|]. split; [|exact Hnotes].
    unfold links_of. simpl. rewrite filter_app. simpl.
    rewrite String.eqb_refl. apply Forall2_app; [exact Hdone1|].
    constructor; [|constructor].
    unfold names_tag. simpl. rewrite Hrow. f_equal.
    destruct r as [rid rname]. simpl in *. rewrite Hname. reflexivity.
Qed.

Lemma link_all_spec (id : string) (rest : list string) :
  forall (done : list string) (t : Tables),
    tag_keys_ok t ->
    Forall2 (names_tag (tags t)) (links_of id t) done ->
    NoDup (done ++ rest) ->
    tag_keys_ok (link_all id rest t)
    /\ Forall2 (names_tag (tags (link_all id rest t)))
               (links_of id (link_all id rest t)) (done ++ rest)
    /\ notes (link_all id rest t) = notes t.
Proof.
  induction rest as [|x rest IH]; intros done t Hkeys Hdone Hnd.
  - simpl. rewrite app_nil_r. auto.
  - assert (Hx : ~ In x done).
    { apply NoDup_remove_2 in Hnd. intros Hin. apply Hnd.
      apply in_or_app. left. exact Hin. }
    destruct (link_one_spec id x done t Hkeys Hdone Hx)
      as (Hkeys1 & Hdone1 & Hnotes1).
    assert (Hnd1 : NoDup ((done ++ [x]) ++ rest)).
    { rewrite <- app_assoc. exact Hnd. }
    destruct (IH (done ++ [x])%list (link_one id x t) Hkeys1 Hdone1 Hnd1)
      as (Hkeys2 & Hdone2 & Hnotes2).
    change (link_all id (x :: rest) t)
      with (link_all id rest (link_one id x t)).
    rewrite <- app_assoc in Hdone2. simpl in Hdone2.
    split; [exact Hkeys2|]. split; [exact Hdone2|].
    rewrite Hnotes2. exact Hnotes1.
Qed.
End NoteRoundTrip.

Section NoteRead.

Lemma left_join_cons {A B} (on : A -> B -> bool) (a : A) (l : list A)
      (r : list B) :
  Sql.left_join on (a :: l) r
  = (match filter (on a) r with
     | [] => [(a, None)]
     | bs => map (fun b => (a, Some b)) bs
     end ++ Sql.left_join on l r)%list.
Proof. reflexivity. Qed.

(** A filter on the left columns can be applied before the join. *)
Lemma filter_left_join {A B} (p : A -> bool) (on : A -> B -> bool)
      (l : list A) (r : list B) :
  filter (fun row => p (fst row)) (Sql.left_join on l r)
  = Sql.left_join on (filter p l) r.
Proof.
  induction l as [|a l IH]; [reflexivity|].
  rewrite left_join_cons, filter_app, IH.
  change (filter p (a :: l)) with (if p a then a :: filter p l else filter p l).
  destruct (p a) eqn:E.
  - rewrite left_join_cons. f_equal. apply filter_all.
    intros row Hrow. destruct (filter (on a) r) as [|b bs].
    + destruct Hrow as [<-|[]]. exact E.
    + apply in_map_iff in Hrow. destruct Hrow as (b' & <- & _). exact E.
  - rewrite filter_none; [reflexivity|].
    intros row Hrow. destruct (filter (on a) r) as [|b bs].
    + destruct Hrow as [<-|[]]. exact E.
    + apply in_map_iff in Hrow. destruct Hrow as (b' & <- & _). exact E.
Qed.

Lemma with_tag_names_of_id (id : string) (ns : list NoteRow.t)
      (t : Tables) :
  filter (fun j => String.eqb (NoteRow.id (Sql.join_note j)) id)
         (Sql.with_tag_names ns t)
  = Sql.with_tag_names
      (filter (fun n => String.eqb (NoteRow.id n) id) ns) t.
Proof.
  unfold Sql.with_tag_names, Sql.join_note.
  rewrite <- (filter_left_join
                (fun n => String.eqb (NoteRow.id n) id) Sql.on_note_link).
  rewrite <- (filter_left_join
                (fun row : NoteRow.t * option NoteTag.t =>
                   String.eqb (NoteRow.id (fst row)) id)
                Sql.on_link_tag).
  reflexivity.
Qed.

Lemma distinct_from_seen (k : string) (ks : list string) :
  (forall x, In x ks -> x = k) ->
  Sql.distinct_from String.eqb [k] ks = [].
Proof.
  induction ks as [|x ks IH]; simpl; intros Hall; [reflexivity|].
  rewrite (Hall x (or_introl eq_refl)), String.eqb_refl. simpl.
  apply IH. intros y Hy. apply Hall. right. exact Hy.
Qed.

(** The rows of one note make one group. *)
Lemma grouped_notes_single (n : NoteRow.t) (rows : list Sql.NoteJoin) :
  rows <> [] ->
  Forall (fun j => Sql.join_note j = n) rows ->
  Sql.grouped_notes rows
  = [(n, Sql.group_concat (map Sql.join_tag_name rows))].
Proof.
  intros Hne Hall. destruct rows as [|j rows]; [elim Hne; reflexivity|].
  unfold Sql.grouped_notes, Sql.group_by.
  assert (Hkeys : forall x,
            In x (j :: rows) ->
            String.eqb (NoteRow.id (Sql.join_note x)) (NoteRow.id n) = true).
  { intros x Hx. rewrite Forall_forall in Hall. rewrite (Hall x Hx).
    apply String.eqb_refl. }
  assert (Hj : Sql.join_note j = n).
  { rewrite Forall_forall in Hall. apply Hall. left. reflexivity. }
  cbn [map Sql.distinct_from existsb]. rewrite Hj.
  rewrite distinct_from_seen.
  - cbn [map flat_map snd]. rewrite (filter_all _ (j :: rows) Hkeys).
    rewrite Hj, app_nil_r. reflexivity.
  - intros x Hx. apply in_map_iff in Hx. destruct Hx as (y & <- & Hy).
    rewrite Forall_forall in Hall. rewrite (Hall y (or_intror Hy)).
    reflexivity.
Qed.

(** The joined rows of a note whose links each name one tag. *)
Lemma linked_rows (n : NoteRow.t) (tgs : list TagRow.t)
      (links : list NoteTag.t) (names : list string) :
  Forall2 (names_tag tgs) links names ->
  Forall (fun j => Sql.join_note j = n)
         (Sql.left_join Sql.on_link_tag
                        (map (fun nt => (n, Some nt)) links) tgs)
  /\ map Sql.join_tag_name
         (Sql.left_join Sql.on_link_tag
                        (map (fun nt => (n, Some nt)) links) tgs)
     = map Some names.
Proof.
  induction 1 as [|nt name links names Hnt _ IH]; simpl map at 1 2.
  - split; [constructor | reflexivity].
  - cbn [map]. rewrite left_join_cons.
    change (filter (Sql.on_link_tag (n, Some nt)) tgs)
      with (filter (fun tg => NoteTag.tag_id nt =? TagRow.id tg) tgs).
    unfold names_tag in Hnt. rewrite Hnt. destruct IH as [IH1 IH2].
    split.
    + constructor; [reflexivity | exact IH1].
    + cbn [map app]. rewrite IH2. reflexivity.
Qed.

Lemma Permutation_filter {A} (f : A -> bool) (l l' : list A) :
  Permutation l l' -> Permutation (filter f l) (filter f l').
Proof.
  induction 1 as [|x l l' _ IH|x y l|l l' l'' _ IH1 _ IH2]; simpl.
  - constructor.
  - destruct (f x); [apply perm_skip|]; exact IH.
  - destruct (f x), (f y); try apply perm_swap; apply Permutation_refl.
  - eapply perm_trans; eassumption.
Qed.

(** The links the join finds for a note are its links, in the order of
    the primary key. *)
Lemma joined_links (n : NoteRow.t) (t : Tables) :
  Permutation (filter (Sql.on_note_link n)
                      (Sql.order_by Sql.by_link_key (note_tags t)))
              (links_of (NoteRow.id n) t).
Proof.
  unfold links_of.
  rewrite (filter_ext (fun nt => String.eqb (NoteTag.note_id nt)
                                            (NoteRow.id n))
                      (Sql.on_note_link n)).
  - apply Permutation_filter. apply order_by_perm.
  - intros nt. unfold Sql.on_note_link. apply String.eqb_sym.
Qed.

(** Reading a note whose links each name one tag: its row and the names
    of its tags, in the order of the links' tag ids. *)
Lemma select_note_linked (n : NoteRow.t) (names : list string)
      (t : Tables) :
  NoDup (map NoteRow.id (notes t)) ->
  In n (notes t) ->
  Forall2 (names_tag (tags t)) (links_of (NoteRow.id n) t) names ->
  exists answered,
    Permutation names answered
    /\ Sql.select_note (NoteRow.id n) t
       = Some (n, Sql.group_concat (map Some answered)).
Proof.
  intros Hnd Hn Hlinks.
  destruct (Permutation_Forall2 (Permutation_sym (joined_links n t)) Hlinks)
    as (answered & Hperm & Hjoined).
  exists answered. split; [exact Hperm|].
  unfold Sql.select_note.
  rewrite with_tag_names_of_id, (unique_note_row _ _ Hnd Hn).
  unfold Sql.with_tag_names. rewrite left_join_cons.
  change (Sql.left_join Sql.on_note_link []
                        (Sql.order_by Sql.by_link_key (note_tags t)))
    with (@nil (NoteRow.t * option NoteTag.t)).
  rewrite app_nil_r.
  destruct (filter (Sql.on_note_link n)
                   (Sql.order_by Sql.by_link_key (note_tags t)))
    as [|nt links] eqn:E.
  - inversion Hjoined; subst.
    rewrite left_join_cons.
    rewrite (filter_none (Sql.on_link_tag (n, None)) (tags t))
      by (intros; reflexivity).
    change (Sql.left_join Sql.on_link_tag [] (tags t))
      with (@nil Sql.NoteJoin).
    rewrite (grouped_notes_single n);
      [reflexivity | discriminate | repeat constructor].
  - destruct (linked_rows n (tags t) (nt :: links) answered Hjoined)
      as [Hall Hnames].
    rewrite (grouped_notes_single n);
      [rewrite Hnames; reflexivity | | exact Hall].
    inversion Hjoined; subst. cbn [map]. rewrite left_join_cons.
    change (filter (Sql.on_link_tag (n, Some nt)) (tags t))
      with (filter (fun tg => NoteTag.tag_id nt =? TagRow.id tg) (tags t)).
    match goal with H : names_tag _ nt _ |- _ =>
      unfold names_tag in H; rewrite H end.
    discriminate.
Qed.

Lemma last_not_empty (names : list string) :
  Forall (fun n => n <> EmptyString) names ->
  last names "x" <> EmptyString.
Proof.
  induction 1 as [|n rest Hn _ IH]; [discriminate|].
  destruct rest as [|m rest']; [exact Hn | exact IH].
Qed.

(** The ← half of the tag text round trip. *)
Lemma tags_text_read_back (names : list string) :
  Forall (fun n => comma_free n = true) names ->
  last names "x" <> EmptyString ->
  MetadataStore.parse_tags (Sql.group_concat (map Some names)) = names.
Proof.
  intros Hfree Hlast. rewrite group_concat_names.
  destruct names as [|n rest]; [reflexivity|].
  unfold MetadataStore.parse_tags.
  assert (Hpieces :
    MetadataStore.getline_pieces (Sql.join_commas (n :: rest)) EmptyString
    = n :: rest).
  { rewrite (getline_pieces_joined _ Hfree).
    apply strip_empty_last_fixed. exact Hlast. }
  destruct (Sql.join_commas (n :: rest)); [|exact Hpieces].
  simpl in Hpieces. discriminate.
Qed.

(** The row [upsert_note] leaves for the note: a new note gets the
    record's creation time, an old one keeps its own. *)
Definition row_after_upsert (m : NoteMetadata.t) (t : Tables) : NoteRow.t :=
  NoteRow.mk (NoteMetadata.id m) (NoteMetadata.path m)
             (NoteMetadata.title m) (NoteMetadata.hash m)
             match find (fun r => String.eqb (NoteRow.id r)
                                             (NoteMetadata.id m))
                        (notes t) with
             | Some old => NoteRow.created_at old
             | None => NoteMetadata.created_at m
             end
             (NoteMetadata.updated_at m) (NoteMetadata.is_deleted m).

Lemma insert_or_update_note_spec (m : NoteMetadata.t) (t t1 : Tables) :
  NoDup (map NoteRow.id (notes t)) ->
  Sql.insert_or_update_note m t = Ok t1 ->
  NoDup (map NoteRow.id (notes t1))
  /\ In (row_after_upsert m t) (notes t1)
  /\ tags t1 = tags t /\ note_tags t1 = note_tags t.
Proof.
  intros Hnd. unfold Sql.insert_or_update_note, row_after_upsert.
  destruct (existsb _ (notes t)); [discriminate|].
  destruct (existsb (fun r => String.eqb (NoteRow.id r) (NoteMetadata.id m))
                    (notes t)) eqn:E; intros Heq; injection Heq as <-; simpl.
  - split; [|split; [|split; reflexivity]].
    + rewrite map_map.
      rewrite (map_ext _ NoteRow.id); [exact Hnd|].
      intros r. destruct (String.eqb (NoteRow.id r) (NoteMetadata.id m));
        reflexivity.
    + destruct (find_of_existsb _ _ E) as [old Hold]. rewrite Hold.
      destruct (find_some _ _ Hold) as [Hin Hid].
      apply in_map_iff. exists old. split; [|exact Hin].
      rewrite Hid. apply String.eqb_eq in Hid. rewrite Hid. reflexivity.
  - assert (Hnone : forall y, In y (notes t) ->
              String.eqb (NoteRow.id y) (NoteMetadata.id m) = false).
    { intros y Hy.
      destruct (String.eqb (NoteRow.id y) (NoteMetadata.id m)) eqn:Ey;
        [|reflexivity].
      apply not_true_iff_false in E. elim E. apply existsb_exists.
      exists y. auto. }
    split; [|split; [|split; reflexivity]].
    + rewrite map_app. simpl.
      apply NoDup_app; [exact Hnd | repeat constructor; intros [] |].
      intros x Hx [<-|[]]. apply in_map_iff in Hx.
      destruct Hx as (y & Hid & Hy). specialize (Hnone y Hy).
      rewrite Hid, String.eqb_refl in Hnone. discriminate.
    + apply in_or_app. right. left.
      destruct (find _ (notes t)) as [old|] eqn:Hf; [|reflexivity].
      destruct (find_some _ _ Hf) as [Hin Hid].
      rewrite (Hnone old Hin) in Hid. discriminate.
Qed.

Lemma delete_note_tags_spec (id : string) (t : Tables) :
  links_of id (Sql.delete_note_tags id t) = []
  /\ tags (Sql.delete_note_tags id t) = tags t
  /\ notes (Sql.delete_note_tags id t) = notes t.
Proof.
  split; [|split; reflexivity]. unfold links_of, Sql.delete_note_tags.
  simpl. apply filter_none. intros nt Hnt. apply filter_In in Hnt.
  destruct Hnt as [_ Hnt]. apply negb_true_iff in Hnt. exact Hnt.
Qed.
(** The row and the tag text [get_note] selects once [upsert_note] has
    run all its statements: the tags of the record, in the order of
    their ids. *)
Lemma select_note_after_upsert (meta : NoteMetadata.t) (t t1 : Tables) :
  NoDup (map NoteRow.id (notes t)) ->
  tag_keys_ok t ->
  Sql.insert_or_update_note meta t = Ok t1 ->
  NoDup (NoteMetadata.tags meta) ->
  exists answered,
    Permutation (NoteMetadata.tags meta) answered
    /\ Sql.select_note
         (NoteMetadata.id meta)
         (link_all (NoteMetadata.id meta) (NoteMetadata.tags meta)
                   (Sql.delete_note_tags (NoteMetadata.id meta) t1))
       = Some (row_after_upsert meta t,
               Sql.group_concat (map Some answered)).
Proof.
  intros Hids Hkeys Hup Hnd.
  destruct (insert_or_update_note_spec meta t t1 Hids Hup)
    as (Hids1 & Hrow & Htags1 & _).
  destruct (delete_note_tags_spec (NoteMetadata.id meta) t1)
    as (Hnone & Htags2 & Hnotes2).
  destruct (link_all_spec (NoteMetadata.id meta) (NoteMetadata.tags meta) []
              (Sql.delete_note_tags (NoteMetadata.id meta) t1))
    as (_ & Hlinks & Hnotes3).
  { unfold tag_keys_ok. rewrite Htags2, Htags1. exact Hkeys. }
  { rewrite Hnone. constructor. }
  { exact Hnd. }
  rewrite Hnotes2 in Hnotes3. simpl app in Hlinks.
  change (NoteMetadata.id meta)
    with (NoteRow.id (row_after_upsert meta t)) at 1.
  apply select_note_linked.
  - rewrite Hnotes3. exact Hids1.
  - rewrite Hnotes3. exact Hrow.
  - exact Hlinks.
Qed.

(** Tag names without comma and not empty come back from the tag text
    in whatever order they were joined. *)
Lemma tags_read_back_any_order (names answered : list string) :
  Permutation names answered ->
  Forall (fun n => comma_free n = true) names ->
  Forall (fun n => n <> EmptyString) names ->
  MetadataStore.parse_tags (Sql.group_concat (map Some answered)) = answered.
Proof.
  intros Hperm Hfree Hfull. apply tags_text_read_back.
  - exact (Permutation_Forall Hperm Hfree).
  - apply last_not_empty. exact (Permutation_Forall Hperm Hfull).
Qed.
End NoteRead.

Section NoteStore.
Context {F : Type}.

Lemma link_tag_healthy (id tag : string) (w : World F) :
  healthy w ->
  exists w',
    MetadataStore.link_tag id tag w = (tt, w')
    /\ tables w' = link_one id tag (tables w)
    /\ fault w' = fault w.
Proof.
  intros Hh. unfold MetadataStore.link_tag, link_one. run_healthy Hh.
  destruct (Sql.select_tag_id tag (Sql.insert_tag_or_ignore tag (tables w)))
    as [tag_id|]; run_healthy Hh; eexists; repeat split.
Qed.

Lemma link_tags_healthy (id : string) (names : list string) :
  forall w : World F,
    healthy w ->
    exists w',
      MetadataStore.link_tags id names w = (tt, w')
      /\ tables w' = link_all id names (tables w)
      /\ fault w' = fault w.
Proof.
  induction names as [|tag rest IH]; intros w Hh.
  - exists w. repeat split.
  - destruct (link_tag_healthy id tag w Hh) as (w1 & Hrun1 & Ht1 & Hf1).
    assert (Hh1 : healthy w1) by (intro n; rewrite Hf1; apply Hh).
    destruct (IH w1 Hh1) as (w2 & Hrun2 & Ht2 & Hf2).
    exists w2. cbn [MetadataStore.link_tags]. unfold bind at 1.
    rewrite Hrun1, Hrun2. split; [reflexivity|].
    split; [rewrite Ht2, Ht1; reflexivity | congruence].
Qed.

Lemma upsert_note_healthy (meta : NoteMetadata.t) (t1 : Tables)
      (w : World F) :
  healthy w ->
  Sql.insert_or_update_note meta (tables w) = Ok t1 ->
  exists w',
    MetadataStore.upsert_note meta w = (Ok tt, w')
    /\ tables w'
       = link_all (NoteMetadata.id meta) (NoteMetadata.tags meta)
                  (Sql.delete_note_tags (NoteMetadata.id meta) t1)
    /\ healthy w'.
Proof.
  intros Hh Hup. unfold MetadataStore.upsert_note, MetadataStore.set_note_tags.
  run_healthy Hh. rewrite Hup. run_healthy Hh.
  lazymatch goal with
  | |- context [MetadataStore.link_tags ?i ?l ?w1] =>
      destruct (link_tags_healthy i l w1) as (w2 & Hrun & Ht & Hf);
      [intro n; apply Hh | rewrite Hrun]
  end.
  exists w2. split; [reflexivity|]. split; [exact Ht|].
  intro n. rewrite Hf. apply Hh.
Qed.

Lemma get_note_healthy (id : string) (w : World F) :
  healthy w ->
  fst (MetadataStore.get_note id w)
  = Ok (option_map MetadataStore.note_of_row
                   (Sql.select_note id (tables w))).
Proof.
  intros Hh. unfold MetadataStore.get_note. run_healthy Hh. reflexivity.
Qed.

Lemma no_path_clash (meta : NoteMetadata.t) (t : Tables) :
  (forall n, In n (notes t) ->
             NoteRow.path n = NoteMetadata.path meta ->
             NoteRow.id n = NoteMetadata.id meta) ->
  exists t1, Sql.insert_or_update_note meta t = Ok t1.
Proof.
  intros Hfree. unfold Sql.insert_or_update_note.
  rewrite existsb_false_of_fresh.
  - destruct (existsb _ (notes t)); eexists; reflexivity.
  - intros n Hn. 
    destruct (String.eqb_spec (NoteRow.path n) (NoteMetadata.path meta))
      as [Hp|_]; [|apply andb_false_r].
    rewrite (Hfree n Hn Hp), String.eqb_refl. reflexivity.
Qed.

(** X15.  On a healthy connection, with the keys of [notes] and [tags]
    unique as the schema has them and no other note at the record's
    path, [upsert_note] succeeds and [get_note] then answers the record
    that was stored: the same id, path, title, hash, update time and
    flag, and the same tags, each once, provided the tag list has no
    duplicate, no tag with a comma and no empty tag.  The tags come in
    the order of their ids in [tags], which need not be the order of
    the record.  The creation time is the record's for a new note and
    stays the one of the row for a note that was there. *)
Theorem upsert_note_then_get_note (w : World F) (meta : NoteMetadata.t) :
  healthy w ->
  NoDup (map NoteRow.id (notes (tables w))) ->
  tag_keys_ok (tables w) ->
  (forall n, In n (notes (tables w)) ->
             NoteRow.path n = NoteMetadata.path meta ->
             NoteRow.id n = NoteMetadata.id meta) ->
  NoDup (NoteMetadata.tags meta) ->
  Forall (fun tag => comma_free tag = true) (NoteMetadata.tags meta) ->
  Forall (fun tag => tag <> EmptyString) (NoteMetadata.tags meta) ->
  exists w' answered,
    MetadataStore.upsert_note meta w = (Ok tt, w')
    /\ Permutation (NoteMetadata.tags meta) answered
    /\ fst (MetadataStore.get_note (NoteMetadata.id meta) w')
       = Ok (Some (NoteMetadata.mk
                     (NoteMetadata.id meta) (NoteMetadata.path meta)
                     (NoteMetadata.title meta) answered
                     (NoteMetadata.hash meta)
                     match find (fun r => String.eqb (NoteRow.id r)
                                                     (NoteMetadata.id meta))
                                (notes (tables w)) with
                     | Some old => NoteRow.created_at old
                     | None => NoteMetadata.created_at meta
                     end
                     (NoteMetadata.updated_at meta)
                     (NoteMetadata.is_deleted meta))).
Proof.
  intros Hh Hids Hkeys Hpath Hnd Hfree Hfull.
  destruct (no_path_clash meta (tables w) Hpath) as [t1 Hup].
  destruct (upsert_note_healthy meta t1 w Hh Hup) as (w' & Hrun & Ht & Hh').
  destruct (select_note_after_upsert meta (tables w) t1 Hids Hkeys Hup Hnd)
    as (answered & Hperm & Hsel).
  exists w', answered. split; [exact Hrun|]. split; [exact Hperm|].
  rewrite (get_note_healthy _ w' Hh'), Ht, Hsel.
  simpl. unfold MetadataStore.note_of_row. simpl.
  rewrite (tags_read_back_any_order _ _ Hperm Hfree Hfull). reflexivity.
Qed.
End NoteStore.

Section NoteRemoval.
Context {F : Type} {FS : Filesystem F} {SL : SyncLib} {FT : Fts5}.

Lemma tombstoned_rows (now : Z) (id : string) (t : Tables)
      (n : NoteRow.t) :
  In n (notes (Sql.update_note_deleted now id t)) ->
  NoteRow.id n = id -> NoteRow.is_deleted n = true.
Proof.
  unfold Sql.update_note_deleted. simpl. intros Hin Hid.
  apply in_map_iff in Hin. destruct Hin as (r & Hr & _).
  destruct (String.eqb_spec (NoteRow.id r) id) as [_|Hne].
  - subst n. reflexivity.
  - subst n. contradiction.
Qed.

(** An answer [Ok] of [delete_note] means the tombstone was written,
    whatever became of the search index. *)
Lemma delete_note_ok_tombstones (id : string) (w w' : World F) :
  NoteService.delete_note id w = (Ok tt, w') ->
  exists now t,
    notes (tables w') = notes (Sql.update_note_deleted now id t).
Proof.
  unfold NoteService.delete_note, MetadataStore.get_note,
    MetadataStore.delete_note, MetadataStore.remove_fts, Fs.remove, Fs.lift.
  unfold_primitives. simpl.
  destruct (fault w (ops w)); simpl; [discriminate|].
  destruct (fault w (S (ops w))); simpl; [discriminate|].
  destruct (Sql.select_note id (tables w)) as [row|]; simpl; [|discriminate].
  destruct (fs_remove _ (fsys w)) as [[u|e] s1]; simpl; [|discriminate].
  destruct (fault w (S (S (ops w)))); simpl; [discriminate|].
  destruct (fault w (S (S (S (ops w))))); simpl; [discriminate|].
  destruct (fault w (S (S (S (S (ops w)))))); simpl; [discriminate|].
  destruct (fault w (S (S (S (S (S (ops w))))))); simpl;
    intros Heq; injection Heq as <-; simpl; eexists; eexists; reflexivity.
Qed.

(** X16.  Once [delete_note] has answered [Ok], no answer of
    [list_notes] names the note, whatever the filter and the page, and
    whether or not the entry of the note left the search index. *)
Theorem delete_note_hides_note
        (id : string) (w w' w2 w3 : World F) (options : ListOptions.t)
        (resp : NoteListResponse.t) :
  NoteService.delete_note id w = (Ok tt, w') ->
  tables w2 = tables w' ->
  NoteService.list_notes options w2 = (Ok resp, w3) ->
  ~ In id (map NoteListItem.id (NoteListResponse.notes resp)).
Proof.
  intros Hdel Hsame Hlist Hin.
  destruct (delete_note_ok_tombstones id w w' Hdel) as (now & t & Hnotes).
  destruct (list_notes_answer w2 w3 options resp Hlist)
    as (found & a & b & page & Hfound & Hsplit & Hitems).
  destruct (matching_sound options (tables w2) found Hfound)
    as (_ & Hrows & _).
  apply in_map_iff in Hin. destruct Hin as (item & Hid & Hitem).
  destruct (items_from_page _ _ _ Hitems Hitem) as (m & Hm & Hshown).
  destruct (Hrows m) as (n & Hn & Hlive & (Hmid & _) & _).
  { rewrite Hsplit. apply in_or_app. right. apply in_or_app. left.
    exact Hm. }
  destruct Hshown as [content ->]. simpl in Hid.
  rewrite Hsame, Hnotes in Hn.
  rewrite (tombstoned_rows now id t n Hn) in Hlive; [discriminate|].
  congruence.
Qed.
End NoteRemoval.

Section SearchIndex.
Context {F : Type}.

(** X17.  On a healthy connection [update_fts] leaves exactly one entry
    for the note in the search index, the new one, however many entries
    it had; the entries of other notes stay as they are, in order. *)
Theorem update_fts_leaves_one_entry
        (w : World F) (id title content : string) :
  healthy w ->
  exists w',
    MetadataStore.update_fts id title content w = (Ok tt, w')
    /\ filter (fun r => String.eqb (FtsRow.note_id r) id)
              (notes_fts (tables w'))
       = [FtsRow.mk id title content]
    /\ filter (fun r => negb (String.eqb (FtsRow.note_id r) id))
              (notes_fts (tables w'))
       = filter (fun r => negb (String.eqb (FtsRow.note_id r) id))
                (notes_fts (tables w))
    /\ notes (tables w') = notes (tables w).
Proof.
  intros Hh. unfold MetadataStore.update_fts, MetadataStore.remove_fts.
  run_healthy Hh. eexists. split; [reflexivity|]. simpl.
  rewrite !filter_app. simpl. rewrite String.eqb_refl. simpl.
  split; [|split; [|reflexivity]].
  - rewrite filter_none; [reflexivity|].
    intros r Hr. apply filter_In in Hr. destruct Hr as [_ Hr].
    apply negb_true_iff in Hr. exact Hr.
  - rewrite app_nil_r. apply filter_all.
    intros r Hr. apply filter_In in Hr. tauto.
Qed.
End SearchIndex.

(** The witness for X15: the note ["n1"] is stored again with a new
    title and the tags ["y"; "x"]; it keeps its creation time 10, and
    its tags come back as ["x"; "y"], the tag ["x"] having the smaller
    id. *)
Lemma upsert_note_then_get_note_witness :
  exists w',
    MetadataStore.upsert_note
      (NoteMetadata.mk "n1" "n1.md" "T2" ["y"; "x"] "h2" 99 20 false)
      Fixture.note_world
    = (Ok tt, w')
    /\ Permutation ["y"; "x"] ["x"; "y"]
    /\ fst (MetadataStore.get_note "n1" w')
       = Ok (Some (NoteMetadata.mk "n1" "n1.md" "T2" ["x"; "y"] "h2"
                                   10 20 false)).
Proof.
  destruct (upsert_note_then_get_note
              Fixture.note_world
              (NoteMetadata.mk "n1" "n1.md" "T2" ["y"; "x"] "h2" 99 20 false))
    as (w' & answered & Hrun & Hperm & Hget).
  - intro n. reflexivity.
  - repeat constructor. simpl. tauto.
  - split; repeat constructor; simpl; tauto.
  - simpl. intros n [<-|[]] _. reflexivity.
  - repeat constructor; simpl; intuition discriminate.
  - repeat constructor.
  - repeat constructor; discriminate.
  - exists w'. split; [exact Hrun|].
    assert (Hanswered : answered = ["x"; "y"]).
    { vm_compute in Hrun. injection Hrun as <-.
      vm_compute in Hget. injection Hget as Ha. symmetry. exact Ha. }
    rewrite Hanswered in Hperm, Hget. split; [exact Hperm | exact Hget].
Defined.

(** The witness for X16: the note ["n1"] with its file in the content
    store is deleted; the listing that follows is empty. *)
Lemma delete_note_hides_note_witness :
  NoteService.delete_note
    "n1"
    (Fixture.world Fixture.one_note
                   (Fixture.mkMemFs [("n1.md", ([], 0))] []) 5000)
  = (Ok tt,
     snd (NoteService.delete_note
            "n1"
            (Fixture.world Fixture.one_note
                           (Fixture.mkMemFs [("n1.md", ([], 0))] []) 5000)))
  /\ NoteService.list_notes
       ListOptions.default
       (snd (NoteService.delete_note
               "n1"
               (Fixture.world Fixture.one_note
                              (Fixture.mkMemFs [("n1.md", ([], 0))] [])
                              5000)))
     = (Ok (NoteListResponse.mk [] 0),
        snd (NoteService.list_notes
               ListOptions.default
               (snd (NoteService.delete_note
                       "n1"
                       (Fixture.world
                          Fixture.one_note
                          (Fixture.mkMemFs [("n1.md", ([], 0))] [])
                          5000)))))
  /\ ~ In "n1" [].
Proof.
  assert (Hdel :
    NoteService.delete_note
      "n1"
      (Fixture.world Fixture.one_note
                     (Fixture.mkMemFs [("n1.md", ([], 0))] []) 5000)
    = (Ok tt,
       snd (NoteService.delete_note
              "n1"
              (Fixture.world Fixture.one_note
                             (Fixture.mkMemFs [("n1.md", ([], 0))] [])
                             5000))))
    by (vm_compute; reflexivity).
  assert (Hlist :
    NoteService.list_notes
      ListOptions.default
      (snd (NoteService.delete_note
              "n1"
              (Fixture.world Fixture.one_note
                             (Fixture.mkMemFs [("n1.md", ([], 0))] [])
                             5000)))
    = (Ok (NoteListResponse.mk [] 0),
       snd (NoteService.list_notes
              ListOptions.default
              (snd (NoteService.delete_note
                      "n1"
                      (Fixture.world
                         Fixture.one_note
                         (Fixture.mkMemFs [("n1.md", ([], 0))] [])
                         5000))))))
    by (vm_compute; reflexivity).
  split; [exact Hdel|]. split; [exact Hlist|].
  exact (delete_note_hides_note
           (FS := Fixture.mem_fs) (SL := Fixture.toy_sync)
           (FT := Fixture.toy_fts)
           "n1" _ _ _ _ ListOptions.default _ Hdel eq_refl Hlist).
Defined.

(** The witness for X17: the note of [note_world] is indexed. *)
Lemma update_fts_leaves_one_entry_witness :
  healthy Fixture.note_world
  /\ exists w',
      MetadataStore.update_fts "n1" "T" "body" Fixture.note_world
      = (Ok tt, w')
      /\ notes_fts (tables w') = [FtsRow.mk "n1" "T" "body"].
Proof.
  assert (Hh : healthy Fixture.note_world) by (intro n; reflexivity).
  split; [exact Hh|].
  destruct (update_fts_leaves_one_entry
              Fixture.note_world "n1" "T" "body" Hh)
    as (w' & Hrun & _).
  exists w'. split; [exact Hrun|].
  vm_compute in Hrun. injection Hrun as <-. reflexivity.
Defined.

(* ================================================================== *)
(** ** Note documents *)

Section Documents.
Context {F : Type} {FS : Filesystem F} {FW : FilesystemWalk F}
        {SL : SyncLib} {FT : Fts5} {NF : NoteFormat}.

Lemma select_note_row (id : string) (t : Tables) (row : Sql.NoteResult) :
  Sql.select_note id t = Some row ->
  In (fst row) (notes t) /\ NoteRow.id (fst row) = id.
Proof.
  unfold Sql.select_note. intros Hsel.
  assert (Hin : In row
                   (Sql.grouped_notes
                      (filter (fun j => String.eqb
                                          (NoteRow.id (Sql.join_note j)) id)
                              (Sql.with_tag_names (notes t) t)))).
  { destruct (Sql.grouped_notes _) as [|r rs]; [discriminate|].
    injection Hsel as <-. left. reflexivity. }
  apply grouped_notes_from_rows in Hin. destruct Hin as (j & Hj & ->).
  apply filter_In in Hj. destruct Hj as [Hj Hid].
  apply with_tag_names_note in Hj. apply String.eqb_eq in Hid. auto.
Qed.

(** X18.  Once [delete_note] has answered [Ok], the note is gone for the
    service: whatever the connection does, [get_note] never answers the
    note again and [update_note] fails without touching the index or the
    content store; on a healthy connection [get_note] answers that
    there is no such note and [update_note] answers "Note not found". *)
Theorem deleted_note_is_gone
        (id : string) (w w' w2 : World F) (req : NoteUpdateRequest.t) :
  NoteService.delete_note id w = (Ok tt, w') ->
  tables w2 = tables w' ->
  (forall resp, fst (NoteService.get_note id w2) <> Ok (Some resp))
  /\ has_value (fst (NoteService.update_note id req w2)) = false
  /\ tables (snd (NoteService.update_note id req w2)) = tables w2
  /\ fsys (snd (NoteService.update_note id req w2)) = fsys w2
  /\ (healthy w2 ->
      fst (NoteService.get_note id w2) = Ok None
      /\ fst (NoteService.update_note id req w2) = Err "Note not found").
Proof.
  intros Hdel Hsame.
  destruct (delete_note_ok_tombstones id w w' Hdel) as (now & t & Hnotes).
  assert (Hgone : forall row,
            Sql.select_note id (tables w2) = Some row ->
            NoteRow.is_deleted (fst row) = true).
  { intros row Hrow. apply select_note_row in Hrow.
    destruct Hrow as [Hin Hid]. rewrite Hsame, Hnotes in Hin.
    exact (tombstoned_rows now id t _ Hin Hid). }
  unfold NoteService.get_note, NoteService.update_note,
    MetadataStore.get_note.
  unfold_primitives. simpl.
  destruct (fault w2 (ops w2)) eqn:Hf0; simpl.
  { split; [discriminate | split; [reflexivity|]].
    split; [reflexivity|]. split; [reflexivity|].
    intros Hh. rewrite (Hh (ops w2)) in Hf0. discriminate. }
  destruct (fault w2 (S (ops w2))) eqn:Hf; simpl.
  - split; [discriminate | split; [reflexivity|]].
    split; [reflexivity|]. split; [reflexivity|].
    intros Hh. rewrite (Hh (S (ops w2))) in Hf. discriminate.
  - destruct (Sql.select_note id (tables w2)) as [row|] eqn:Hrow; simpl.
    + rewrite (Hgone row eq_refl). simpl.
      split; [discriminate|]. repeat split.
    + split; [discriminate|]. repeat split.
Qed.
End Documents.

Section NoteCreation.
Context {F : Type} {FS : Filesystem F} {FW : FilesystemWalk F}
        {SL : SyncLib} {FT : Fts5} {NF : NoteFormat}.

Lemma update_fts_healthy (id title content : string) (w : World F) :
  healthy w ->
  exists w',
    MetadataStore.update_fts id title content w = (Ok tt, w')
    /\ tables w' = Sql.insert_fts id title content
                                  (Sql.delete_fts id (tables w))
    /\ fault w' = fault w.
Proof.
  intros Hh. unfold MetadataStore.update_fts, MetadataStore.remove_fts.
  run_healthy Hh. eexists. repeat split.
Qed.

Lemma one_fts_entry (id title content : string) (t : Tables) :
  filter (fun r => String.eqb (FtsRow.note_id r) id)
         (notes_fts (Sql.insert_fts id title content (Sql.delete_fts id t)))
  = [FtsRow.mk id title content].
Proof.
  simpl. rewrite filter_app. simpl. rewrite String.eqb_refl.
  rewrite filter_none; [reflexivity|].
  intros r Hr. apply filter_In in Hr. destruct Hr as [_ Hr].
  apply negb_true_iff in Hr. exact Hr.
Qed.

(** X19.  A note made by [create_note] can be read back.  On a healthy
    connection, with the keys of [notes] and [tags] unique, an id from
    the random source that no note has (nor its path), and a content
    store that takes the file: [create_note] answers the note under
    that id with the title, content and tags of the request, created
    and updated at the clock reading [now]; afterwards [get_metadata]
    answers a live record with that id, the path [id.md], the title and
    (for a tag list without duplicate, comma or empty tag) the tags of
    the request, each once, in the order of their ids in [tags]; and the
    search index has exactly one entry for the note, with the title and
    the content of the request. *)
Theorem create_note_then_get_metadata
        (w : World F) (req : NoteCreateRequest.t) (s1 : F) :
  let id := entropy w (draws w) in
  let now := clock w (ticks w) in
  let text :=
    serialize_note
      (set_content ("# " ++ NoteCreateRequest.title req
                         ++ NoteService.newline ++ NoteService.newline
                         ++ NoteCreateRequest.content req)
                   (set_tags (NoteCreateRequest.tags req)
                             (set_title (NoteCreateRequest.title req)
                                        blank_note))) in
  healthy w ->
  NoDup (map NoteRow.id (notes (tables w))) ->
  tag_keys_ok (tables w) ->
  (forall n, In n (notes (tables w)) ->
             NoteRow.id n <> id /\ NoteRow.path n <> id ++ ".md") ->
  fs_write (id ++ ".md") (list_byte_of_string text) (fsys w) = (Ok tt, s1) ->
  NoDup (NoteCreateRequest.tags req) ->
  Forall (fun tag => comma_free tag = true) (NoteCreateRequest.tags req) ->
  Forall (fun tag => tag <> EmptyString) (NoteCreateRequest.tags req) ->
  exists w' answered,
    NoteService.create_note req w
    = (Ok (NoteResponse.mk id (NoteCreateRequest.title req)
                           (NoteCreateRequest.content req)
                           (NoteCreateRequest.tags req) now now), w')
    /\ Permutation (NoteCreateRequest.tags req) answered
    /\ fst (NoteService.get_metadata id w')
       = Ok (Some (NoteMetadata.mk id (id ++ ".md")
                                   (NoteCreateRequest.title req)
                                   answered
                                   (hash_string text) now now false))
    /\ filter (fun r => String.eqb (FtsRow.note_id r) id)
              (notes_fts (tables w'))
       = [FtsRow.mk id (NoteCreateRequest.title req)
                    (NoteCreateRequest.content req)].
Proof.
  intros id now text Hh Hids Hkeys Hfresh Hwrite Hnd Hfree Hfull.
  set (meta := NoteMetadata.mk id (id ++ ".md") (NoteCreateRequest.title req)
                               (NoteCreateRequest.tags req)
                               (hash_string text) now now false).
  assert (Hnone : forall y, In y (notes (tables w)) ->
                            String.eqb (NoteRow.id y) id = false).
  { intros y Hy. apply String.eqb_neq. apply (Hfresh y Hy). }
  assert (Hup : exists t1, Sql.insert_or_update_note meta (tables w) = Ok t1).
  { apply no_path_clash. intros n Hn Hp. destruct (Hfresh n Hn) as [_ Hne].
    elim Hne. exact Hp. }
  destruct Hup as [t1 Hup].
  destruct (select_note_after_upsert meta (tables w) t1 Hids Hkeys Hup Hnd)
    as (answered & Hperm & Hrow).
  assert (Hsel : Sql.select_note
                   id (link_all id (NoteCreateRequest.tags req)
                                (Sql.delete_note_tags id t1))
                 = Some (NoteRow.mk id (id ++ ".md")
                                    (NoteCreateRequest.title req)
                                    (hash_string text) now now false,
                         Sql.group_concat (map Some answered))).
  { simpl in Hrow. rewrite Hrow. unfold row_after_upsert. simpl.
    destruct (find _ (notes (tables w))) as [old|] eqn:Hf; [|reflexivity].
    destruct (find_some _ _ Hf) as [Hin Hid].
    rewrite (Hnone old Hin) in Hid. discriminate. }
  unfold NoteService.create_note, NoteService.generate_uuid,
    NoteService.note_path, Fs.write, Fs.lift.
  unfold random_string, now_ms, emit, log, bind, ret.
  cbn [fsys tables clock ticks fault ops entropy draws journal].
  fold id. fold text. rewrite Hwrite.
  cbn [fsys tables clock ticks fault ops entropy draws journal has_value].
  fold now. fold meta.
  lazymatch goal with
  | |- context [MetadataStore.upsert_note meta ?w1] =>
      destruct (upsert_note_healthy meta t1 w1) as (w2 & Hrun & Ht & Hh2);
      [intro n; apply Hh | exact Hup | rewrite Hrun]
  end.
  simpl.
  destruct (update_fts_healthy id (NoteCreateRequest.title req)
                               (NoteCreateRequest.content req) w2 Hh2)
    as (w3 & Hrun3 & Ht3 & Hf3).
  rewrite Hrun3. simpl.
  eexists. exists answered. split; [reflexivity|].
  split; [exact Hperm|]. split.
  - unfold NoteService.get_metadata.
    rewrite get_note_healthy by (intro n; simpl; rewrite Hf3; apply Hh2).
    simpl. rewrite Ht3.
    change (Sql.select_note id (Sql.insert_fts id (NoteCreateRequest.title req)
                                   (NoteCreateRequest.content req)
                                   (Sql.delete_fts id (tables w2))))
      with (Sql.select_note id (tables w2)).
    unfold meta in Ht. cbn [NoteMetadata.id NoteMetadata.tags] in Ht.
    rewrite Ht, Hsel. simpl.
    unfold MetadataStore.note_of_row. simpl.
    rewrite (tags_read_back_any_order _ _ Hperm Hfree Hfull). reflexivity.
  - simpl. rewrite Ht3. apply one_fts_entry.
Qed.
End NoteCreation.

Section NoteUpdates.
Context {F : Type} {FS : Filesystem F} {FW : FilesystemWalk F}
        {SL : SyncLib} {FT : Fts5} {NF : NoteFormat}.

Ltac split_faults :=
  repeat (simpl;
          match goal with
          | |- context [fault ?w ?n] => destruct (fault w n)
          end).

(** The loop of [set_note_tags] leaves the rows of [notes] alone,
    whatever the connection does. *)
Lemma link_tag_notes (id tag : string) (w : World F) :
  notes (tables (snd (MetadataStore.link_tag id tag w))) = notes (tables w).
Proof.
  unfold MetadataStore.link_tag. unfold_primitives.
  assert (Htag : notes (Sql.insert_tag_or_ignore tag (tables w))
                 = notes (tables w)).
  { unfold Sql.insert_tag_or_ignore. destruct (existsb _ _); reflexivity. }
  assert (Hlink : forall tid t,
            notes (Sql.insert_link_or_ignore id tid t) = notes t).
  { intros tid t. unfold Sql.insert_link_or_ignore.
    destruct (existsb _ _); reflexivity. }
  split_faults; simpl; try reflexivity;
    repeat match goal with
           | |- context [Sql.select_tag_id ?a ?b] =>
               destruct (Sql.select_tag_id a b)
           end; split_faults; simpl; rewrite ?Hlink, ?Htag; reflexivity.
Qed.

Lemma link_tags_notes (id : string) (names : list string) :
  forall w : World F,
    notes (tables (snd (MetadataStore.link_tags id names w)))
    = notes (tables w).
Proof.
  induction names as [|tag rest IH]; intros w; [reflexivity|].
  cbn [MetadataStore.link_tags]. unfold bind at 1.
  pose proof (link_tag_notes id tag w) as Hone.
  destruct (MetadataStore.link_tag id tag w) as [u w1]. simpl in Hone.
  rewrite IH. exact Hone.
Qed.

(** An answer [Ok] of [upsert_note] means its first statement went
    through; the rows of [notes] are the ones it left. *)
Lemma upsert_note_ok (meta : NoteMetadata.t) (w w' : World F) :
  MetadataStore.upsert_note meta w = (Ok tt, w') ->
  exists t1,
    Sql.insert_or_update_note meta (tables w) = Ok t1
    /\ notes (tables w') = notes t1.
Proof.
  unfold MetadataStore.upsert_note, MetadataStore.set_note_tags.
  unfold_primitives. simpl.
  destruct (fault w (ops w)); simpl; [discriminate|].
  destruct (fault w (S (ops w))); simpl; [discriminate|].
  destruct (Sql.insert_or_update_note meta (tables w)) as [t1|e]; simpl;
    [|discriminate].
  destruct (fault w (S (S (ops w)))); simpl; [discriminate|].
  destruct (fault w (S (S (S (ops w))))); simpl.
  - lazymatch goal with
    | |- context [MetadataStore.link_tags ?i ?l ?w1] =>
        pose proof (link_tags_notes i l w1) as Hnotes;
        destruct (MetadataStore.link_tags i l w1) as [u w2]
    end.
    simpl in *. intros Heq. injection Heq as <-. exists t1. auto.
  - lazymatch goal with
    | |- context [MetadataStore.link_tags ?i ?l ?w1] =>
        pose proof (link_tags_notes i l w1) as Hnotes;
        destruct (MetadataStore.link_tags i l w1) as [u w2]
    end.
    simpl in *. intros Heq. injection Heq as <-. exists t1. auto.
Qed.

Lemma update_fts_notes (id title content : string) (w : World F) :
  notes (tables (snd (MetadataStore.update_fts id title content w)))
  = notes (tables w).
Proof.
  unfold MetadataStore.update_fts, MetadataStore.remove_fts.
  unfold_primitives. split_faults; reflexivity.
Qed.

(** What the upsert of an existing id leaves in [notes]. *)
Lemma insert_or_update_note_rows (meta : NoteMetadata.t) (t t1 : Tables)
      (old : NoteRow.t) :
  Sql.insert_or_update_note meta t = Ok t1 ->
  In old (notes t) -> NoteRow.id old = NoteMetadata.id meta ->
  In (NoteRow.mk (NoteMetadata.id meta) (NoteMetadata.path meta)
                 (NoteMetadata.title meta) (NoteMetadata.hash meta)
                 (NoteRow.created_at old) (NoteMetadata.updated_at meta)
                 (NoteMetadata.is_deleted meta)) (notes t1)
  /\ List.length (notes t1) = List.length (notes t)
  /\ forall n, In n (notes t) -> NoteRow.id n <> NoteMetadata.id meta ->
               In n (notes t1).
Proof.
  unfold Sql.insert_or_update_note. intros Hup Hin Hid.
  destruct (existsb _ (notes t)); [discriminate|].
  destruct (existsb (fun r => String.eqb (NoteRow.id r) (NoteMetadata.id meta))
                    (notes t)) eqn:E.
  - injection Hup as <-. simpl. split; [|split].
    + apply in_map_iff. exists old. split; [|exact Hin].
      rewrite Hid, String.eqb_refl. reflexivity.
    + apply length_map.
    + intros n Hn Hne. apply in_map_iff. exists n. split; [|exact Hn].
      apply String.eqb_neq in Hne. rewrite Hne. reflexivity.
  - apply not_true_iff_false in E. elim E. apply existsb_exists.
    exists old. split; [exact Hin|]. rewrite Hid. apply String.eqb_refl.
Qed.

Lemma store_get_note_ok (id : string) (w w1 : World F)
      (m : NoteMetadata.t) :
  MetadataStore.get_note id w = (Ok (Some m), w1) ->
  tables w1 = tables w
  /\ exists row,
       Sql.select_note id (tables w) = Some row
       /\ m = MetadataStore.note_of_row row.
Proof.
  unfold MetadataStore.get_note. unfold_primitives. simpl.
  destruct (fault w (ops w)); simpl; [discriminate|].
  destruct (fault w (S (ops w))); simpl; [discriminate|].
  destruct (Sql.select_note id (tables w)) as [row|]; simpl;
    [|discriminate].
  intros Heq. injection Heq as <- <-. split; [reflexivity|].
  exists row. auto.
Qed.

(** X20.  Whatever the connection and the content store do, an answer
    [Ok] of [update_note] is about a live note of the index and keeps
    its identity: the answer has the id asked for and the creation time
    of the note's row; a title, tag list or content the request gives
    is the one answered, and a title it leaves out is the one of the
    row; afterwards the note's row has the same id, path and creation
    time, is live, and carries the answer's title and update time; no
    row is added or removed and the rows of other notes are as they
    were. *)
Theorem update_note_keeps_identity
        (w w' : World F) (id : string) (req : NoteUpdateRequest.t)
        (resp : NoteResponse.t) :
  NoteService.update_note id req w = (Ok resp, w') ->
  exists old hash,
    In old (notes (tables w))
    /\ NoteRow.id old = id
    /\ NoteRow.is_deleted old = false
    /\ NoteResponse.id resp = id
    /\ NoteResponse.created_at resp = NoteRow.created_at old
    /\ NoteResponse.title resp
       = NoteService.value_or (NoteUpdateRequest.title req)
                              (NoteRow.title old)
    /\ (forall tags, NoteUpdateRequest.tags req = Some tags ->
                     NoteResponse.tags resp = tags)
    /\ (forall content, NoteUpdateRequest.content req = Some content ->
                        NoteResponse.content resp = content)
    /\ In (NoteRow.mk id (NoteRow.path old) (NoteResponse.title resp) hash
                      (NoteRow.created_at old)
                      (NoteResponse.updated_at resp) false)
          (notes (tables w'))
    /\ List.length (notes (tables w')) = List.length (notes (tables w))
    /\ forall n, In n (notes (tables w)) -> NoteRow.id n <> id ->
                 In n (notes (tables w')).
Proof.
  unfold NoteService.update_note. unfold bind at 1.
  destruct (MetadataStore.get_note id w) as [[[existing|]|e] w1] eqn:Hget;
    [|discriminate..].
  destruct (store_get_note_ok id w w1 existing Hget)
    as (Ht1 & row & Hrow & ->).
  destruct (select_note_row id (tables w) row Hrow) as [Hin Hid].
  unfold MetadataStore.note_of_row at 1. cbn [NoteMetadata.is_deleted].
  destruct (NoteRow.is_deleted (fst row)) eqn:Hlive; [discriminate|].
  unfold Fs.read_string, Fs.lift. unfold bind at 1.
  destruct (fs_read_string _ (fsys w1)) as [[content|e] s1];
    [|discriminate].
  destruct (parse_note content) as [parsed|e]; [|discriminate].
  unfold Fs.write, Fs.lift, emit. unfold bind at 1 2 3.
  cbn [fsys].
  destruct (fs_write _ _ s1) as [[u|e] s2]; [|discriminate].
  unfold ret at 1. unfold now_ms. unfold bind at 1.
  cbn [clock ticks tables fsys fault ops entropy draws journal].
  unfold bind at 1.
  lazymatch goal with
  | |- context [MetadataStore.upsert_note ?m ?wa] =>
      destruct (MetadataStore.upsert_note m wa) as [[[]|e] w3] eqn:Hup;
      [apply upsert_note_ok in Hup; destruct Hup as (t1 & Hup & Hn3)
      |discriminate]
  end.
  unfold bind at 1.
  lazymatch goal with
  | |- context [MetadataStore.update_fts ?i ?a ?b ?wa] =>
      pose proof (update_fts_notes i a b wa) as Hn4;
      destruct (MetadataStore.update_fts i a b wa) as [[[]|e] w4];
      [|discriminate]
  end.
  unfold log, emit, bind, ret. intros Heq. injection Heq as <- <-.
  cbn [tables fsys] in *. rewrite Ht1 in Hup.
  destruct (insert_or_update_note_rows _ _ _ (fst row) Hup Hin Hid)
    as (Hnew & Hlen & Hothers).
  cbn [NoteMetadata.id NoteMetadata.path NoteMetadata.title
       NoteMetadata.hash NoteMetadata.updated_at NoteMetadata.is_deleted
       MetadataStore.note_of_row] in Hnew, Hothers.
  exists (fst row). eexists.
  split; [exact Hin|]. split; [exact Hid|]. split; [exact Hlive|].
  split; [reflexivity|]. split; [reflexivity|]. split; [reflexivity|].
  split; [intros tags ->; reflexivity|].
  split; [intros c ->; reflexivity|].
  cbn [snd tables fst] in *. rewrite Hn4, Hn3.
  split; [exact Hnew|]. split; [exact Hlen | exact Hothers].
Qed.
End NoteUpdates.

Section NoteScan.
Context {F : Type} {FS : Filesystem F} {FW : FilesystemWalk F}
        {SL : SyncLib} {FT : Fts5} {NF : NoteFormat}.

(** Every note of [t] still has a row in [t'], with its creation
    time. *)
Definition keeps_notes (t t' : Tables) : Prop :=
  forall n, In n (notes t) ->
            exists n', In n' (notes t')
                       /\ NoteRow.id n' = NoteRow.id n
                       /\ NoteRow.created_at n' = NoteRow.created_at n.

Lemma keeps_notes_same (t t' : Tables) :
  notes t' = notes t -> keeps_notes t t'.
Proof. intros Heq n Hn. exists n. rewrite Heq. auto. Qed.

Lemma keeps_notes_trans (t1 t2 t3 : Tables) :
  keeps_notes t1 t2 -> keeps_notes t2 t3 -> keeps_notes t1 t3.
Proof.
  intros H12 H23 n Hn. destruct (H12 n Hn) as (n2 & Hn2 & Hid2 & Hc2).
  destruct (H23 n2 Hn2) as (n3 & Hn3 & Hid3 & Hc3).
  exists n3. split; [exact Hn3|]. split; congruence.
Qed.

Lemma insert_or_update_note_keeps (meta : NoteMetadata.t) (t t1 : Tables) :
  Sql.insert_or_update_note meta t = Ok t1 -> keeps_notes t t1.
Proof.
  unfold Sql.insert_or_update_note. intros Hup n Hn.
  destruct (existsb _ (notes t)); [discriminate|].
  destruct (existsb _ (notes t)); injection Hup as <-; simpl.
  - eexists. split; [apply in_map; exact Hn|].
    destruct (String.eqb (NoteRow.id n) (NoteMetadata.id meta)); auto.
  - exists n. split; [apply in_or_app; left; exact Hn | auto].
Qed.

(** Whatever the connection does, [upsert_note] drops no note. *)
Lemma upsert_note_keeps (meta : NoteMetadata.t) (w : World F) :
  keeps_notes (tables w) (tables (snd (MetadataStore.upsert_note meta w))).
Proof.
  unfold MetadataStore.upsert_note, MetadataStore.set_note_tags.
  unfold_primitives. simpl.
  destruct (fault w (ops w)); simpl; [apply keeps_notes_same; reflexivity|].
  destruct (fault w (S (ops w))); simpl;
    [apply keeps_notes_same; reflexivity|].
  destruct (Sql.insert_or_update_note meta (tables w)) as [t1|e] eqn:Hup;
    simpl; [|apply keeps_notes_same; reflexivity].
  apply (keeps_notes_trans _ t1); [exact (insert_or_update_note_keeps _ _ _ Hup)|].
  apply keeps_notes_same.
  destruct (fault w (S (S (ops w)))); simpl; [reflexivity|].
  destruct (fault w (S (S (S (ops w))))); simpl;
    lazymatch goal with
    | |- context [MetadataStore.link_tags ?i ?l ?w1] =>
        pose proof (link_tags_notes i l w1) as Hnotes;
        destruct (MetadataStore.link_tags i l w1) as [u w2]
    end; simpl in *; exact Hnotes.
Qed.

Lemma index_notes_keeps (paths : list string) :
  forall (indexed : Z) (w : World F),
    keeps_notes (tables w)
                (tables (snd (NoteService.index_notes paths indexed w))).
Proof.
  induction paths as [|path rest IH]; intros indexed w.
  - apply keeps_notes_same. reflexivity.
  - cbn [NoteService.index_notes].
    destruct ((String.length path <? 3)%nat
              || negb (String.eqb
                         (substring (String.length path - 3) 3 path) ".md"));
      [apply IH|].
    unfold Fs.read_string, Fs.lift. unfold bind at 1.
    destruct (fs_read_string path (fsys w)) as [[content|e] s1].
    + destruct (parse_note content) as [parsed|e].
      * unfold bind at 1.
        lazymatch goal with
        | |- context [MetadataStore.get_note ?i ?wa] =>
            destruct (get_note_frame i wa) as (Hg & _);
            destruct (MetadataStore.get_note i wa) as [existing w2]
        end.
        unfold now_ms. unfold bind at 1 2 3.
        lazymatch goal with
        | |- context [MetadataStore.upsert_note ?m ?wa] =>
            pose proof (upsert_note_keeps m wa) as Hu;
            destruct (MetadataStore.upsert_note m wa) as [[[]|e] w3]
        end.
        -- unfold bind at 1.
           lazymatch goal with
           | |- context [MetadataStore.update_fts ?i ?a ?b ?wa] =>
               pose proof (update_fts_notes i a b wa) as Hf;
               destruct (MetadataStore.update_fts i a b wa) as [[[]|e] w4]
           end.
           ++ simpl in *. eapply keeps_notes_trans; [|apply IH].
              eapply keeps_notes_trans; [|apply keeps_notes_same; exact Hf].
              rewrite <- Hg. exact Hu.
           ++ simpl in *.
              eapply keeps_notes_trans; [|apply keeps_notes_same; exact Hf].
              rewrite <- Hg. exact Hu.
        -- unfold log, emit, bind. simpl in *.
           eapply keeps_notes_trans; [|apply IH].
           rewrite <- Hg. exact Hu.
      * unfold log, emit, bind. simpl.
        eapply keeps_notes_trans; [|apply IH].
        apply keeps_notes_same. reflexivity.
    + unfold log, emit, bind. simpl.
      eapply keeps_notes_trans; [|apply IH].
      apply keeps_notes_same. reflexivity.
Qed.

(** X21.  Whatever the connection and the content store do, the scan of
    the note files never drops a note: every note that has a row before
    the scan has one after it, with the same creation time, also when
    its file is gone or no longer parses; and a scan that cannot list
    the store fails and leaves the index as it was. *)
Theorem scan_and_index_keeps_notes (w : World F) (n : NoteRow.t) :
  In n (notes (tables w)) ->
  (exists n',
      In n' (notes (tables (snd (NoteService.scan_and_index w))))
      /\ NoteRow.id n' = NoteRow.id n
      /\ NoteRow.created_at n' = NoteRow.created_at n)
  /\ (forall e s,
        fs_list_recursive (fsys w) = (Err e, s) ->
        fst (NoteService.scan_and_index w) = Err e
        /\ tables (snd (NoteService.scan_and_index w)) = tables w).
Proof.
  intros Hn. split.
  - unfold NoteService.scan_and_index, Fs.lift. unfold bind at 1.
    destruct (fs_list_recursive (fsys w)) as [[files|e] s1];
      [|exists n; simpl; auto].
    unfold bind at 1.
    lazymatch goal with
    | |- context [NoteService.index_notes ?l ?i ?wa] =>
        pose proof (index_notes_keeps l i wa) as Hk;
        destruct (NoteService.index_notes l i wa) as [[k|e] w2]
    end; unfold log, emit, bind, ret; simpl in *; apply Hk; exact Hn.
  - intros e s Heq. unfold NoteService.scan_and_index, Fs.lift, bind.
    rewrite Heq. split; reflexivity.
Qed.
End NoteScan.

(** The witness for X18: the note ["n1"] is deleted with its file; the
    service then answers that there is no such note. *)
Lemma deleted_note_is_gone_witness :
  NoteService.delete_note
    "n1"
    (Fixture.world Fixture.one_note
                   (Fixture.mkMemFs [("n1.md", ([], 0))] []) 5000)
  = (Ok tt,
     snd (NoteService.delete_note
            "n1"
            (Fixture.world Fixture.one_note
                           (Fixture.mkMemFs [("n1.md", ([], 0))] []) 5000)))
  /\ fst (NoteService.get_note
            "n1"
            (snd (NoteService.delete_note
                    "n1"
                    (Fixture.world Fixture.one_note
                                   (Fixture.mkMemFs [("n1.md", ([], 0))] [])
                                   5000))))
     = Ok None.
Proof.
  assert (Hdel :
    NoteService.delete_note
      "n1"
      (Fixture.world Fixture.one_note
                     (Fixture.mkMemFs [("n1.md", ([], 0))] []) 5000)
    = (Ok tt,
       snd (NoteService.delete_note
              "n1"
              (Fixture.world Fixture.one_note
                             (Fixture.mkMemFs [("n1.md", ([], 0))] [])
                             5000))))
    by (vm_compute; reflexivity).
  split; [exact Hdel|].
  destruct (deleted_note_is_gone
              (FS := Fixture.mem_fs) (NF := Fixture.plain_notes)
              "n1" _ _ _ (NoteUpdateRequest.mk None None None)
              Hdel eq_refl)
    as (_ & _ & _ & _ & Hhealthy).
  apply Hhealthy. intro n. reflexivity.
Defined.

(** The witness for X19: the first note of an empty store. *)
Lemma create_note_then_get_metadata_witness :
  exists w',
    NoteService.create_note (NoteCreateRequest.mk "T" "body" ["x"; "y"])
                            Fixture.fresh
    = (Ok (NoteResponse.mk "nonce-0" "T" "body" ["x"; "y"]
                           1000000 1000000), w')
    /\ filter (fun r => String.eqb (FtsRow.note_id r) "nonce-0")
              (notes_fts (tables w'))
       = [FtsRow.mk "nonce-0" "T" "body"].
Proof.
  destruct (create_note_then_get_metadata
              (FS := Fixture.mem_fs) (NF := Fixture.plain_notes)
              Fixture.fresh (NoteCreateRequest.mk "T" "body" ["x"; "y"])
              (snd (fs_write "nonce-0.md"
                             (list_byte_of_string
                                ("# T" ++ NoteService.newline
                                       ++ NoteService.newline ++ "body"))
                             Fixture.empty_fs)))
    as (w' & answered & Hrun & _ & _ & Hfts).
  - intro n. reflexivity.
  - constructor.
  - split; constructor.
  - intros n [].
  - reflexivity.
  - repeat constructor; simpl; intuition discriminate.
  - repeat constructor.
  - repeat constructor; discriminate.
  - exists w'. split; [exact Hrun | exact Hfts].
Defined.

(** The witness for X20: the note ["n1"] gets a new title. *)
Lemma update_note_keeps_identity_witness :
  NoteService.update_note
    "n1" (NoteUpdateRequest.mk (Some "T2") None None)
    (Fixture.world Fixture.one_note
                   (Fixture.mkMemFs [("n1.md", ([x68; x69], 0))] []) 5000)
  = (Ok (NoteResponse.mk "n1" "T2" "hi" ["x"] 10 5000),
     snd (NoteService.update_note
            "n1" (NoteUpdateRequest.mk (Some "T2") None None)
            (Fixture.world Fixture.one_note
                           (Fixture.mkMemFs [("n1.md", ([x68; x69], 0))] [])
                           5000)))
  /\ exists old,
      In old (notes Fixture.one_note)
      /\ NoteRow.id old = "n1"
      /\ 10 = NoteRow.created_at old.
Proof.
  assert (Hrun :
    NoteService.update_note
      "n1" (NoteUpdateRequest.mk (Some "T2") None None)
      (Fixture.world Fixture.one_note
                     (Fixture.mkMemFs [("n1.md", ([x68; x69], 0))] []) 5000)
    = (Ok (NoteResponse.mk "n1" "T2" "hi" ["x"] 10 5000),
       snd (NoteService.update_note
              "n1" (NoteUpdateRequest.mk (Some "T2") None None)
              (Fixture.world
                 Fixture.one_note
                 (Fixture.mkMemFs [("n1.md", ([x68; x69], 0))] []) 5000))))
    by (vm_compute; reflexivity).
  split; [exact Hrun|].
  destruct (update_note_keeps_identity
              (FS := Fixture.mem_fs) (NF := Fixture.plain_notes)
              _ _ _ _ _ Hrun)
    as (old & hash & Hin & Hid & _ & _ & Hcreated & _).
  exists old. auto.
Defined.

(** The witness for X21: the file of the note ["n1"] is gone; the scan
    keeps the note. *)
Lemma scan_and_index_keeps_notes_witness :
  In (NoteRow.mk "n1" "n1.md" "T" "h" 10 10 false)
     (notes (tables Fixture.note_world))
  /\ exists n',
      In n' (notes (tables (snd (NoteService.scan_and_index
                                   Fixture.note_world))))
      /\ NoteRow.id n' = "n1"
      /\ NoteRow.created_at n' = 10.
Proof.
  assert (Hin : In (NoteRow.mk "n1" "n1.md" "T" "h" 10 10 false)
                   (notes (tables Fixture.note_world)))
    by (left; reflexivity).
  split; [exact Hin|].
  exact (proj1 (scan_and_index_keeps_notes
                  (FS := Fixture.mem_fs) (FW := Fixture.mem_walk)
                  (NF := Fixture.plain_notes)
                  Fixture.note_world _ Hin)).
Defined.
